(** * ToF camera hardware simulator: PLY reader, PLY writer and packet stream

    A shallow embedding of [gui/hardware_simulator.py] (classes
    [ToFCameraSimulator] and [HardwareDataManager]), of the binary writer
    in [gui/create_test_ply.py], of the loader [RealPLYLoader.load_ply_real],
    the file stream and the viewer of [gui/unified_gui.py], and of the
    stream thread, the control panel and the real-time viewer of
    [gui/hardware_gui.py], together with the properties of the reader, the
    writer and the packetizer that the specification of the repository
    states, and further properties of this code.

    Layout: the part of the Python runtime the code relies on (text, bytes,
    [struct], floats), then the program, then the properties. *)

From Stdlib Require Import String Ascii.
From Stdlib Require Import ZArith NArith List Lia QArith Qabs Qround Bool Sorted.
From Stdlib Require Import Strings.Byte.
From Stdlib Require Import Floats.SpecFloat.
From Stdlib Require Import Numbers.DecimalPos.
Import ListNotations.

Local Open Scope Z_scope.

(* ================================================================= *)
(** * Python text and bytes *)

(** A [str] is a sequence of Unicode code points, a [bytes] object a
    sequence of octets. *)
Definition str := list N.
Definition bytes := list byte.

(** A literal of the source, such as ['ply'], as a [str]. *)
Definition lit (s : string) : str := List.map N_of_ascii (list_ascii_of_string s).

(** A literal of the source, such as [b"ply\n"] without its newline, as
    [bytes]. *)
Definition blit (s : string) : bytes := list_byte_of_string s.

(** The newline octet [b'\n']. *)
Definition NL : byte := x0a.

Definition str_eqb (a b : str) : bool :=
  if list_eq_dec N.eq_dec a b then true else false.

Definition byte_of_Z (z : Z) : byte :=
  match Byte.of_N (Z.to_N (z mod 256)) with
  | Some b => b
  | None => x00
  end.

Definition Z_of_byte (b : byte) : Z := Z.of_N (Byte.to_N b).

(** Exceptions the modelled code can raise. [ValueError_not_ply] is the
    [ValueError("Not a valid PLY file")] that [load_ply_file] raises
    itself; the others come from the runtime. *)
Inductive exn : Type :=
| ValueError_not_ply
| ValueError
| IndexError
| TypeError
| UnicodeDecodeError
| OverflowError
| ZeroDivisionError
| StructError
| MemoryError.

(** Result of a computation: a value, an exception, or no result at all
    (a loop that never ends). *)
Inductive result (A : Type) : Type :=
| Ok (a : A)
| Raise (e : exn)
| Hang.
Arguments Ok {A} a.
Arguments Raise {A} e.
Arguments Hang {A}.

Definition bind {A B : Type} (r : result A) (k : A -> result B) : result B :=
  match r with
  | Ok a => k a
  | Raise e => Raise e
  | Hang => Hang
  end.

Notation "x <- r ;; k" := (bind r (fun x => k))
  (at level 61, r at next level, right associativity).
Notation "' p <- r ;; k" := (bind r (fun p => k))
  (at level 61, p pattern, r at next level, right associativity).

Definition or_raise {A : Type} (e : exn) (o : option A) : result A :=
  match o with
  | Some a => Ok a
  | None => Raise e
  end.

(** [l[i]] for [i >= 0]. *)
Definition index {A : Type} (l : list A) (i : nat) : result A :=
  or_raise IndexError (nth_error l i).

(** [l[i:j]] for [0 <= i] and [0 <= j]: the bounds are clamped to the
    length and the slice is empty when [j <= i]. *)
Definition slice {A : Type} (l : list A) (i j : Z) : list A :=
  firstn (Z.to_nat j - Z.to_nat i) (skipn (Z.to_nat i) l).

(** [f.readline()] on a file opened in binary mode: the octets up to and
    including the next newline, or what is left of the file. Returns the
    line and the rest of the file. *)
Fixpoint readline (f : bytes) : bytes * bytes :=
  match f with
  | [] => ([], [])
  | c :: f' =>
      if Byte.eqb c NL then ([c], f')
      else let (l, r) := readline f' in (c :: l, r)
  end.

(** [f.read(n)]: at most [n] octets. *)
Definition read (n : nat) (f : bytes) : bytes * bytes := (firstn n f, skipn n f).

(** ** UTF-8 decoding, [bytes.decode()] *)

Definition cont (b : byte) : option Z :=
  let v := Z_of_byte b in
  if (128 <=? v) && (v <=? 191) then Some (v - 128) else None.

Definition in_range (lo hi : Z) (b : byte) : bool :=
  (lo <=? Z_of_byte b) && (Z_of_byte b <=? hi).

(** The well-formed byte sequences of the Unicode standard (table 3-7):
    no overlong form, no surrogate, nothing above U+10FFFF. [None] is
    [UnicodeDecodeError]. *)
Fixpoint utf8_decode (bs : bytes) : option str :=
  match bs with
  | [] => Some []
  | b0 :: r0 =>
      let v0 := Z_of_byte b0 in
      if v0 <=? 127 then option_map (cons (Z.to_N v0)) (utf8_decode r0)
      else if in_range 194 223 b0 then
        match r0 with
        | b1 :: r1 =>
            match cont b1 with
            | Some c1 =>
                option_map (cons (Z.to_N ((v0 - 192) * 64 + c1))) (utf8_decode r1)
            | None => None
            end
        | _ => None
        end
      else if in_range 224 239 b0 then
        match r0 with
        | b1 :: b2 :: r2 =>
            match cont b1, cont b2 with
            | Some c1, Some c2 =>
                if (v0 =? 224) && negb (in_range 160 191 b1) then None
                else if (v0 =? 237) && negb (in_range 128 159 b1) then None
                else option_map
                       (cons (Z.to_N ((v0 - 224) * 4096 + c1 * 64 + c2)))
                       (utf8_decode r2)
            | _, _ => None
            end
        | _ => None
        end
      else if in_range 240 244 b0 then
        match r0 with
        | b1 :: b2 :: b3 :: r3 =>
            match cont b1, cont b2, cont b3 with
            | Some c1, Some c2, Some c3 =>
                if (v0 =? 240) && negb (in_range 144 191 b1) then None
                else if (v0 =? 244) && negb (in_range 128 143 b1) then None
                else option_map
                       (cons (Z.to_N ((v0 - 240) * 262144 + c1 * 4096 + c2 * 64 + c3)))
                       (utf8_decode r3)
            | _, _, _ => None
            end
        | _ => None
        end
      else None
  end.

Definition decode (bs : bytes) : result str := or_raise UnicodeDecodeError (utf8_decode bs).

(** ** Whitespace, [str.strip()] and [str.split()] *)

(** [str.isspace] on one character: the ASCII separators and the Unicode
    characters with the White_Space property. *)
Definition isspace (c : N) : bool :=
  let c := Z.of_N c in
  ((9 <=? c) && (c <=? 13)) || ((28 <=? c) && (c <=? 32))
  || (c =? 133) || (c =? 160) || (c =? 5760)
  || ((8192 <=? c) && (c <=? 8202))
  || (c =? 8232) || (c =? 8233) || (c =? 8239) || (c =? 8287) || (c =? 12288).

Fixpoint lstrip (s : str) : str :=
  match s with
  | [] => []
  | c :: s' => if isspace c then lstrip s' else s
  end.

Definition rstrip (s : str) : str := rev (lstrip (rev s)).

Definition strip (s : str) : str := rstrip (lstrip s).

(** [s.split()]: the maximal runs of characters that are not whitespace. *)
Fixpoint split (s : str) : list str :=
  match s with
  | [] => []
  | c :: s' =>
      if isspace c then split s'
      else
        match s' with
        | [] => [[c]]
        | d :: _ =>
            if isspace d then [c] :: split s'
            else
              match split s' with
              | t :: ts => (c :: t) :: ts
              | [] => [[c]]
              end
        end
  end.

(** ** Decimal rendering of integers, [str(n)] and [f"{n}"] *)

Fixpoint uint_digits (u : Decimal.uint) : list N :=
  match u with
  | Decimal.Nil => []
  | Decimal.D0 u => 48%N :: uint_digits u
  | Decimal.D1 u => 49%N :: uint_digits u
  | Decimal.D2 u => 50%N :: uint_digits u
  | Decimal.D3 u => 51%N :: uint_digits u
  | Decimal.D4 u => 52%N :: uint_digits u
  | Decimal.D5 u => 53%N :: uint_digits u
  | Decimal.D6 u => 54%N :: uint_digits u
  | Decimal.D7 u => 55%N :: uint_digits u
  | Decimal.D8 u => 56%N :: uint_digits u
  | Decimal.D9 u => 57%N :: uint_digits u
  end.

Definition decimal (z : Z) : str :=
  match Z.to_int z with
  | Decimal.Pos u => uint_digits u
  | Decimal.Neg u => 45%N :: uint_digits u
  end.

(** [s.encode()] for a string of ASCII characters, the only ones the
    writer produces. *)
Definition encode_ascii (s : str) : bytes := List.map (fun c => byte_of_Z (Z.of_N c)) s.

(** A reading of [int(token)] for tokens of ASCII digits with an optional
    sign: the instance of the runtime's [int] used where a concrete one is
    needed. *)
Fixpoint digits_value (acc : Z) (s : str) : option Z :=
  match s with
  | [] => Some acc
  | c :: s' =>
      let d := Z.of_N c - 48 in
      if (0 <=? d) && (d <=? 9) then digits_value (acc * 10 + d) s' else None
  end.

Definition ascii_int (s : str) : option Z :=
  match s with
  | [] => None
  | c :: s' =>
      if (c =? 45)%N then
        match s' with [] => None | _ => option_map Z.opp (digits_value 0 s') end
      else if (c =? 43)%N then
        match s' with [] => None | _ => digits_value 0 s' end
      else digits_value 0 s
  end.

(* ================================================================= *)
(** * Floats and the [struct] module *)

(** A Python [float] is an IEEE 754 binary64 value, kept in the canonical
    form of [SpecFloat] (precision 53, [emax] 1024). A NaN carries neither
    sign nor payload here: the model has one NaN where the machine has
    many, and a NaN of a file keeps its sign and its payload on the way
    through [struct.unpack] and [struct.pack]. What is stated of octets
    is therefore stated for coordinates that are no NaN, or leaves open
    which NaN is written. *)
Definition float := spec_float.

Definition float_of_Z (z : Z) : float := binary_normalize 53 1024 z 0 false.

(** The literal [0.5] of the default gray. *)
Definition half : float := binary_normalize 53 1024 1 (-1) false.

(** [a / b] on two [int]s: the quotient rounded once to the nearest
    double. *)
Definition int_truediv (a b : Z) : result float :=
  if b =? 0 then Raise ZeroDivisionError
  else
    let s := xorb (a <? 0) (b <? 0) in
    match a with
    | 0 => Ok (S754_zero s)
    | _ =>
        match SFdiv 53 1024 (S754_finite (a <? 0) (Z.to_pos (Z.abs a)) 0)
                            (S754_finite (b <? 0) (Z.to_pos (Z.abs b)) 0) with
        | S754_infinity _ => Raise OverflowError
        | q => Ok q
        end
    end.

(** [x * n] for a float [x] and a small [int] [n]. *)
Definition float_mul_int (x : float) (n : Z) : float := SFmul 53 1024 x (float_of_Z n).

(** [int(x)]: truncation toward zero. *)
Definition int_of_float (x : float) : result Z :=
  match x with
  | S754_nan => Raise ValueError
  | S754_infinity _ => Raise OverflowError
  | S754_zero _ => Ok 0
  | S754_finite s m e => Ok (cond_Zopp s (Z.shiftl (Zpos m) e))
  end.

(** The rational a finite float stands for; used to state tolerances. *)
Definition Q_of_float (x : float) : Q :=
  match x with
  | S754_finite s m e => inject_Z (cond_Zopp s (Zpos m)) * Qpower 2 e
  | _ => 0%Q
  end.

(** The binary32 value with bit pattern [w], widened to a double; every
    pattern of a NaN gives the one NaN of the model. *)
Definition float_of_bits32 (w : Z) : float :=
  let s := Z.testbit w 31 in
  let e := Z.land (Z.shiftr w 23) 255 in
  let m := Z.land w 8388607 in
  if e =? 255 then (if m =? 0 then S754_infinity s else S754_nan)
  else if e =? 0 then binary_normalize 53 1024 (cond_Zopp s m) (-149) s
  else binary_normalize 53 1024 (cond_Zopp s (m + 8388608)) (e - 150) s.

Definition sign_bit (s : bool) : Z := if s then 2147483648 else 0.

(** The bit pattern of [(float)x] in C: round to nearest even into
    binary32; a finite double past the largest binary32 value is refused
    with [OverflowError], as [struct.pack] does for the format [f]. For
    the NaN of the model the pattern is that of the positive quiet NaN
    without payload; the machine writes the sign and the payload of the
    NaN at hand. *)
Definition bits32_of_float (x : float) : result Z :=
  match x with
  | S754_nan => Ok 2143289344
  | S754_infinity s => Ok (sign_bit s + 2139095040)
  | S754_zero s => Ok (sign_bit s)
  | S754_finite s m e =>
      match binary_round 24 128 s m e with
      | S754_finite _ m' e' =>
          if Zpos (digits2_pos m') =? 24
          then Ok (sign_bit s + (e' + 150) * 8388608 + (Zpos m' - 8388608))
          else Ok (sign_bit s + Zpos m')
      | S754_zero _ => Ok (sign_bit s)
      | S754_infinity _ => Raise OverflowError
      | S754_nan => Ok 2143289344
      end
  end.

Inductive byteorder : Type := LittleEndian | BigEndian.

(** The [n] low octets of [w], least significant first. *)
Fixpoint le_bytes (n : nat) (w : Z) : bytes :=
  match n with
  | O => []
  | S n' => byte_of_Z w :: le_bytes n' (w / 256)
  end.

Fixpoint le_value (bs : bytes) : Z :=
  match bs with
  | [] => 0
  | b :: bs' => Z_of_byte b + 256 * le_value bs'
  end.

(** [struct.pack('<f', x)]. *)
Definition pack_f (x : float) : result bytes :=
  w <- bits32_of_float x ;; Ok (le_bytes 4 w).

(** [struct.unpack] of one [f] in the given byte order. *)
Definition unpack_f (order : byteorder) (bs : bytes) : float :=
  float_of_bits32 (le_value (match order with LittleEndian => bs | BigEndian => rev bs end)).

(** A point or a color: a row [[a, b, c]] of three floats. *)
Definition triple : Type := float * float * float.

(** [struct.pack('<fff', a, b, c)]. *)
Definition pack_fff (p : triple) : result bytes :=
  let '(a, b, c) := p in
  ba <- pack_f a ;; bb <- pack_f b ;; bc <- pack_f c ;; Ok (ba ++ bb ++ bc).

(** [struct.unpack('fff', data)] in the byte order of the host; twelve
    octets are required. *)
Definition unpack_fff (order : byteorder) (data : bytes) : result triple :=
  if (length data =? 12)%nat
  then Ok (unpack_f order (firstn 4 data),
           unpack_f order (firstn 4 (skipn 4 data)),
           unpack_f order (firstn 4 (skipn 8 data)))
  else Raise StructError.

(** [struct.pack('<BBB', r, g, b)]: each value must fit an unsigned
    octet. *)
Definition pack_B (v : Z) : result byte :=
  if (0 <=? v) && (v <=? 255) then Ok (byte_of_Z v) else Raise StructError.

Definition pack_BBB (r g b : Z) : result bytes :=
  br <- pack_B r ;; bg <- pack_B g ;; bb <- pack_B b ;; Ok [br; bg; bb].

(** [struct.unpack('BBB', data)]. *)
Definition unpack_BBB (data : bytes) : result (Z * Z * Z) :=
  match data with
  | [r; g; b] => Ok (Z_of_byte r, Z_of_byte g, Z_of_byte b)
  | _ => Raise StructError
  end.

(** ** Instances of the interpreter's functions

    The program takes [int], [float] and the rounding of doubles from the
    interpreter. These instances serve where concrete ones are needed:
    [ascii_int] above for [int]; for [float] the reading of a token that
    is an integer literal, which is the nearest double; for the rounding,
    exact arithmetic. *)
Definition int_literal_float (t : str) : option float := option_map float_of_Z (ascii_int t).

Definition exact_arithmetic (q : Q) : Q := q.

(* ================================================================= *)
(** * The program *)

Section Simulator.

(** What the program takes from the interpreter and is not fixed by the
    code: the byte order of the host ([sys.byteorder], used by the format
    ['fff'] without a byte-order mark), the builtins [int] and [float] on a
    token ([None] when they raise [ValueError]), and the rounding of a
    real number to the nearest double, which every float operation of the
    progress computation applies. *)
Variable sys_byteorder : byteorder.
Variable py_int : str -> option Z.
Variable py_float : str -> option float.
Variable fl : Q -> Q.

Definition int (t : str) : result Z := or_raise ValueError (py_int t).
Definition to_float (t : str) : result float := or_raise ValueError (py_float t).

(** ** Header of a PLY file: the dictionary [info] *)

Record Info : Type := {
  num_points : Z;
  num_faces : Z;
  has_color : bool;
  format_type : str;
  properties : list (str * str)
}.

Definition info0 : Info :=
  {| num_points := 0; num_faces := 0; has_color := false;
     format_type := lit "unknown"; properties := [] |}.

Definition is_rgb (name : str) : bool :=
  str_eqb name (lit "red") || str_eqb name (lit "green") || str_eqb name (lit "blue").

(** One pass of the body of the header loop on the tokens of a line that
    is not [end_header]. *)
Definition header_line (info : Info) (parts : list str) : result Info :=
  match parts with
  | p0 :: p1 :: rest =>
      if str_eqb p0 (lit "format") then
        Ok {| num_points := num_points info; num_faces := num_faces info;
              has_color := has_color info; format_type := p1;
              properties := properties info |}
      else if str_eqb p0 (lit "element") then
        if str_eqb p1 (lit "vertex") then
          t <- index parts 2 ;; n <- int t ;;
          Ok {| num_points := n; num_faces := num_faces info;
                has_color := has_color info; format_type := format_type info;
                properties := properties info |}
        else if str_eqb p1 (lit "face") then
          t <- index parts 2 ;; n <- int t ;;
          Ok {| num_points := num_points info; num_faces := n;
                has_color := has_color info; format_type := format_type info;
                properties := properties info |}
        else Ok info
      else if str_eqb p0 (lit "property") then
        let prop_type := p1 in
        let prop_name := match rest with p2 :: _ => p2 | [] => [] end in
        Ok {| num_points := num_points info; num_faces := num_faces info;
              has_color := has_color info || is_rgb prop_name;
              format_type := format_type info;
              properties := properties info ++ [(prop_type, prop_name)] |}
      else Ok info
  | _ => Ok info
  end.

(** The loop [while True] over the header lines. It ends at the line
    [end_header]. Every pass on a file that is not exhausted consumes at
    least one octet; at the end of the file [readline] returns [b''] for
    ever and the loop spins: with [fuel] at least the length of the file
    the function is [Hang] exactly then ([parse_header_fuel]). *)
Fixpoint parse_header (fuel : nat) (info : Info) (f : bytes) : result (Info * bytes) :=
  match fuel with
  | O => Hang
  | S fuel' =>
      let (raw, f') := readline f in
      line <- decode raw ;;
      let line := strip line in
      if str_eqb line (lit "end_header") then Ok (info, f')
      else info' <- header_line info (split line) ;; parse_header fuel' info' f'
  end.

(** ** Body of a PLY file *)

(** The default gray [[0.5, 0.5, 0.5]]. *)
Definition gray : triple := (half, half, half).

(** [[r/255, g/255, b/255]]. *)
Definition normalized (r g b : Z) : result triple :=
  cr <- int_truediv r 255 ;; cg <- int_truediv g 255 ;; cb <- int_truediv b 255 ;;
  Ok (cr, cg, cb).

(** The color that the ASCII branch appends for a line with the tokens
    [values]. *)
Definition ascii_color (info : Info) (values : list str) : result triple :=
  if has_color info && (6 <=? length values)%nat then
    v3 <- index values 3 ;; r <- int v3 ;;
    v4 <- index values 4 ;; g <- int v4 ;;
    v5 <- index values 5 ;; b <- int v5 ;;
    normalized r g b
  else Ok gray.

(** The loop over [range(n)] of the ASCII branch; returns the lists
    [points] and [colors]. *)
Fixpoint read_ascii (n : nat) (info : Info) (f : bytes) : result (list triple * list triple) :=
  match n with
  | O => Ok ([], [])
  | S n' =>
      let (raw, f') := readline f in
      line <- decode raw ;;
      let values := split (strip line) in
      v0 <- index values 0 ;; x <- to_float v0 ;;
      v1 <- index values 1 ;; y <- to_float v1 ;;
      v2 <- index values 2 ;; z <- to_float v2 ;;
      color <- ascii_color info values ;;
      '(points, colors) <- read_ascii n' info f' ;;
      Ok ((x, y, z) :: points, color :: colors)
  end.

(** The color that the binary branch appends after a complete position,
    and the file after it: [f1] is the file behind the position. *)
Definition binary_color (info : Info) (f1 : bytes) : result (triple * bytes) :=
  if has_color info then
    let (color_data, f2) := read 3 f1 in
    if (length color_data =? 3)%nat then
      '(r, g, b) <- unpack_BBB color_data ;;
      color <- normalized r g b ;;
      Ok (color, f2)
    else Ok (gray, f2)
  else Ok (gray, f1).

(** The loop over [range(n)] of the binary branch. A position that is
    not complete appends nothing and the loop goes on with what is left
    of the file. *)
Fixpoint read_binary (n : nat) (info : Info) (f : bytes) : result (list triple * list triple) :=
  match n with
  | O => Ok ([], [])
  | S n' =>
      let (data, f1) := read 12 f in
      if (length data =? 12)%nat then
        point <- unpack_fff sys_byteorder data ;;
        '(color, f2) <- binary_color info f1 ;;
        '(points, colors) <- read_binary n' info f2 ;;
        Ok (point :: points, color :: colors)
      else read_binary n' info f1
  end.

(** The first part of the [try] block of [load_ply_file]: the check of
    the magic line and the header loop. Returns [info] and the file
    behind the header. *)
Definition read_header (content : bytes) : result (Info * bytes) :=
  let (raw, f) := readline content in
  line <- decode raw ;;
  if negb (str_eqb (strip line) (lit "ply")) then Raise ValueError_not_ply
  else parse_header (length f) info0 f.

(** The body of the [try] block of [load_ply_file] up to the assignments
    to [self], on the content of the file. [limit] gives the number of
    points to read from the declared count: the identity in
    [load_ply_file], [min(_, max_points)] in [load_ply_real]. *)
Definition parse_ply (limit : Z -> Z) (content : bytes) : result (list triple * list triple * Info) :=
  '(info, f) <- read_header content ;;
  let n := Z.to_nat (limit (num_points info)) in
  '(points, colors) <- (if str_eqb (format_type info) (lit "ascii")
                         then read_ascii n info f
                         else read_binary n info f) ;;
  Ok (points, colors, info).

(** ** [class ToFCameraSimulator] *)

Record Simulator : Type := {
  current_ply_file : option str;
  points : option (list triple);
  colors : option (list triple);
  info : option Info;
  is_connected : bool;
  streaming : bool
}.

(** [__init__]. *)
Definition init : Simulator :=
  {| current_ply_file := None; points := None; colors := None; info := None;
     is_connected := false; streaming := false |}.

(** The files of the data folder: the content of each file that exists. *)
Definition folder : Type := str -> option bytes.

(** [load_ply_file(filename)]: the returned boolean and the simulator
    after the call. *)
Definition load_ply_file (fs : folder) (filename : str) (self : Simulator)
  : result (bool * Simulator) :=
  match fs filename with
  | None => Ok (false, self)
  | Some content =>
      match parse_ply (fun n => n) content with
      | Ok (pts, cols, inf) =>
          Ok (true,
              {| current_ply_file := Some filename; points := Some pts;
                 colors := Some cols; info := Some inf;
                 is_connected := is_connected self; streaming := streaming self |})
      | Raise _ => Ok (false, self)
      | Hang => Hang
      end
  end.

(** [RealPLYLoader.load_ply_real(file_path, max_points)] of
    [unified_gui.py]: [None] stands for [(None, None, None)]. *)
Definition load_ply_real (fs : folder) (file_path : str) (max_points : Z)
  : result (option (list triple * list triple * Info)) :=
  match fs file_path with
  | None => Ok None
  | Some content =>
      match parse_ply (fun n => Z.min n max_points) content with
      | Ok r => Ok (Some r)
      | Raise _ => Ok None
      | Hang => Hang
      end
  end.

(** [connect_hardware()]. *)
Definition connect_hardware (self : Simulator) : bool * Simulator :=
  match current_ply_file self with
  | None => (false, self)
  | Some _ =>
      (true,
       {| current_ply_file := current_ply_file self; points := points self;
          colors := colors self; info := info self;
          is_connected := true; streaming := streaming self |})
  end.

(** [disconnect_hardware()]. *)
Definition disconnect_hardware (self : Simulator) : Simulator :=
  {| current_ply_file := current_ply_file self; points := points self;
     colors := colors self; info := info self;
     is_connected := false; streaming := false |}.

(** [stop_data_stream()]. *)
Definition stop_data_stream (self : Simulator) : Simulator :=
  {| current_ply_file := current_ply_file self; points := points self;
     colors := colors self; info := info self;
     is_connected := is_connected self; streaming := false |}.

(** ** [points_to_bytes] *)

(** [int(c * 255)] for each component of a color, then
    [struct.pack('<BBB', r, g, b)]. *)
Definition color_bytes (c : triple) : result bytes :=
  let '(c0, c1, c2) := c in
  r <- int_of_float (float_mul_int c0 255) ;;
  g <- int_of_float (float_mul_int c1 255) ;;
  b <- int_of_float (float_mul_int c2 255) ;;
  pack_BBB r g b.

(** The loop [for i, point in enumerate(points)], from index [i] on. *)
Fixpoint points_to_bytes_from (i : nat) (pts : list triple) (cols : option (list triple))
  : result bytes :=
  match pts with
  | [] => Ok []
  | point :: rest =>
      pos <- pack_fff point ;;
      col <- match cols with
             | Some cs =>
                 match nth_error cs i with
                 | Some c => color_bytes c
                 | None => pack_BBB 128 128 128
                 end
             | None => pack_BBB 128 128 128
             end ;;
      more <- points_to_bytes_from (S i) rest cols ;;
      Ok (pos ++ col ++ more)
  end.

Definition points_to_bytes (pts : list triple) (cols : option (list triple)) : result bytes :=
  points_to_bytes_from 0 pts cols.

(** ** The generator [start_data_stream] *)

(** The dictionary that the generator yields. [progress] is kept as the
    rational that the double stands for. *)
Record Packet : Type := {
  packet_id : Z;
  packet_points : list triple;
  packet_colors : option (list triple);
  raw_bytes : bytes;
  progress : Q;
  description : str
}.

(** [(end_idx / total_points) * 100]: a division and a multiplication of
    doubles, each rounded. *)
Definition progress_of (end_idx total_points : Z) : Q :=
  fl (fl (inject_Z end_idx / inject_Z total_points) * 100).

(** The generator object. [GenCreated] is the generator before its first
    [next]: no line of the body has run yet. [GenSuspended] is the
    generator stopped at its [yield], with the locals of its frame: the
    index [i] of the pass of the loop, [total_points], [packets_sent] and
    the two arguments. *)
Inductive generator : Type :=
| GenCreated (points_per_packet delay_ms : Z)
| GenSuspended (i total_points packets_sent points_per_packet delay_ms : Z)
| GenFinished.

(** What one [next] gives: a packet, the end of the iteration with the
    value of the [return] ([Some false] for [return False], [None] when
    the body runs to its end), or an exception. *)
Inductive gen_event : Type :=
| Yield (p : Packet)
| Return (v : option bool)
| Throw (e : exn).

(** [time.sleep(delay_ms / 1000.0)] for an [int] [delay_ms]: the
    exception it raises, or [None] when it sleeps and returns. The
    division raises [OverflowError] for an [int] beyond the doubles.
    [time.sleep] turns the seconds into a whole number of nanoseconds of
    64 bits, and raises [OverflowError] when they do not fit, before it
    looks at the sign; a negative length that fits is refused with
    [ValueError]. [sleep_limit] is the largest number of milliseconds
    whose nanoseconds fit:
    [9223372036854 * 10^6 < 2^63 < 9223372036855 * 10^6], and the two
    roundings of the doubles move the product by a few thousand
    nanoseconds only, far less than its distance to [2^63]. *)
Definition sleep_limit : Z := 9223372036854.

Definition sleep_ms (delay_ms : Z) : option exn :=
  if (delay_ms <? - sleep_limit) || (sleep_limit <? delay_ms) then Some OverflowError
  else if delay_ms <? 0 then Some ValueError
  else None.

(** Whether [range(0, stop, step)] still holds the index [i]. *)
Definition in_range_loop (i stop step : Z) : bool :=
  if 0 <? step then i <? stop else stop <? i.

(** One pass of the [for] loop at index [i], up to its [yield]. *)
Definition loop_pass (self : Simulator) (i total_points packets_sent points_per_packet delay_ms : Z)
  : gen_event * Simulator * generator :=
  if in_range_loop i total_points points_per_packet then
    if negb (streaming self) then (Return None, self, GenFinished)
    else
      let end_idx := Z.min (i + points_per_packet) total_points in
      match points self with
      | None => (Throw TypeError, self, GenFinished)
      | Some pts =>
          let packet_points := slice pts i end_idx in
          let packet_colors :=
            match colors self with
            | Some cs => Some (slice cs i end_idx)
            | None => None
            end in
          let packets_sent := packets_sent + 1 in
          match points_to_bytes packet_points packet_colors with
          | Ok packet_data =>
              (Yield {| packet_id := packets_sent;
                        packet_points := packet_points;
                        packet_colors := packet_colors;
                        raw_bytes := packet_data;
                        progress := progress_of end_idx total_points;
                        description :=
                          lit "Hardware Packet #" ++ decimal packets_sent ++ lit ": "
                          ++ decimal (Z.of_nat (length packet_points)) ++ lit " points" |},
               self,
               GenSuspended i total_points packets_sent points_per_packet delay_ms)
          | Raise e => (Throw e, self, GenFinished)
          | Hang => (Return None, self, GenFinished) (* never: [points_to_bytes_total] *)
          end
      end
  else (Return None, self, GenFinished).

(** [next(g)] on the generator [g] of the simulator [self]: the event,
    the simulator and the generator afterwards. The first call runs the
    body from its start; the [print] of [total_points // points_per_packet]
    raises [ZeroDivisionError] for a packet size of 0, before the loop.
    Resuming at the [yield] first runs [time.sleep(delay_ms / 1000.0)],
    which raises for the delays that [sleep_ms] names. *)
Definition gen_next (self : Simulator) (g : generator) : gen_event * Simulator * generator :=
  match g with
  | GenCreated points_per_packet delay_ms =>
      if negb (is_connected self) then (Return (Some false), self, GenFinished)
      else
        match points self with
        | None => (Return (Some false), self, GenFinished)
        | Some pts =>
            let self' :=
              {| current_ply_file := current_ply_file self; points := points self;
                 colors := colors self; info := info self;
                 is_connected := is_connected self; streaming := true |} in
            let total_points := Z.of_nat (length pts) in
            if points_per_packet =? 0 then (Throw ZeroDivisionError, self', GenFinished)
            else loop_pass self' 0 total_points 0 points_per_packet delay_ms
        end
  | GenSuspended i total_points packets_sent points_per_packet delay_ms =>
      match sleep_ms delay_ms with
      | Some e => (Throw e, self, GenFinished)
      | None => loop_pass self (i + points_per_packet) total_points packets_sent
                          points_per_packet delay_ms
      end
  | GenFinished => (Return None, self, GenFinished)
  end.

(** How an iteration ended. *)
Inductive gen_end : Type :=
| Returned (v : option bool)
| Thrown (e : exn).

(** [for packet in g: ...] with a body that does not touch the simulator:
    [next] is called until the generator ends. [None] when [fuel] calls
    were not enough. *)
Fixpoint drain (fuel : nat) (self : Simulator) (g : generator)
  : option (list Packet * gen_end * Simulator) :=
  match fuel with
  | O => None
  | S fuel' =>
      match gen_next self g with
      | (Yield p, self', g') =>
          match drain fuel' self' g' with
          | Some (ps, e, self'') => Some (p :: ps, e, self'')
          | None => None
          end
      | (Return v, self', _) => Some ([], Returned v, self')
      | (Throw e, self', _) => Some ([], Thrown e, self')
      end
  end.

(** The packets that one generator gives over its life, whatever happens
    to the simulator between two calls of [next] (other methods may run
    there): each call starts from some simulator [self]. *)
Inductive emits : generator -> list Packet -> Prop :=
| emits_nil : forall g, emits g []
| emits_cons : forall g self p self' g' ps,
    gen_next self g = (Yield p, self', g') ->
    emits g' ps ->
    emits g (p :: ps).

(** ** [HardwareStreamThread.run] of [hardware_gui.py] *)

(** The status texts of the thread: ["Error: Hardware not connected"],
    ["Starting hardware data stream..."], ["Streaming: Packet {id},
    {n} points, {m} bytes"], ["Stream error: {e}"] and ["Hardware stream
    complete"]. *)
Inductive status : Type :=
| StatusNotConnected
| StatusStarting
| StatusStreaming (id points_count bytes_count : Z)
| StatusStreamError (e : exn)
| StatusComplete.

(** The Qt signals that the thread emits. *)
Inductive signal : Type :=
| status_update (s : status)
| data_received (p : Packet)
| progress_update (n : Z)
| point_received (pts : list triple) (cols : option (list triple)).

(** The body of the [for] loop of [run] for one packet. *)
Definition packet_signals (p : Packet) : list signal :=
  [ data_received p;
    progress_update (Qfloor (progress p));
    point_received (packet_points p) (packet_colors p);
    status_update (StatusStreaming (packet_id p)
                                   (Z.of_nat (length (packet_points p)))
                                   (Z.of_nat (length (raw_bytes p)))) ].

(** [run()] when no [stop()] arrives while it runs: the signals in the
    order of emission and the simulator afterwards. *)
Definition thread_run (fuel : nat) (self : Simulator) (points_per_packet delay_ms : Z)
  : option (list signal * Simulator) :=
  if negb (is_connected self) then Some ([status_update StatusNotConnected], self)
  else
    match drain fuel self (GenCreated points_per_packet delay_ms) with
    | Some (ps, e, self') =>
        Some (status_update StatusStarting
              :: flat_map packet_signals ps
              ++ match e with
                 | Thrown x => [status_update (StatusStreamError x)]
                 | Returned _ => []
                 end
              ++ [status_update StatusComplete],
              self')
    | None => None
    end.

(** ** The writer of [create_test_ply.py] *)

(** One vertex of the arrays [x], [y], [z] (doubles) and [r], [g], [b]
    ([uint8]) that [create_test_ply] draws at random. *)
Record vertex : Type := {
  vx : float; vy : float; vz : float;
  vr : byte; vg : byte; vb : byte
}.

Definition position (v : vertex) : triple := (vx v, vy v, vz v).

(** The header that the writer emits for [num_points] vertices. *)
Definition ply_header (num_points : Z) : bytes :=
  blit "ply" ++ [NL]
  ++ blit "format binary_little_endian 1.0" ++ [NL]
  ++ encode_ascii (lit "element vertex " ++ decimal num_points) ++ [NL]
  ++ blit "property float x" ++ [NL]
  ++ blit "property float y" ++ [NL]
  ++ blit "property float z" ++ [NL]
  ++ blit "property uchar red" ++ [NL]
  ++ blit "property uchar green" ++ [NL]
  ++ blit "property uchar blue" ++ [NL]
  ++ blit "end_header" ++ [NL].

(** The loop that writes the point records. *)
Fixpoint write_points (vs : list vertex) : result bytes :=
  match vs with
  | [] => Ok []
  | v :: vs' =>
      pos <- pack_fff (position v) ;;
      col <- pack_BBB (Z_of_byte (vr v)) (Z_of_byte (vg v)) (Z_of_byte (vb v)) ;;
      more <- write_points vs' ;;
      Ok (pos ++ col ++ more)
  end.

(** The content of the file that [create_test_ply] writes for the given
    vertices. *)
Definition create_test_ply (vs : list vertex) : result bytes :=
  body <- write_points vs ;;
  Ok (ply_header (Z.of_nat (length vs)) ++ body).


(** ** [class HardwareDataManager] *)

(** The manager of [hardware_simulator.py] holds one simulator and
    forwards [load_file], [connect_hardware], [disconnect_hardware],
    [start_streaming] and [stop_streaming] to it unchanged. The
    dictionary of [get_current_file_info], with the keys ['filename'],
    ['points'], ['has_colors'] and ['format']: *)
Record FileInfo : Type := {
  info_filename : str;
  info_points : Z;
  info_has_colors : bool;
  info_format : str
}.

(** [get_current_file_info()]. The condition [if
    self.simulator.current_ply_file] is false for [None] and for the
    empty string. *)
Definition get_current_file_info (simulator : Simulator) : option FileInfo :=
  match current_ply_file simulator with
  | Some (c :: name) =>
      Some {| info_filename := c :: name;
              info_points :=
                match points simulator with
                | Some pts => Z.of_nat (length pts)
                | None => 0
                end;
              info_has_colors :=
                match info simulator with
                | Some inf => has_color inf
                | None => false
                end;
              info_format :=
                match info simulator with
                | Some inf => format_type inf
                | None => lit "unknown"
                end |}
  | _ => None
  end.

(** ** [HardwareControlPanel.connect_hardware] of [hardware_gui.py] *)

(** What the panel shows at the end of [connect_hardware]: the warning
    ["Please select a PLY file first"], the warning ["Failed to load
    file"], the warning ["Failed to connect to hardware"], or the status
    ["Connected to hardware"] with the message box of the file
    information, which is shown when [get_current_file_info] gives
    one. *)
Inductive connect_report : Type :=
| NoFileSelected
| LoadFailed (filename : str)
| ConnectionFailed
| Connected (filename : str) (shown : option FileInfo).

(** [current_text] is the text of the file box. *)
Definition panel_connect_hardware (fs : folder) (current_text : str) (simulator : Simulator)
  : result (connect_report * Simulator) :=
  match current_text with
  | [] => Ok (NoFileSelected, simulator)
  | _ :: _ =>
      let filename := current_text in
      '(loaded, simulator) <- load_ply_file fs filename simulator ;;
      if loaded then
        let (connected, simulator) := connect_hardware simulator in
        if connected
        then Ok (Connected filename (get_current_file_info simulator), simulator)
        else Ok (ConnectionFailed, simulator)
      else Ok (LoadFailed filename, simulator)
  end.

(** ** [class RealTime3DViewer] of [hardware_gui.py] *)

(** The state of the viewer that its methods compute with; the drawing
    itself is left out. *)
Record Viewer : Type := {
  all_points : list triple;
  all_colors : list triple;
  max_points_display : Z
}.

(** [__init__]. *)
Definition viewer_init : Viewer :=
  {| all_points := []; all_colors := []; max_points_display := 10000 |}.

(** [l[-n:]]: the last [n] items for [n > 0], the whole list for [n = 0]
    (the bound [-0] is [0]), and [l[k:]] for [n = -k < 0]. *)
Definition last_items {A : Type} (n : Z) (l : list A) : list A :=
  if 0 <? n then skipn (length l - Z.to_nat n) l
  else skipn (Z.to_nat (- n)) l.

(** [add_points(points, colors)]. *)
Definition add_points (self : Viewer) (points : option (list triple))
                      (colors : option (list triple)) : Viewer :=
  match points with
  | None => self
  | Some [] => self
  | Some pts =>
      let all_points' := all_points self ++ pts in
      let all_colors' :=
        all_colors self ++ match colors with
                           | Some cs => cs
                           | None => repeat gray (length pts)
                           end in
      if max_points_display self <? Z.of_nat (length all_points') then
        {| all_points := last_items (max_points_display self) all_points';
           all_colors := last_items (max_points_display self) all_colors';
           max_points_display := max_points_display self |}
      else
        {| all_points := all_points'; all_colors := all_colors';
           max_points_display := max_points_display self |}
  end.

(** [update_point_limit(limit)]. *)
Definition update_point_limit (self : Viewer) (limit : Z) : Viewer :=
  if limit <? Z.of_nat (length (all_points self)) then
    {| all_points := last_items limit (all_points self);
       all_colors := last_items limit (all_colors self);
       max_points_display := limit |}
  else
    {| all_points := all_points self; all_colors := all_colors self;
       max_points_display := limit |}.

(** [HardwareMainWindow.start_hardware_stream] connects the signal
    [point_received] of the thread to [add_points] of the viewer: the
    viewer after the signals of a run, delivered in the order of
    emission. *)
Definition viewer_slot (v : Viewer) (s : signal) : Viewer :=
  match s with
  | point_received pts cols => add_points v (Some pts) cols
  | _ => v
  end.

Definition deliver (v : Viewer) (signals : list signal) : Viewer :=
  fold_left viewer_slot signals v.

(** ** [RealDataStreamThread.run] of [unified_gui.py] *)

(** [int(x)] for the double that the rational [x] stands for: truncation
    toward zero. *)
Definition Qtrunc (x : Q) : Z := Z.quot (Qnum x) (Zpos (Qden x)).

Section FileStream.

(** What the runtime raises when it is asked for a [bytes] object of [n]
    octets, for [n > 0], if anything: [MemoryError] on most machines for
    a size that they cannot give. *)
Variable bytes_refused : Z -> option exn.

(** The bounds of the C type [Py_ssize_t], of 64 bits. *)
Definition ssize_min : Z := - 9223372036854775808.
Definition ssize_max : Z := 9223372036854775807.

(** [f.read(size)] on a file opened in binary mode, for any integer
    [size]: the chunk and the file behind it, or the exception. The size
    is first converted to a [Py_ssize_t], with [OverflowError] when it
    does not fit; a size below [-1] is then refused with [ValueError];
    [-1] gives everything that is left, and [0] the empty chunk. For any
    other size the runtime asks for a [bytes] object of [size] octets,
    however short the file is. *)
Definition read_size (size : Z) (f : bytes) : exn + bytes * bytes :=
  if (size <? ssize_min) || (ssize_max <? size) then inl OverflowError
  else if size <? -1 then inl ValueError
  else if size =? -1 then inr (f, [])
  else if size =? 0 then inr ([], f)
  else
    match bytes_refused size with
    | Some e => inl e
    | None => inr (read (Z.to_nat size) f)
    end.

(** The text ["Packet #{packet_count}: {len(chunk)} bytes from
    {basename}"] of one chunk, as the values it is made of; [chunk_file]
    is the path, of which the text shows the base name. *)
Record chunk_description : Type := {
  chunk_number : Z;
  chunk_bytes : Z;
  chunk_file : str
}.

(** The status texts of the thread: ["Error: File not found"],
    ["Streaming: {bytes_read}/{file_size} bytes ({progress}%)"],
    ["Streaming complete"] and ["Error: {e}"]. *)
Inductive file_status : Type :=
| FileNotFound
| FileStreaming (bytes_read file_size progress : Z)
| FileComplete
| FileError (e : exn).

(** The Qt signals of the thread. *)
Inductive file_signal : Type :=
| file_data_received (chunk : bytes) (description : chunk_description)
| file_progress_update (n : Z)
| file_status_update (s : file_status).

(** The loop [while self.running and bytes_read < file_size] when no
    [stop()] arrives: the signals in the order of emission, and the
    exception that ended the loop, if any. [None] when [fuel] passes
    were not enough. *)
Fixpoint stream_loop (fuel : nat) (chunk_size file_size : Z) (file_path : str) (f : bytes)
                     (bytes_read packet_count : Z)
  : option (list file_signal * option exn) :=
  match fuel with
  | O => None
  | S fuel' =>
      if bytes_read <? file_size then
        match read_size chunk_size f with
        | inl e => Some ([], Some e)
        | inr ([], _) => Some ([], None)
        | inr (chunk, f') =>
            let bytes_read := bytes_read + Z.of_nat (length chunk) in
            let packet_count := packet_count + 1 in
            let progress := Qtrunc (progress_of bytes_read file_size) in
            match stream_loop fuel' chunk_size file_size file_path f' bytes_read packet_count with
            | Some (more, e) =>
                Some (file_data_received chunk
                        {| chunk_number := packet_count;
                           chunk_bytes := Z.of_nat (length chunk);
                           chunk_file := file_path |}
                      :: file_progress_update progress
                      :: file_status_update (FileStreaming bytes_read file_size progress)
                      :: more, e)
            | None => None
            end
        end
      else Some ([], None)
  end.

(** [run()] on the files [fs], for the attributes [file_path] and
    [chunk_size] of the thread. One pass more than the file has octets
    is enough for the loop, whatever the chunk size. *)
Definition file_thread_run (fs : folder) (file_path : option str) (chunk_size : Z)
  : option (list file_signal) :=
  match file_path with
  | None => Some [file_status_update FileNotFound]
  | Some [] => Some [file_status_update FileNotFound]
  | Some path =>
      match fs path with
      | None => Some [file_status_update FileNotFound]
      | Some content =>
          let file_size := Z.of_nat (length content) in
          match stream_loop (S (length content)) chunk_size file_size path content 0 0 with
          | Some (signals, None) => Some (signals ++ [file_status_update FileComplete])
          | Some (signals, Some e) => Some (signals ++ [file_status_update (FileError e)])
          | None => None
          end
      end
  end.

End FileStream.

(** ** [Real3DViewer.load_ply_file] of [unified_gui.py] *)

(** What the viewer of the unified window does with a file: it draws the
    points, with the colors of the file or, when these are not parallel
    to the points, with a gradient over the height; or it warns
    ["Failed to load PLY file or no points found"]. *)
Inductive display : Type :=
| DisplayPoints (pts : list triple) (file_colors : option (list triple)) (inf : Info)
| DisplayWarning.

(** [display_points]: the choice of the colors. *)
Definition display_points (pts cols : list triple) (inf : Info) : display :=
  DisplayPoints pts
                (if (length cols =? length pts)%nat then Some cols else None)
                inf.

(** [load_ply_file(file_path)] of the viewer: the loader is called with
    its default [max_points]. *)
Definition viewer_load_ply_file (fs : folder) (file_path : str) : result display :=
  loaded <- load_ply_real fs file_path 50000 ;;
  match loaded with
  | Some (c :: pts, cols, inf) => Ok (display_points (c :: pts) cols inf)
  | _ => Ok DisplayWarning
  end.

(* ================================================================= *)
(** * Vocabulary of the statements *)

(** A load attempt fails when the file is missing or when parsing it
    raises: the bad magic line or any other exception. *)
Definition load_fails (fs : folder) (filename : str) : Prop :=
  fs filename = None
  \/ exists content e, fs filename = Some content /\ parse_ply (fun n => n) content = Raise e.

(** The first line as the reader checks it: decoded and stripped. *)
Definition magic_line (content : bytes) : option str :=
  option_map strip (utf8_decode (fst (readline content))).

(** The lines of a file, each with its newline. *)
Fixpoint lines_of (fuel : nat) (f : bytes) : list bytes :=
  match fuel with
  | O => []
  | S fuel' =>
      match f with
      | [] => []
      | _ :: _ => let (l, r) := readline f in l :: lines_of fuel' r
      end
  end.

Definition lines (f : bytes) : list bytes := lines_of (length f) f.

(** The file [content] was loaded as the points [pts], the colors [cols]
    and the header information [inf]: by [load_ply_file] into the fields
    of the simulator, or by [load_ply_real] as its result. *)
Definition loaded_as (content : bytes) (pts cols : list triple) (inf : Info) : Prop :=
  (exists fs filename self self',
      fs filename = Some content
      /\ load_ply_file fs filename self = Ok (true, self')
      /\ points self' = Some pts /\ colors self' = Some cols /\ info self' = Some inf)
  \/ (exists fs file_path max_points,
         fs file_path = Some content
         /\ load_ply_real fs file_path max_points = Ok (Some (pts, cols, inf))).

(** The color supplied for the point of index [j], if any. *)
Definition supplied (cols : option (list triple)) (j : nat) : option triple :=
  match cols with
  | Some cs => nth_error cs j
  | None => None
  end.

(** A 32-bit pattern that is a NaN. *)
Definition nan_bits (w : Z) : bool :=
  (Z.land (Z.shiftr w 23) 255 =? 255) && negb (Z.land w 8388607 =? 0).

(** The 32-bit word [w] is the binary32 value of the coordinate [x]: the
    pattern of [x] rounded to binary32 or, when [x] is a NaN, the pattern
    of a NaN. Which NaN is left open: the machine keeps the sign and the
    payload that the NaN of the double carries, and the floats of this
    model carry none. *)
Definition wire_float (x : float) (w : Z) : Prop :=
  match x with
  | S754_nan => 0 <= w < 4294967296 /\ nan_bits w = true
  | _ => bits32_of_float x = Ok w
  end.

(** The record of one point on the wire: three binary32 values, least
    significant octet first, then three unsigned octets, which are
    [int(c * 255)] for each component of the supplied color and 128 when
    no color is supplied. *)
Definition wire_record (point : triple) (color : option triple) (rec : bytes) : Prop :=
  let '(x, y, z) := point in
  exists wx wy wz r g b,
    wire_float x wx /\ wire_float y wy /\ wire_float z wz
    /\ 0 <= r <= 255 /\ 0 <= g <= 255 /\ 0 <= b <= 255
    /\ rec = le_bytes 4 wx ++ le_bytes 4 wy ++ le_bytes 4 wz
             ++ [byte_of_Z r; byte_of_Z g; byte_of_Z b]
    /\ match color with
       | Some (c0, c1, c2) =>
           int_of_float (float_mul_int c0 255) = Ok r
           /\ int_of_float (float_mul_int c1 255) = Ok g
           /\ int_of_float (float_mul_int c2 255) = Ok b
       | None => r = 128 /\ g = 128 /\ b = 128
       end.

(** The octets for one point and the color supplied for it. *)
Definition record_bytes (point : triple) (color : option triple) : result bytes :=
  pos <- pack_fff point ;;
  col <- match color with
         | Some c => color_bytes c
         | None => pack_BBB 128 128 128
         end ;;
  Ok (pos ++ col).

(** What is assumed of the rounding to the nearest double: it is
    monotone, and it leaves the doubles 1 and 100 as they are. *)
Record rounding : Prop := {
  fl_monotone : forall x y, (x <= y)%Q -> (fl x <= fl y)%Q;
  fl_one : (fl 1 == 1)%Q;
  fl_hundred : (fl 100 == 100)%Q
}.

(** Order of two successive packets by sequence id and by progress. *)
Definition id_lt (p q : Packet) : Prop := packet_id p < packet_id q.
Definition progress_le (p q : Packet) : Prop := (progress p <= progress q)%Q.

(** [ceil(n / p)] for [p > 0]. *)
Definition ceil_div (n p : Z) : Z := (n + p - 1) / p.

(** The simulator once the generator has run its first lines. *)
Definition started (self : Simulator) : Simulator :=
  {| current_ply_file := current_ply_file self; points := points self;
     colors := colors self; info := info self;
     is_connected := is_connected self; streaming := true |}.

(** The colors of a packet: the slice of the colors, when there are some. *)
Definition slice_colors (cols : option (list triple)) (i j : Z) : option (list triple) :=
  match cols with
  | Some cs => Some (slice cs i j)
  | None => None
  end.

(** The number of passes of the loop from index [j] on. *)
Definition passes (total P j : Z) : Z := if j <? total then ceil_div (total - j) P else 0.

(** The size in octets of one point record of a binary body. *)
Definition record_size (inf : Info) : nat := if has_color inf then 15%nat else 12%nat.

(** [v / 255] for the value [v] of an octet. *)
Definition byte_fraction (b : byte) : float :=
  match int_truediv (Z_of_byte b) 255 with
  | Ok q => q
  | _ => S754_nan
  end.

(** Characters of a line. *)
Definition not_nl (c : byte) : bool := negb (Byte.eqb c NL).
Definition is_digit (c : N) : bool := ((48 <=? c) && (c <=? 57))%N.
Definition not_space (c : N) : bool := negb (isspace c).

(** The dictionary [info] that the reader builds from the header that
    [create_test_ply] writes for [n] vertices. *)
Definition written_info (n : Z) : Info :=
  {| num_points := n; num_faces := 0; has_color := true;
     format_type := lit "binary_little_endian";
     properties := [ (lit "float", lit "x"); (lit "float", lit "y");
                     (lit "float", lit "z"); (lit "uchar", lit "red");
                     (lit "uchar", lit "green"); (lit "uchar", lit "blue") ] |}.

(** A 32-bit pattern. *)
Definition is_bits32 (w : Z) : Prop := 0 <= w < 4294967296.

(** A double that holds a binary32 value. *)
Definition is_f32 (x : float) : Prop := exists w, is_bits32 w /\ x = float_of_bits32 w.

(** [x] converted to a 32-bit float, as a double: what comes back from
    the file for a coordinate [x] that was packed with the format [f]. *)
Definition to_float32 (x : float) : float :=
  match pack_f x with
  | Ok bs => unpack_f LittleEndian bs
  | _ => x
  end.

(** Points and colors as a binary body gives them. *)
Definition f32_point (p : triple) : Prop :=
  let '(x, y, z) := p in is_f32 x /\ is_f32 y /\ is_f32 z.

Definition octet_color (c : triple) : Prop :=
  c = gray \/ exists r g b, c = (byte_fraction r, byte_fraction g, byte_fraction b).

(** The position that the reader gives for a written vertex. *)
Definition read_position (v : vertex) : triple :=
  (to_float32 (vx v), to_float32 (vy v), to_float32 (vz v)).

(** A double that is a 32-bit float: packing it with the format [f] and
    unpacking the four octets gives it back. *)
Definition f32_exact (x : float) : Prop :=
  exists bs, pack_f x = Ok bs /\ unpack_f LittleEndian bs = x.

Definition exact_position (v : vertex) : Prop :=
  f32_exact (vx v) /\ f32_exact (vy v) /\ f32_exact (vz v).

(** A color component read back is within 1/255 of the octet [b] that
    was written, on the scale from 0 to 1. *)
Definition within_quantum (b : byte) (c : float) : Prop :=
  (Qabs (Q_of_float c - (Z_of_byte b # 255)) <= 1 # 255)%Q.

Definition color_close (v : vertex) (c : triple) : Prop :=
  let '(c0, c1, c2) := c in
  within_quantum (vr v) c0 /\ within_quantum (vg v) c1 /\ within_quantum (vb v) c2.

(** The color that the reader gives for the octets of a vertex. *)
Definition read_color (v : vertex) : triple :=
  (byte_fraction (vr v), byte_fraction (vg v), byte_fraction (vb v)).

(** The first line of a file as text: the octets before the first
    newline. *)
Definition first_line (content : bytes) : bytes :=
  let raw := fst (readline content) in
  match rev raw with
  | c :: r => if Byte.eqb c NL then rev r else raw
  | [] => raw
  end.

(* ================================================================= *)
(** * Sample data *)

(** Three vertices with coordinates that are 32-bit floats. *)
Definition sample_vertices : list vertex :=
  [ {| vx := float_of_Z 1; vy := float_of_Z 2; vz := float_of_Z (-3);
       vr := x80; vg := xff; vb := x00 |};
    {| vx := float_of_bits32 1036831949; vy := float_of_Z 5; vz := float_of_Z 6;
       vr := x10; vg := x20; vb := x30 |};
    {| vx := float_of_Z 7; vy := float_of_bits32 3212836864; vz := float_of_Z 0;
       vr := x01; vg := x02; vb := xfe |} ].

Definition sample_points : list triple := map position sample_vertices.
Definition sample_colors : list triple := map read_color sample_vertices.

(** The file that the writer produces for them. *)
Definition sample_ply : bytes :=
  match create_test_ply sample_vertices with
  | Ok content => content
  | _ => []
  end.

(** The same file cut after its first record and five more octets. *)
Definition truncated_ply : bytes :=
  firstn (length (ply_header 3) + 15 + 5) sample_ply.

(** A file with Windows line ends: its first line is [b"ply\r"]. *)
Definition crlf_ply : bytes :=
  blit "ply" ++ [x0d; NL]
  ++ blit "format binary_little_endian 1.0" ++ [x0d; NL]
  ++ blit "element vertex 0" ++ [x0d; NL]
  ++ blit "end_header" ++ [x0d; NL].

(** A file that does not start with the magic line. *)
Definition bad_magic_ply : bytes :=
  blit "plx" ++ [NL] ++ blit "end_header" ++ [NL].

(** A file that declares no vertex. *)
Definition empty_ply : bytes :=
  blit "ply" ++ [NL]
  ++ blit "format binary_little_endian 1.0" ++ [NL]
  ++ blit "element vertex 0" ++ [NL]
  ++ blit "end_header" ++ [NL].

(** An ASCII file whose header declares colors and whose second line
    holds a position only. *)
Definition short_line_ply : bytes :=
  blit "ply" ++ [NL]
  ++ blit "format ascii 1.0" ++ [NL]
  ++ blit "element vertex 2" ++ [NL]
  ++ blit "property float x" ++ [NL]
  ++ blit "property float y" ++ [NL]
  ++ blit "property float z" ++ [NL]
  ++ blit "property uchar red" ++ [NL]
  ++ blit "property uchar green" ++ [NL]
  ++ blit "property uchar blue" ++ [NL]
  ++ blit "end_header" ++ [NL]
  ++ blit "1 2 3 255 0 0" ++ [NL]
  ++ blit "4 5 6" ++ [NL].

(** The same file cut inside the color octets of its second record. *)
Definition mid_color_ply : bytes :=
  firstn (length (ply_header 3) + 15 + 13) sample_ply.

(** The double nearest to 0.1, which is not a 32-bit float, a vertex
    with this abscissa and the file that the writer produces for it. *)
Definition tenth : float := S754_finite false 7205759403792794 (-56).

Definition tenth_vertex : vertex :=
  {| vx := tenth; vy := float_of_Z 0; vz := float_of_Z 0;
     vr := x00; vg := x00; vb := x00 |}.

Definition tenth_ply : bytes :=
  match create_test_ply [tenth_vertex] with
  | Ok content => content
  | _ => []
  end.

(** An ASCII file with coordinates declared as doubles, whose only
    vertex has the abscissa 1e39. *)
Definition double_ply : bytes :=
  blit "ply" ++ [NL]
  ++ blit "format ascii 1.0" ++ [NL]
  ++ blit "element vertex 1" ++ [NL]
  ++ blit "property double x" ++ [NL]
  ++ blit "property double y" ++ [NL]
  ++ blit "property double z" ++ [NL]
  ++ blit "end_header" ++ [NL]
  ++ blit "1000000000000000000000000000000000000000 0 0" ++ [NL].

Definition sample_folder : folder := fun name =>
  if str_eqb name (lit "scan.ply") then Some sample_ply
  else if str_eqb name (lit "cut.ply") then Some truncated_ply
  else if str_eqb name (lit "midcolor.ply") then Some mid_color_ply
  else if str_eqb name (lit "crlf.ply") then Some crlf_ply
  else if str_eqb name (lit "bad.ply") then Some bad_magic_ply
  else if str_eqb name (lit "empty.ply") then Some empty_ply
  else if str_eqb name (lit "tenth.ply") then Some tenth_ply
  else if str_eqb name (lit "double.ply") then Some double_ply
  else if str_eqb name (lit "shortline.ply") then Some short_line_ply
  else None.

(** A simulator with the sample file loaded, connected or not. *)
Definition sample_loaded : Simulator :=
  {| current_ply_file := Some (lit "scan.ply"); points := Some sample_points;
     colors := Some sample_colors; info := Some (written_info 3);
     is_connected := false; streaming := false |}.

Definition sample_connected : Simulator := snd (connect_hardware sample_loaded).

(** A connected simulator with the file of no vertex loaded. *)
Definition empty_connected : Simulator :=
  {| current_ply_file := Some (lit "empty.ply"); points := Some [];
     colors := Some [];
     info := Some {| num_points := 0; num_faces := 0; has_color := false;
                     format_type := lit "binary_little_endian"; properties := [] |};
     is_connected := true; streaming := false |}.


(* ================================================================= *)
(** * Vocabulary of the further statements *)

(** The simulators that a program can reach from a new one through the
    methods of the class: loading any file of any folder, connecting,
    disconnecting, stopping, and resuming any generator of
    [start_data_stream]. *)
Inductive reachable : Simulator -> Prop :=
| reach_init : reachable init
| reach_load : forall fs filename self ok self',
    reachable self ->
    load_ply_file fs filename self = Ok (ok, self') ->
    reachable self'
| reach_connect : forall self, reachable self -> reachable (snd (connect_hardware self))
| reach_disconnect : forall self, reachable self -> reachable (disconnect_hardware self)
| reach_stop : forall self, reachable self -> reachable (stop_data_stream self)
| reach_next : forall self g e self' g',
    reachable self ->
    gen_next self g = (e, self', g') ->
    reachable self'.

(** Nothing is loaded, or a file name, points, as many colors and the
    header are. *)
Definition loaded_or_empty (self : Simulator) : Prop :=
  (current_ply_file self = None /\ points self = None
   /\ colors self = None /\ info self = None)
  \/ (exists filename pts cols inf,
         current_ply_file self = Some filename /\ points self = Some pts
         /\ colors self = Some cols /\ info self = Some inf
         /\ length cols = length pts).

(** A header line on which the loop goes on: it decodes, it is not
    [end_header], and the body of the loop does not raise on it. *)
Definition header_goes_on (raw : bytes) : Prop :=
  exists line,
    decode raw = Ok line
    /\ str_eqb (strip line) (lit "end_header") = false
    /\ forall inf, exists inf', header_line inf (split (strip line)) = Ok inf'.

(** The line closes the header. *)
Definition is_end_header (raw : bytes) : Prop :=
  exists line, decode raw = Ok line /\ strip line = lit "end_header".

(** A point record of a binary body with colors, none of whose three
    position words is a NaN. *)
Definition plain_record (r : bytes) : Prop :=
  length r = 15%nat
  /\ nan_bits (le_value (firstn 4 r)) = false
  /\ nan_bits (le_value (firstn 4 (skipn 4 r))) = false
  /\ nan_bits (le_value (firstn 4 (skipn 8 r))) = false.

(** The octets of the color in the record of index [j] of a packet. *)
Definition wire_color (raw : bytes) (j : nat) : bytes :=
  firstn 3 (skipn (15 * j + 12) raw).

(** The chunks and the progress values among the signals of a file
    stream, in the order of emission. *)
Definition chunks_of (signals : list file_signal) : list bytes :=
  flat_map (fun s => match s with file_data_received c _ => [c] | _ => [] end) signals.

Definition progress_values (signals : list file_signal) : list Z :=
  flat_map (fun s => match s with file_progress_update n => [n] | _ => [] end) signals.


(** The exceptions of the [struct] module and of [int] on a float. *)
Definition struct_error (e : exn) : Prop :=
  e = OverflowError \/ e = ValueError \/ e = StructError.

(* ================================================================= *)
(** * Further sample data *)

(** A binary file of one vertex (1, 0, 0) whose header declares no
    color. *)
Definition colorless_ply : bytes :=
  blit "ply" ++ [NL]
  ++ blit "format binary_little_endian 1.0" ++ [NL]
  ++ blit "element vertex 1" ++ [NL]
  ++ blit "property float x" ++ [NL]
  ++ blit "property float y" ++ [NL]
  ++ blit "property float z" ++ [NL]
  ++ blit "end_header" ++ [NL]
  ++ le_bytes 4 1065353216 ++ le_bytes 4 0 ++ le_bytes 4 0.

(** A file cut inside its header. *)
Definition headless_ply : bytes :=
  blit "ply" ++ [NL] ++ blit "format ascii 1.0" ++ [NL].

(** An ASCII file that declares two vertices and holds one. *)
Definition short_ascii_ply : bytes :=
  blit "ply" ++ [NL]
  ++ blit "format ascii 1.0" ++ [NL]
  ++ blit "element vertex 2" ++ [NL]
  ++ blit "end_header" ++ [NL]
  ++ blit "1 2 3" ++ [NL].

Definition more_folder : folder := fun name =>
  if str_eqb name (lit "gray.ply") then Some colorless_ply
  else if str_eqb name (lit "headless.ply") then Some headless_ply
  else if str_eqb name (lit "short.ply") then Some short_ascii_ply
  else sample_folder name.

(** The simulator after loading the colorless file and connecting. *)
Definition colorless_connected : Simulator :=
  match load_ply_file more_folder (lit "gray.ply") init with
  | Ok (_, loaded) => snd (connect_hardware loaded)
  | _ => init
  end.

(** A machine that gives the memory for a chunk of up to 2^20 octets
    and raises [MemoryError] for a larger one. *)
Definition small_machine (n : Z) : option exn :=
  if n <=? 1048576 then None else Some MemoryError.

(** The three point records of the sample file. *)
Definition sample_records : list bytes :=
  map (fun v => match write_points [v] with Ok r => r | _ => [] end) sample_vertices.

(** A viewer that holds the sample points, with a limit of four. *)
Definition sample_viewer : Viewer :=
  {| all_points := sample_points; all_colors := sample_colors; max_points_display := 4 |}.

(** The same viewer with a limit of zero. *)
Definition unlimited_viewer : Viewer :=
  {| all_points := sample_points; all_colors := sample_colors; max_points_display := 0 |}.

(* ================================================================= *)
(** * Properties of the runtime *)

(** ** The result monad *)

Lemma bind_ok : forall (A B : Type) (r : result A) (k : A -> result B) (b : B),
  bind r k = Ok b -> exists a, r = Ok a /\ k a = Ok b.
Proof. intros A B [a| |] k b H; simpl in H; try discriminate. eauto. Qed.

Ltac bind_inv H :=
  let a := fresh "a" in
  let Ha := fresh "Ha" in
  apply bind_ok in H; destruct H as (a & Ha & H).

Lemma bind_total : forall (A B : Type) (r : result A) (k : A -> result B),
  r <> Hang -> (forall a, k a <> Hang) -> bind r k <> Hang.
Proof. intros A B [a| |] k Hr Hk; cbn; [apply Hk|discriminate|congruence]. Qed.


(** ** Octets *)

Lemma Z_of_byte_range : forall b, 0 <= Z_of_byte b < 256.
Proof.
  intros b. unfold Z_of_byte. pose proof (Byte.to_N_bounded b). lia.
Qed.

Lemma Z_of_byte_of_Z_mod : forall z, Z_of_byte (byte_of_Z z) = z mod 256.
Proof.
  intros z. pose proof (Z.mod_pos_bound z 256 ltac:(lia)) as H.
  unfold byte_of_Z, Z_of_byte.
  destruct (Byte.of_N (Z.to_N (z mod 256))) as [b|] eqn:E.
  - apply Byte.to_of_N in E. rewrite E. lia.
  - apply Byte.of_N_None_iff in E. lia.
Qed.

Lemma Z_of_byte_of_Z : forall z, 0 <= z < 256 -> Z_of_byte (byte_of_Z z) = z.
Proof.
  intros z Hz. unfold Z_of_byte, byte_of_Z.
  rewrite Z.mod_small by exact Hz.
  destruct (Byte.of_N (Z.to_N z)) as [b|] eqn:E.
  - apply Byte.to_of_N in E. rewrite E. lia.
  - apply Byte.of_N_None_iff in E. lia.
Qed.

Lemma byte_of_Z_of_byte : forall b, byte_of_Z (Z_of_byte b) = b.
Proof. intros b. destruct b; reflexivity. Qed.

Lemma le_bytes_length : forall n w, length (le_bytes n w) = n.
Proof. induction n; intros w; simpl; auto. Qed.

Lemma le_value_le_bytes : forall n w,
  le_value (le_bytes n w) = w mod 256 ^ Z.of_nat n.
Proof.
  induction n as [|n IH]; intros w.
  - cbn. rewrite Z.mod_1_r. reflexivity.
  - cbn [le_bytes le_value]. rewrite Z_of_byte_of_Z_mod, IH.
    rewrite Nat2Z.inj_succ, Z.pow_succ_r by lia.
    rewrite Z.rem_mul_r by lia. reflexivity.
Qed.

Lemma le_value_four : forall a b c d, is_bits32 (le_value [a; b; c; d]).
Proof.
  intros a b c d. unfold is_bits32. cbn [le_value].
  pose proof (Z_of_byte_range a). pose proof (Z_of_byte_range b).
  pose proof (Z_of_byte_range c). pose proof (Z_of_byte_range d). lia.
Qed.


(** ** Lines of text *)

Lemma str_eqb_eq : forall a b, str_eqb a b = true <-> a = b.
Proof.
  intros a b. unfold str_eqb. destruct (list_eq_dec N.eq_dec a b); split; congruence.
Qed.

Lemma str_eqb_refl : forall a, str_eqb a a = true.
Proof. intros a. apply str_eqb_eq. reflexivity. Qed.

Lemma readline_length : forall f,
  (length (fst (readline f)) + length (snd (readline f)) = length f)%nat.
Proof.
  induction f as [|c f IH]; simpl; [reflexivity|].
  destruct (Byte.eqb c NL); simpl; [reflexivity|].
  destruct (readline f) as [l r]. simpl in *. lia.
Qed.

Lemma readline_rest_shorter : forall c f,
  (length (snd (readline (c :: f))) <= length f)%nat.
Proof.
  intros c f. pose proof (readline_length (c :: f)) as H.
  assert (fst (readline (c :: f)) <> []) as Hne.
  { simpl. destruct (Byte.eqb c NL); [discriminate|]. destruct (readline f); discriminate. }
  destruct (fst (readline (c :: f))); [congruence|]. cbn [length] in H. lia.
Qed.

Lemma readline_line : forall l rest,
  forallb not_nl l = true -> readline (l ++ NL :: rest) = (l ++ [NL], rest).
Proof.
  induction l as [|c l IH]; intros rest H.
  - reflexivity.
  - cbn [forallb] in H. apply andb_true_iff in H. destruct H as [Hc Hl].
    cbn [app readline]. unfold not_nl in Hc. apply negb_true_iff in Hc.
    rewrite Hc, (IH rest Hl). reflexivity.
Qed.

Lemma utf8_decode_ascii : forall s,
  forallb (fun c => c <? 128)%N s = true ->
  utf8_decode (encode_ascii s) = Some s.
Proof.
  induction s as [|c s IH]; intros H; [reflexivity|].
  cbn [forallb] in H. apply andb_true_iff in H. destruct H as [Hc Hs].
  apply N.ltb_lt in Hc.
  cbn [encode_ascii map utf8_decode].
  rewrite Z_of_byte_of_Z by lia.
  replace (Z.of_N c <=? 127) with true by (symmetry; apply Z.leb_le; lia).
  fold (encode_ascii s). rewrite (IH Hs). cbn. rewrite N2Z.id. reflexivity.
Qed.

Lemma lstrip_head : forall c s, isspace c = false -> lstrip (c :: s) = c :: s.
Proof. intros c s H. cbn. rewrite H. reflexivity. Qed.

(** A line that starts and ends with a character that is not whitespace
    comes back from [strip] without its newline. *)
Lemma strip_line : forall c s d t,
  isspace c = false -> isspace d = false ->
  rev (c :: s) = d :: t ->
  strip ((c :: s) ++ [10%N]) = c :: s.
Proof.
  intros c s d t Hc Hd Hrev. unfold strip, rstrip.
  cbn [app]. rewrite (lstrip_head _ _ Hc).
  change (c :: s ++ [10%N]) with ((c :: s) ++ [10%N]).
  rewrite rev_app_distr. cbn [rev app]. 
  change (lstrip (10%N :: rev s ++ [c])) with (lstrip (rev (c :: s))).
  rewrite Hrev, (lstrip_head _ _ Hd), <- Hrev. apply rev_involutive.
Qed.

Lemma split_space : forall c s, isspace c = true -> split (c :: s) = split s.
Proof. intros c s H. cbn. rewrite H. reflexivity. Qed.

Lemma split_cons2 : forall c d s,
  isspace c = false -> isspace d = false ->
  split (c :: d :: s)
  = match split (d :: s) with
    | t :: ts => (c :: t) :: ts
    | [] => [[c]]
    end.
Proof.
  intros c d s Hc Hd.
  change (split (c :: d :: s))
    with (if isspace c then split (d :: s)
          else if isspace d then [c] :: split (d :: s)
               else match split (d :: s) with
                    | t :: ts => (c :: t) :: ts
                    | [] => [[c]]
                    end).
  rewrite Hc, Hd. reflexivity.
Qed.

Lemma forallb_not_space_head : forall d w,
  forallb not_space (d :: w) = true -> isspace d = false.
Proof.
  intros d w H. cbn [forallb] in H. apply andb_true_iff in H. destruct H as [Hd _].
  apply negb_true_iff in Hd. exact Hd.
Qed.

Lemma split_last : forall w,
  w <> [] -> forallb not_space w = true -> split w = [w].
Proof.
  induction w as [|c w IH]; intros Hne H; [congruence|].
  pose proof (forallb_not_space_head _ _ H) as Hc.
  cbn [forallb] in H. apply andb_true_iff in H. destruct H as [_ Hw].
  destruct w as [|d w].
  - cbn. rewrite Hc. reflexivity.
  - pose proof (forallb_not_space_head _ _ Hw) as Hd.
    rewrite (split_cons2 _ _ _ Hc Hd), IH by (try discriminate; exact Hw).
    reflexivity.
Qed.

Lemma split_token : forall w sp rest,
  w <> [] -> forallb not_space w = true -> isspace sp = true ->
  split (w ++ sp :: rest) = w :: split rest.
Proof.
  induction w as [|c w IH]; intros sp rest Hne H Hsp; [congruence|].
  pose proof (forallb_not_space_head _ _ H) as Hc.
  cbn [forallb] in H. apply andb_true_iff in H. destruct H as [_ Hw].
  destruct w as [|d w].
  - cbn [app split]. rewrite Hc, Hsp. reflexivity.
  - pose proof (forallb_not_space_head _ _ Hw) as Hd.
    cbn [app]. rewrite (split_cons2 _ _ _ Hc Hd).
    change (d :: w ++ sp :: rest) with ((d :: w) ++ sp :: rest).
    rewrite IH by (try discriminate; assumption). reflexivity.
Qed.

Lemma forallb_weaken : forall (A : Type) (p q : A -> bool) l,
  (forall a, p a = true -> q a = true) -> forallb p l = true -> forallb q l = true.
Proof.
  intros A p q l Hpq. induction l as [|a l IH]; cbn; [reflexivity|].
  intros H. apply andb_true_iff in H. destruct H as [Ha Hl].
  rewrite (Hpq a Ha), (IH Hl). reflexivity.
Qed.

Lemma forallb_map_comp : forall (A B : Type) (f : B -> bool) (g : A -> B) l,
  forallb f (map g l) = forallb (fun x => f (g x)) l.
Proof.
  intros A B f g l. induction l as [|a l IH]; cbn; [reflexivity|]. rewrite IH. reflexivity.
Qed.


(** ** Decimal digits *)

Lemma uint_digits_are_digits : forall u, forallb is_digit (uint_digits u) = true.
Proof. induction u; cbn; auto. Qed.

Lemma uint_digits_nonnil : forall u, u <> Decimal.Nil -> uint_digits u <> [].
Proof. intros u H. destruct u; cbn; congruence. Qed.

Lemma decimal_digits : forall n,
  decimal (Z.of_nat n) <> [] /\ forallb is_digit (decimal (Z.of_nat n)) = true.
Proof.
  intros n. unfold decimal. destruct (Z.of_nat n) as [|p|p] eqn:E; try lia.
  - cbn. split; [discriminate|reflexivity].
  - cbn [Z.to_int]. split; [|apply uint_digits_are_digits].
    apply uint_digits_nonnil. apply DecimalPos.Unsigned.to_uint_nonnil.
Qed.

Lemma digit_not_space : forall c, is_digit c = true -> not_space c = true.
Proof.
  intros c H. unfold is_digit in H. apply andb_true_iff in H. destruct H as [H1 H2].
  apply N.leb_le in H1. apply N.leb_le in H2.
  unfold not_space, isspace. apply negb_true_iff.
  repeat (apply orb_false_iff; split);
    try (apply andb_false_iff; (left; apply Z.leb_gt; lia) || (right; apply Z.leb_gt; lia));
    try (apply Z.eqb_neq; lia).
Qed.

Lemma digit_ascii : forall c, is_digit c = true -> (c <? 128)%N = true.
Proof.
  intros c H. unfold is_digit in H. apply andb_true_iff in H. destruct H as [H1 H2].
  apply N.leb_le in H1. apply N.leb_le in H2. apply N.ltb_lt. lia.
Qed.

Lemma digit_not_nl : forall c, is_digit c = true -> not_nl (byte_of_Z (Z.of_N c)) = true.
Proof.
  intros c H. unfold is_digit in H. apply andb_true_iff in H. destruct H as [H1 H2].
  apply N.leb_le in H1. apply N.leb_le in H2.
  unfold not_nl. apply negb_true_iff.
  destruct (Byte.eqb (byte_of_Z (Z.of_N c)) NL) eqn:E; [|reflexivity].
  apply Byte.byte_dec_bl in E.
  assert (Z_of_byte (byte_of_Z (Z.of_N c)) = Z_of_byte NL) as E' by (rewrite E; reflexivity).
  rewrite Z_of_byte_of_Z in E' by lia. cbn in E'. lia.
Qed.

Lemma digits_value_uint : forall u acc d',
  Z.of_N (DecimalPos.Unsigned.of_lu d') = acc ->
  digits_value acc (uint_digits u)
  = Some (Z.of_N (DecimalPos.Unsigned.of_lu (Decimal.revapp u d'))).
Proof.
  induction u as [|u IH|u IH|u IH|u IH|u IH|u IH|u IH|u IH|u IH|u IH];
    intros acc d' H;
    [cbn; congruence| | | | | | | | | |];
    cbn [uint_digits digits_value Decimal.revapp];
    cbn [Z.of_N Z.sub Z.leb Z.compare Pos.compare Pos.compare_cont andb Z.pos_sub
         Pos.pred_double Z.succ_double Z.pred_double Z.double];
    apply IH; cbn [DecimalPos.Unsigned.of_lu]; lia.
Qed.

Lemma ascii_int_decimal : forall n, ascii_int (decimal (Z.of_nat n)) = Some (Z.of_nat n).
Proof.
  intros n. unfold decimal. destruct (Z.of_nat n) as [|p|p] eqn:E; try lia.
  - reflexivity.
  - cbn [Z.to_int].
    assert (digits_value 0 (uint_digits (Pos.to_uint p)) = Some (Zpos p)) as Hv.
    { rewrite (digits_value_uint (Pos.to_uint p) 0 Decimal.Nil eq_refl).
      change (Decimal.revapp (Pos.to_uint p) Decimal.Nil) with (Decimal.rev (Pos.to_uint p)).
      rewrite <- DecimalPos.Unsigned.of_uint_alt, DecimalPos.Unsigned.of_to. reflexivity. }
    pose proof (DecimalPos.Unsigned.to_uint_nonnil p) as Hne.
    destruct (Pos.to_uint p) as [|u|u|u|u|u|u|u|u|u|u]; [congruence| | | | | | | | | |];
      exact Hv.
Qed.


(** ** binary32 values inside doubles *)

Lemma iter_pos_eq : forall (A : Type) (f : A -> A) p x, iter_pos f p x = Pos.iter f x p.
Proof.
  intros A f. induction p as [p IH|p IH|]; intros x; cbn.
  - rewrite !IH, <- !Pos.iter_swap. reflexivity.
  - rewrite !IH. reflexivity.
  - reflexivity.
Qed.

Lemma digits2_iter_xO : forall p k,
  digits2_pos (Pos.iter xO p k) = (digits2_pos p + k)%positive.
Proof.
  intros p k. induction k as [|k IH] using Pos.peano_ind.
  - cbn. lia.
  - rewrite Pos.iter_succ. cbn [digits2_pos]. rewrite IH. lia.
Qed.

Lemma shr_iter_xO : forall p k,
  iter_pos shr_1 k {| shr_m := Zpos (Pos.iter xO p k); shr_r := false; shr_s := false |}
  = {| shr_m := Zpos p; shr_r := false; shr_s := false |}.
Proof.
  intros p k. rewrite iter_pos_eq. induction k as [|k IH] using Pos.peano_ind.
  - reflexivity.
  - rewrite Pos.iter_succ_r. rewrite Pos.iter_succ. cbn [shr_1 orb]. exact IH.
Qed.

Lemma widen_binary32 : forall s p E k,
  bounded 24 128 p E = true ->
  Zpos k = 53 - Zpos (digits2_pos p) ->
  binary_round 53 1024 s p E = S754_finite s (Pos.iter xO p k) (E - Zpos k).
Proof.
  intros s p E k Hb Hk. unfold bounded, canonical_mantissa in Hb.
  apply andb_true_iff in Hb. destruct Hb as [Hc HE].
  apply Z.eqb_eq in Hc. apply Z.leb_le in HE. unfold fexp, emin in Hc.
  set (d := Zpos (digits2_pos p)) in *.
  assert (0 < d) as Hd by (unfold d; lia).
  unfold binary_round, shl_align, fexp, emin. fold d.
  replace (Z.max (d + E - 53) (3 - 1024 - 53) - E) with (Zneg k) by lia.
  unfold binary_round_aux, shr_fexp, fexp, emin.
  cbn [Zdigits2]. rewrite digits2_iter_xO. fold d.
  replace (Z.pos (digits2_pos p + k)) with 53 by lia.
  replace (Z.max (53 + Z.max (d + E - 53) (3 - 1024 - 53) - 53) (3 - 1024 - 53)
           - Z.max (d + E - 53) (3 - 1024 - 53)) with 0 by lia.
  cbn [shr shr_record_of_loc shr_m loc_of_shr_record round_nearest_even Zdigits2].
  rewrite digits2_iter_xO. fold d.
  replace (Z.pos (digits2_pos p + k)) with 53 by lia.
  replace (Z.max (53 + Z.max (d + E - 53) (3 - 1024 - 53) - 53) (3 - 1024 - 53)
           - Z.max (d + E - 53) (3 - 1024 - 53)) with 0 by lia.
  cbn [shr shr_m].
  replace (Z.max (d + E - 53) (3 - 1024 - 53) <=? 1024 - 53) with true
    by (symmetry; apply Z.leb_le; lia).
  f_equal. lia.
Qed.

Lemma narrow_binary32 : forall s p E k,
  bounded 24 128 p E = true ->
  Zpos k = 53 - Zpos (digits2_pos p) ->
  binary_round 24 128 s (Pos.iter xO p k) (E - Zpos k) = S754_finite s p E.
Proof.
  intros s p E k Hb Hk. unfold bounded, canonical_mantissa in Hb.
  apply andb_true_iff in Hb. destruct Hb as [Hc HE].
  apply Z.eqb_eq in Hc. apply Z.leb_le in HE. unfold fexp, emin in Hc.
  set (d := Zpos (digits2_pos p)) in *.
  assert (0 < d) as Hd by (unfold d; lia).
  unfold binary_round, shl_align, fexp, emin.
  rewrite digits2_iter_xO. fold d.
  replace (Z.max (Z.pos (digits2_pos p + k) + (E - Z.pos k) - 24) (3 - 128 - 24)
           - (E - Z.pos k)) with (Zpos k) by lia.
  unfold binary_round_aux, shr_fexp, fexp, emin.
  cbn [Zdigits2]. rewrite digits2_iter_xO.
  replace (Z.max (Z.pos (digits2_pos p + k) + (E - Z.pos k) - 24) (3 - 128 - 24)
           - (E - Z.pos k)) with (Zpos k) by lia.
  cbn [shr shr_record_of_loc]. rewrite shr_iter_xO.
  cbn [shr_m loc_of_shr_record round_nearest_even Zdigits2 shr_record_of_loc].
  fold d.
  replace (Z.max (d + (E - Z.pos k + Z.pos k) - 24) (3 - 128 - 24)
           - (E - Z.pos k + Z.pos k)) with 0 by lia.
  cbn [shr shr_m].
  replace (E - Z.pos k + Z.pos k <=? 128 - 24) with true
    by (symmetry; apply Z.leb_le; lia).
  f_equal. lia.
Qed.

Lemma digits2_bounds : forall p,
  2 ^ (Zpos (digits2_pos p) - 1) <= Zpos p < 2 ^ Zpos (digits2_pos p).
Proof.
  induction p as [p IH|p IH|]; cbn [digits2_pos].
  - rewrite Pos2Z.inj_succ.
    replace (Z.succ (Zpos (digits2_pos p)) - 1) with (Z.succ (Zpos (digits2_pos p) - 1)) by lia.
    rewrite !Z.pow_succ_r by lia. lia.
  - rewrite Pos2Z.inj_succ.
    replace (Z.succ (Zpos (digits2_pos p)) - 1) with (Z.succ (Zpos (digits2_pos p) - 1)) by lia.
    rewrite !Z.pow_succ_r by lia. lia.
  - cbn. lia.
Qed.

Lemma digits2_upper : forall p n, 0 <= n -> Zpos p < 2 ^ n -> Zpos (digits2_pos p) <= n.
Proof.
  intros p n Hn Hp. destruct (digits2_bounds p) as [Hlo _].
  assert (2 ^ (Zpos (digits2_pos p) - 1) < 2 ^ n) as H by lia.
  apply Z.pow_lt_mono_r_iff in H; lia.
Qed.

Lemma digits2_lower : forall p n, 0 <= n -> 2 ^ n <= Zpos p -> n < Zpos (digits2_pos p).
Proof.
  intros p n Hn Hp. destruct (digits2_bounds p) as [_ Hhi].
  assert (2 ^ n < 2 ^ Zpos (digits2_pos p)) as H by lia.
  apply Z.pow_lt_mono_r_iff in H; lia.
Qed.

(** The fields of a 32-bit pattern. *)
Lemma bits32_fields : forall w,
  0 <= w < 4294967296 ->
  let e := Z.land (Z.shiftr w 23) 255 in
  let m := Z.land w 8388607 in
  0 <= e <= 255 /\ 0 <= m < 8388608
  /\ w = sign_bit (Z.testbit w 31) + e * 8388608 + m.
Proof.
  intros w Hw e m.
  assert (e = (w / 8388608) mod 256) as ->.
  { subst e. change 255 with (Z.ones 8). rewrite Z.land_ones, Z.shiftr_div_pow2 by lia.
    reflexivity. }
  assert (m = w mod 8388608) as ->.
  { subst m. change 8388607 with (Z.ones 23). rewrite Z.land_ones by lia. reflexivity. }
  rewrite Z.testbit_odd, Z.shiftr_div_pow2 by lia.
  change (2 ^ 31) with 2147483648.
  pose proof (Z.mod_pos_bound (w / 8388608) 256 ltac:(lia)) as He.
  pose proof (Z.mod_pos_bound w 8388608 ltac:(lia)) as Hm.
  split; [lia|]. split; [lia|].
  pose proof (Z.div_mod w 8388608 ltac:(lia)) as E1.
  pose proof (Z.div_mod (w / 8388608) 256 ltac:(lia)) as E2.
  rewrite Z.div_div in E2 by lia. change (8388608 * 256) with 2147483648 in E2.
  assert (0 <= w / 2147483648 < 2) as Hq.
  { split; [apply Z.div_pos; lia|apply Z.div_lt_upper_bound; lia]. }
  assert (sign_bit (Z.odd (w / 2147483648)) = 2147483648 * (w / 2147483648)) as Hs.
  { assert (w / 2147483648 = 0 \/ w / 2147483648 = 1) as [-> | ->] by lia; reflexivity. }
  rewrite Hs. lia.
Qed.

Lemma binary_normalize_signed : forall prec emax s p e,
  binary_normalize prec emax (cond_Zopp s (Zpos p)) e s = binary_round prec emax s p e.
Proof. intros prec emax s p e. destruct s; reflexivity. Qed.

(** Every binary32 value comes back from the conversion to a double and
    back; a NaN comes back as the quiet NaN. *)
Lemma bits32_roundtrip : forall w,
  is_bits32 w ->
  exists w',
    bits32_of_float (float_of_bits32 w) = Ok w'
    /\ is_bits32 w'
    /\ float_of_bits32 w' = float_of_bits32 w.
Proof.
  unfold is_bits32. intros w Hw.
  destruct (bits32_fields w Hw) as (He & Hm & Hfields).
  unfold float_of_bits32 at 1 3.
  set (s := Z.testbit w 31) in *.
  set (e := Z.land (Z.shiftr w 23) 255) in *.
  set (m := Z.land w 8388607) in *.
  assert (0 <= sign_bit s <= 2147483648) as Hs by (destruct s; cbn; lia).
  destruct (e =? 255) eqn:E255.
  { apply Z.eqb_eq in E255. destruct (m =? 0) eqn:Em0.
    - apply Z.eqb_eq in Em0. exists w. cbn [bits32_of_float].
      split; [f_equal; lia|]. split; [lia|].
      unfold float_of_bits32. fold s e m. rewrite E255, Em0. reflexivity.
    - exists 2143289344. cbn [bits32_of_float]. split; [reflexivity|].
      split; [lia|reflexivity]. }
  apply Z.eqb_neq in E255.
  assert (float_of_bits32 w
          = if e =? 0 then binary_normalize 53 1024 (cond_Zopp s m) (-149) s
            else binary_normalize 53 1024 (cond_Zopp s (m + 8388608)) (e - 150) s) as Hx.
  { unfold float_of_bits32. fold s e m.
    replace (e =? 255) with false by (symmetry; apply Z.eqb_neq; exact E255). reflexivity. }
  destruct (e =? 0) eqn:E0.
  - apply Z.eqb_eq in E0. destruct m as [|p|p] eqn:Em; [| |lia].
    + (* zero *)
      exists w. replace (cond_Zopp s 0) with 0 by (destruct s; reflexivity).
      cbn [binary_normalize bits32_of_float]. split; [f_equal; lia|].
      split; [lia|]. rewrite Hx. replace (cond_Zopp s 0) with 0 by (destruct s; reflexivity).
      reflexivity.
    + (* subnormal *)
      assert (Zpos (digits2_pos p) <= 23) as Hd by (apply digits2_upper; lia).
      assert (bounded 24 128 p (-149) = true) as Hb.
      { unfold bounded, canonical_mantissa, fexp, emin.
        apply andb_true_iff. split; [apply Z.eqb_eq; lia|reflexivity]. }
      assert (exists k, Zpos k = 53 - Zpos (digits2_pos p)) as (k & Hk).
      { exists (Z.to_pos (53 - Zpos (digits2_pos p))). rewrite Z2Pos.id; lia. }
      rewrite binary_normalize_signed, (widen_binary32 s p (-149) k Hb Hk).
      exists w. cbn [bits32_of_float]. rewrite (narrow_binary32 s p (-149) k Hb Hk).
      replace (Zpos (digits2_pos p) =? 24) with false by (symmetry; apply Z.eqb_neq; lia).
      split; [f_equal; lia|]. split; [lia|].
      rewrite Hx, binary_normalize_signed. apply (widen_binary32 s p (-149) k Hb Hk).
  - (* normal *)
    apply Z.eqb_neq in E0.
    destruct (m + 8388608) as [|p|p] eqn:EM; [lia| |lia].
    assert (Zpos (digits2_pos p) = 24) as Hd.
    { pose proof (digits2_upper p 24 ltac:(lia) ltac:(change (2 ^ 24) with 16777216; lia)).
      pose proof (digits2_lower p 23 ltac:(lia) ltac:(change (2 ^ 23) with 8388608; lia)).
      lia. }
    assert (bounded 24 128 p (e - 150) = true) as Hb.
    { unfold bounded, canonical_mantissa, fexp, emin. rewrite Hd.
      apply andb_true_iff. split; [apply Z.eqb_eq; lia|apply Z.leb_le; lia]. }
    assert (Zpos 29 = 53 - Zpos (digits2_pos p)) as Hk by (rewrite Hd; reflexivity).
    rewrite binary_normalize_signed, (widen_binary32 s p (e - 150) 29 Hb Hk).
    exists w. cbn [bits32_of_float]. rewrite (narrow_binary32 s p (e - 150) 29 Hb Hk).
    rewrite Hd. cbn [Z.eqb Pos.eqb].
    split; [f_equal; lia|]. split; [lia|].
    rewrite Hx, binary_normalize_signed. apply (widen_binary32 s p (e - 150) 29 Hb Hk).
Qed.

(** Serializing ends, with the octets or with an exception. *)
Lemma bits32_of_float_total : forall x, bits32_of_float x <> Hang.
Proof.
  intros x. destruct x as [s|s| |s m e]; cbn [bits32_of_float]; try discriminate.
  destruct (binary_round 24 128 s m e) as [s'|s'| |s' m' e']; try discriminate.
  destruct (Z.pos (digits2_pos m') =? 24); discriminate.
Qed.

Lemma int_of_float_total : forall x, int_of_float x <> Hang.
Proof. intros x. unfold int_of_float. destruct x; discriminate. Qed.


(** ** The [struct] module *)

Lemma pack_f_inv : forall x bs,
  pack_f x = Ok bs -> exists w, bits32_of_float x = Ok w /\ bs = le_bytes 4 w.
Proof.
  unfold pack_f. intros x bs H. bind_inv H. inversion H; subst. eauto.
Qed.

Lemma pack_f_four : forall x bs,
  pack_f x = Ok bs -> exists a b c d, bs = [a; b; c; d].
Proof.
  intros x bs H. apply pack_f_inv in H. destruct H as (w & _ & ->).
  cbn [le_bytes]. eauto.
Qed.

Lemma pack_B_inv : forall v b,
  pack_B v = Ok b -> 0 <= v <= 255 /\ b = byte_of_Z v.
Proof.
  unfold pack_B. intros v b H.
  destruct ((0 <=? v) && (v <=? 255)) eqn:E; [|discriminate].
  apply andb_true_iff in E. destruct E as [E1 E2].
  apply Z.leb_le in E1. apply Z.leb_le in E2. inversion H; subst. auto.
Qed.

Lemma pack_B_byte : forall b, pack_B (Z_of_byte b) = Ok b.
Proof. intros b. destruct b; reflexivity. Qed.

Lemma pack_BBB_inv : forall r g b bs,
  pack_BBB r g b = Ok bs ->
  0 <= r <= 255 /\ 0 <= g <= 255 /\ 0 <= b <= 255
  /\ bs = [byte_of_Z r; byte_of_Z g; byte_of_Z b].
Proof.
  unfold pack_BBB. intros r g b bs H.
  bind_inv H. bind_inv H. bind_inv H. inversion H; subst.
  apply pack_B_inv in Ha. apply pack_B_inv in Ha0. apply pack_B_inv in Ha1.
  intuition congruence.
Qed.

Lemma pack_BBB_bytes : forall r g b,
  pack_BBB (Z_of_byte r) (Z_of_byte g) (Z_of_byte b) = Ok [r; g; b].
Proof. intros r g b. unfold pack_BBB. rewrite !pack_B_byte. reflexivity. Qed.

Lemma pack_fff_total : forall p, pack_fff p <> Hang.
Proof.
  intros [[x y] z]. unfold pack_fff, pack_f.
  repeat (apply bind_total; [apply bind_total; [apply bits32_of_float_total|discriminate]|intros ?]).
  discriminate.
Qed.

Lemma pack_BBB_total : forall r g b, pack_BBB r g b <> Hang.
Proof.
  intros r g b. unfold pack_BBB, pack_B.
  repeat (apply bind_total; [destruct (_ && _); discriminate|intros ?]).
  discriminate.
Qed.

Lemma unpack_fff_ok : forall order data,
  length data = 12%nat -> exists p, unpack_fff order data = Ok p.
Proof. intros order data H. unfold unpack_fff. rewrite H. cbn. eauto. Qed.

(** A value unpacked from four octets holds a binary32 value, in either
    byte order. *)
Lemma unpack_f_is_f32 : forall order bs,
  length bs = 4%nat -> is_f32 (unpack_f order bs).
Proof.
  intros order bs H.
  do 4 (destruct bs as [|? bs]; [discriminate|]). destruct bs; [|discriminate].
  unfold unpack_f, is_f32. destruct order; cbn [rev app]; eexists; split;
    try reflexivity; apply le_value_four.
Qed.

Lemma unpack_fff_f32 : forall order data p,
  unpack_fff order data = Ok p -> f32_point p.
Proof.
  unfold unpack_fff. intros order data p H.
  destruct (length data =? 12)%nat eqn:E; [|discriminate].
  apply Nat.eqb_eq in E.
  assert (p = (unpack_f order (firstn 4 data),
               unpack_f order (firstn 4 (skipn 4 data)),
               unpack_f order (firstn 4 (skipn 8 data)))) as -> by congruence.
  clear H. unfold f32_point.
  repeat split; apply unpack_f_is_f32;
    rewrite ?length_firstn, ?length_skipn; lia.
Qed.

(** A double that holds a binary32 value can be packed, and comes back
    from its four octets. *)
Lemma is_f32_exact : forall x, is_f32 x -> f32_exact x.
Proof.
  intros x (w & Hw & ->).
  destruct (bits32_roundtrip w Hw) as (w' & Hp & Hw' & Hu).
  unfold f32_exact, pack_f. rewrite Hp. cbn [bind].
  eexists. split; [reflexivity|].
  unfold unpack_f. rewrite le_value_le_bytes.
  change (256 ^ Z.of_nat 4) with 4294967296.
  rewrite Z.mod_small by exact Hw'. exact Hu.
Qed.

Lemma to_float32_is_f32 : forall x bs, pack_f x = Ok bs -> is_f32 (to_float32 x).
Proof.
  intros x bs H. unfold to_float32. rewrite H.
  apply unpack_f_is_f32. destruct (pack_f_four _ _ H) as (a & b & c & d & ->). reflexivity.
Qed.

(** Converting a second time changes nothing. *)
Lemma to_float32_idempotent : forall x bs,
  pack_f x = Ok bs -> to_float32 (to_float32 x) = to_float32 x.
Proof.
  intros x bs H.
  destruct (is_f32_exact _ (to_float32_is_f32 _ _ H)) as (bs' & Hp & Hu).
  unfold to_float32 at 1. rewrite Hp. exact Hu.
Qed.

Lemma to_float32_exact : forall x, f32_exact x -> to_float32 x = x.
Proof. intros x (bs & Hp & Hu). unfold to_float32. rewrite Hp. exact Hu. Qed.

Lemma pack_fff_f32 : forall p, f32_point p -> exists bs, pack_fff p = Ok bs.
Proof.
  intros [[x y] z] (Hx & Hy & Hz).
  destruct (is_f32_exact _ Hx) as (bx & Hbx & _).
  destruct (is_f32_exact _ Hy) as (b_y & Hby & _).
  destruct (is_f32_exact _ Hz) as (bz & Hbz & _).
  unfold pack_fff. rewrite Hbx, Hby, Hbz. cbn. eauto.
Qed.


(** ** Color components read from octets *)

Lemma int_truediv_byte : forall b, int_truediv (Z_of_byte b) 255 = Ok (byte_fraction b).
Proof. intros b. destruct b; vm_compute; reflexivity. Qed.

Lemma byte_fraction_close : forall b, within_quantum b (byte_fraction b).
Proof.
  intros b. unfold within_quantum. apply Qle_bool_imp_le.
  destruct b; vm_compute; reflexivity.
Qed.

(** Re-quantizing a color component read from an octet gives the octet
    back. *)
Lemma byte_fraction_requantized : forall b,
  int_of_float (float_mul_int (byte_fraction b) 255) = Ok (Z_of_byte b).
Proof. intros b. destruct b; vm_compute; reflexivity. Qed.


(* ================================================================= *)
(** * Properties of the reader *)

(** ** The header loop *)

(** At the end of the file the loop never ends. *)
Lemma parse_header_eof : forall fuel info, parse_header fuel info [] = Hang.
Proof.
  induction fuel as [|fuel IH]; intros info; [reflexivity|].
  simpl. apply IH.
Qed.

(** The fuel does not matter once it covers the file. *)
Lemma parse_header_fuel_eq : forall fuel1 fuel2 info f,
  (length f <= fuel1)%nat -> (length f <= fuel2)%nat ->
  parse_header fuel1 info f = parse_header fuel2 info f.
Proof.
  induction fuel1 as [|fuel1 IH]; intros fuel2 info f H1 H2.
  - destruct f; [|simpl in H1; lia]. rewrite !parse_header_eof. reflexivity.
  - destruct fuel2 as [|fuel2].
    + destruct f; [|simpl in H2; lia]. rewrite !parse_header_eof. reflexivity.
    + destruct f as [|c f].
      * rewrite !parse_header_eof. reflexivity.
      * cbn [parse_header].
        pose proof (readline_rest_shorter c f) as Hs.
        destruct (readline (c :: f)) as [raw f'].
        destruct (decode raw) as [line| |]; cbn [bind]; try reflexivity.
        destruct (str_eqb (strip line) (lit "end_header")); [reflexivity|].
        destruct (header_line info (split (strip line))) as [info'| |]; cbn [bind];
          try reflexivity.
        simpl in *. apply IH; lia.
Qed.

Lemma parse_header_fuel : forall fuel info f,
  (length f <= fuel)%nat -> parse_header fuel info f = parse_header (length f) info f.
Proof. intros. apply parse_header_fuel_eq; lia. Qed.

Lemma parse_header_line : forall l rest inf fuel line inf',
  forallb not_nl l = true ->
  decode (l ++ [NL]) = Ok line ->
  str_eqb (strip line) (lit "end_header") = false ->
  header_line inf (split (strip line)) = Ok inf' ->
  parse_header (S fuel) inf (l ++ NL :: rest) = parse_header fuel inf' rest.
Proof.
  intros l rest inf fuel line inf' Hl Hd He Hh.
  cbn [parse_header]. rewrite (readline_line _ _ Hl), Hd. cbn [bind].
  rewrite He, Hh. reflexivity.
Qed.

Lemma parse_header_end : forall rest inf fuel,
  parse_header (S fuel) inf (blit "end_header" ++ NL :: rest) = Ok (inf, rest).
Proof. reflexivity. Qed.


(** ** Loading *)

Lemma load_false_inv : forall fs filename self self',
  load_ply_file fs filename self = Ok (false, self') ->
  self' = self /\ load_fails fs filename.
Proof.
  unfold load_ply_file, load_fails. intros fs filename self self' H.
  destruct (fs filename) as [content|].
  - destruct (parse_ply (fun n => n) content) as [[[pts cols] inf]|e|] eqn:E.
    + discriminate.
    + inversion H; subst. split; [reflexivity|]. right. eauto.
    + discriminate.
  - inversion H; subst. auto.
Qed.

Lemma load_true_inv : forall fs filename self self',
  load_ply_file fs filename self = Ok (true, self') ->
  exists content pts cols inf,
    fs filename = Some content
    /\ parse_ply (fun n => n) content = Ok (pts, cols, inf)
    /\ self' = {| current_ply_file := Some filename; points := Some pts;
                  colors := Some cols; info := Some inf;
                  is_connected := is_connected self; streaming := streaming self |}.
Proof.
  unfold load_ply_file. intros fs filename self self' H.
  destruct (fs filename) as [content|]; [|discriminate].
  destruct (parse_ply (fun n => n) content) as [[[pts cols] inf]|e|] eqn:E;
    try discriminate.
  inversion H; subst. exists content, pts, cols, inf. auto.
Qed.

(** C10: a load attempt that fails (file missing, bad magic line or any
    exception while parsing) returns [False] and leaves the simulator as it
    was: points, colors, info and current file name are those of before
    the call. *)
Theorem load_failure_keeps_state : forall fs filename self,
  load_fails fs filename ->
  load_ply_file fs filename self = Ok (false, self).
Proof.
  unfold load_fails, load_ply_file. intros fs filename self [H | (content & e & H & Hp)].
  - rewrite H. reflexivity.
  - rewrite H, Hp. reflexivity.
Qed.

(** C4, as the code has it: when the first line, decoded and stripped of
    the whitespace around it, is not ['ply'], parsing raises the
    [ValueError] of the magic check (or [UnicodeDecodeError] when the line
    is not UTF-8), the load returns [False] and the simulator keeps its
    fields: nothing of the file is retained. *)
Theorem bad_magic_rejected : forall fs filename content self,
  fs filename = Some content ->
  magic_line content <> Some (lit "ply") ->
  (parse_ply (fun n => n) content = Raise ValueError_not_ply
   \/ parse_ply (fun n => n) content = Raise UnicodeDecodeError)
  /\ load_ply_file fs filename self = Ok (false, self).
Proof.
  intros fs filename content self Hfs Hm.
  assert (parse_ply (fun n => n) content = Raise ValueError_not_ply
          \/ parse_ply (fun n => n) content = Raise UnicodeDecodeError) as Hp.
  { unfold parse_ply, read_header, magic_line, decode in *.
    destruct (readline content) as [raw f]. simpl in Hm.
    destruct (utf8_decode raw) as [line|]; simpl in *; [|auto].
    destruct (str_eqb (strip line) (lit "ply")) eqn:E; simpl; [|auto].
    apply str_eqb_eq in E. congruence. }
  split; [exact Hp|].
  unfold load_ply_file. rewrite Hfs.
  destruct Hp as [-> | ->]; reflexivity.
Qed.


(** ** Points and colors stay parallel *)

Lemma ascii_color_gray : forall inf values c,
  ascii_color inf values = Ok c -> has_color inf = false -> c = gray.
Proof.
  unfold ascii_color. intros inf values c H Hc. rewrite Hc in H. simpl in H. congruence.
Qed.

Lemma ascii_color_short : forall inf values,
  (length values < 6)%nat -> ascii_color inf values = Ok gray.
Proof.
  unfold ascii_color. intros inf values H.
  replace (6 <=? length values)%nat with false by (symmetry; apply Nat.leb_gt; exact H).
  rewrite andb_false_r. reflexivity.
Qed.

Lemma binary_color_gray : forall inf f1 c f2,
  binary_color inf f1 = Ok (c, f2) -> has_color inf = false -> c = gray.
Proof.
  unfold binary_color. intros inf f1 c f2 H Hc. rewrite Hc in H. congruence.
Qed.

Lemma binary_color_short : forall inf f1,
  (length f1 < 3)%nat -> exists f2, binary_color inf f1 = Ok (gray, f2).
Proof.
  unfold binary_color, read. intros inf f1 H.
  destruct (has_color inf); [|eauto].
  replace (length (firstn 3 f1) =? 3)%nat with false; [eauto|].
  symmetry. apply Nat.eqb_neq. rewrite length_firstn. lia.
Qed.

Lemma read_ascii_parallel : forall n inf f pts cols,
  read_ascii n inf f = Ok (pts, cols) ->
  length cols = length pts /\ (has_color inf = false -> Forall (eq gray) cols).
Proof.
  induction n as [|n IH]; intros inf f pts cols H; cbn [read_ascii] in H.
  - inversion H; subst. auto.
  - destruct (readline f) as [raw f'].
    bind_inv H. do 3 (bind_inv H; bind_inv H).
    apply bind_ok in H. destruct H as (color & Hcol & H).
    apply bind_ok in H. destruct H as ([ps cs] & Hrec & H).
    inversion H; subst. apply IH in Hrec. destruct Hrec as [Hlen Hg].
    split; [simpl; congruence|].
    intros Hc. constructor; [|auto].
    symmetry. eapply ascii_color_gray; eauto.
Qed.

Lemma read_binary_parallel : forall n inf f pts cols,
  read_binary n inf f = Ok (pts, cols) ->
  length cols = length pts /\ (has_color inf = false -> Forall (eq gray) cols).
Proof.
  induction n as [|n IH]; intros inf f pts cols H; cbn [read_binary] in H.
  - inversion H; subst. auto.
  - unfold read in H.
    destruct (length (firstn 12 f) =? 12)%nat; [|eauto].
    bind_inv H.
    apply bind_ok in H. destruct H as ([color f2] & Hcol & H).
    apply bind_ok in H. destruct H as ([ps cs] & Hrec & H).
    inversion H; subst. apply IH in Hrec. destruct Hrec as [Hlen Hg].
    split; [simpl; congruence|].
    intros Hc. constructor; [|auto].
    symmetry. eapply binary_color_gray; eauto.
Qed.

Lemma parse_ply_parallel : forall limit content pts cols inf,
  parse_ply limit content = Ok (pts, cols, inf) ->
  length cols = length pts /\ (has_color inf = false -> Forall (eq gray) cols).
Proof.
  unfold parse_ply. intros limit content pts cols inf H.
  apply bind_ok in H. destruct H as ([inf' f'] & Hh & H).
  apply bind_ok in H. destruct H as ([ps cs] & Hb & H).
  inversion H; subst.
  destruct (str_eqb (format_type inf) (lit "ascii")).
  - eapply read_ascii_parallel; eauto.
  - eapply read_binary_parallel; eauto.
Qed.

(** ** Binary bodies *)

Lemma normalized_bytes : forall r g b,
  normalized (Z_of_byte r) (Z_of_byte g) (Z_of_byte b)
  = Ok (byte_fraction r, byte_fraction g, byte_fraction b).
Proof. intros r g b. unfold normalized. rewrite !int_truediv_byte. reflexivity. Qed.

(** Once fewer than twelve octets are left, the loop appends nothing
    more. *)
Lemma read_binary_short : forall n inf f,
  (length f < 12)%nat -> read_binary n inf f = Ok ([], []).
Proof.
  induction n as [|n IH]; intros inf f H; [reflexivity|].
  cbn [read_binary]. unfold read.
  replace (length (firstn 12 f) =? 12)%nat with false
    by (symmetry; apply Nat.eqb_neq; rewrite length_firstn; lia).
  apply IH. rewrite length_skipn. lia.
Qed.

Lemma binary_color_record : forall inf r rest,
  length r = record_size inf ->
  exists c, binary_color inf (skipn 12 (r ++ rest)) = Ok (c, rest).
Proof.
  unfold binary_color, record_size, read. intros inf r rest H.
  destruct (has_color inf).
  - rewrite skipn_app, H. cbn [Nat.sub].
    assert (exists a b c, skipn 12 r = [a; b; c]) as (a & b & c & ->).
    { do 15 (destruct r as [|? r]; [discriminate|]).
      destruct r; [|discriminate]. cbn. eauto. }
    cbn - [normalized]. rewrite normalized_bytes. cbn. eauto.
  - rewrite skipn_app, H, Nat.sub_diag, skipn_O.
    rewrite skipn_all2 by lia. cbn. eauto.
Qed.

(** ** Records without color data *)

Lemma lines_of_fuel_eq : forall fuel1 fuel2 f,
  (length f <= fuel1)%nat -> (length f <= fuel2)%nat ->
  lines_of fuel1 f = lines_of fuel2 f.
Proof.
  induction fuel1 as [|fuel1 IH]; intros fuel2 f H1 H2.
  - destruct f; [destruct fuel2; reflexivity|cbn in H1; lia].
  - destruct f as [|c f]; [destruct fuel2; reflexivity|].
    destruct fuel2 as [|fuel2]; [cbn in H2; lia|].
    cbn [lines_of].
    pose proof (readline_rest_shorter c f) as Hs.
    destruct (readline (c :: f)) as [l r]. cbn [snd] in Hs.
    f_equal. cbn [length] in H1, H2. apply IH; lia.
Qed.

Lemma lines_of_fuel : forall fuel f,
  (length f <= fuel)%nat -> lines_of fuel f = lines_of (length f) f.
Proof. intros fuel f H. apply lines_of_fuel_eq; lia. Qed.

Lemma lines_cons : forall c f,
  lines (c :: f) = fst (readline (c :: f)) :: lines (snd (readline (c :: f))).
Proof.
  intros c f. unfold lines. cbn [length lines_of].
  pose proof (readline_rest_shorter c f) as Hs.
  destruct (readline (c :: f)) as [l r]. cbn [fst snd] in *.
  f_equal. apply lines_of_fuel. exact Hs.
Qed.

(** The color at an index is gray when the line of that index holds
    fewer than six tokens. *)
Lemma read_ascii_short_line : forall n inf f pts cols,
  read_ascii n inf f = Ok (pts, cols) ->
  forall i raw line,
    nth_error (lines f) i = Some raw ->
    (i < length cols)%nat ->
    decode raw = Ok line ->
    (length (split (strip line)) < 6)%nat ->
    nth_error cols i = Some gray.
Proof.
  induction n as [|n IH]; intros inf f pts cols H i raw line Hl Hi Hd Hs;
    cbn [read_ascii] in H.
  - inversion H; subst. cbn in Hi. lia.
  - destruct f as [|c f]; [destruct i; discriminate|].
    rewrite lines_cons in Hl.
    remember (readline (c :: f)) as rl eqn:Erl. destruct rl as [raw0 f'].
    cbn [fst snd] in Hl.
    apply bind_ok in H. destruct H as (line0 & Hd0 & H).
    do 3 (bind_inv H; bind_inv H).
    apply bind_ok in H. destruct H as (color & Hcol & H).
    apply bind_ok in H. destruct H as ([ps cs] & Hrec & H).
    inversion H; subst. clear H.
    destruct i as [|i]; cbn [nth_error] in Hl |- *.
    + inversion Hl; subst raw0. rewrite Hd in Hd0. inversion Hd0; subst line0.
      rewrite (ascii_color_short inf _ Hs) in Hcol. congruence.
    + cbn [length] in Hi. eapply IH; eauto. lia.
Qed.

(** The color at the index of a record that is cut before its three
    color octets is gray. *)
Lemma read_binary_cut_color : forall inf records tail,
  has_color inf = true ->
  Forall (fun r => length r = 15%nat) records ->
  (12 <= length tail < 15)%nat ->
  forall n pts cols,
    read_binary n inf (concat records ++ tail) = Ok (pts, cols) ->
    (length records < length pts)%nat ->
    nth_error cols (length records) = Some gray.
Proof.
  intros inf records tail Hc. induction records as [|r rs IH];
    intros Hrs Ht n pts cols H Hlt.
  - cbn [concat app] in H. destruct n as [|n]; cbn [read_binary] in H.
    + inversion H; subst. cbn in Hlt. lia.
    + unfold read in H.
      replace (length (firstn 12 tail) =? 12)%nat with true in H
        by (symmetry; apply Nat.eqb_eq; rewrite length_firstn; lia).
      apply bind_ok in H. destruct H as (point & Hpt & H).
      destruct (binary_color_short inf (skipn 12 tail)) as (f2 & Hbc);
        [rewrite length_skipn; lia|].
      rewrite Hbc in H. cbn [bind] in H.
      apply bind_ok in H. destruct H as ([ps cs] & Hrec & H).
      inversion H; subst. reflexivity.
  - inversion Hrs as [|? ? Hr Hrs']; subst.
    cbn [concat] in H. rewrite <- app_assoc in H.
    destruct n as [|n]; cbn [read_binary] in H.
    + inversion H; subst. cbn in Hlt. lia.
    + unfold read in H.
      replace (length (firstn 12 (r ++ concat rs ++ tail)) =? 12)%nat with true in H
        by (symmetry; apply Nat.eqb_eq; rewrite length_firstn, length_app; lia).
      apply bind_ok in H. destruct H as (point & Hpt & H).
      assert (length r = record_size inf) as Hrec by (unfold record_size; rewrite Hc; exact Hr).
      destruct (binary_color_record inf r (concat rs ++ tail) Hrec) as (c & Hbc).
      rewrite Hbc in H. cbn [bind] in H.
      apply bind_ok in H. destruct H as ([ps cs] & Hrd & H).
      inversion H; subst. cbn [length nth_error] in Hlt |- *.
      eapply IH; eauto. lia.
Qed.

Lemma loaded_as_parse : forall content pts cols inf,
  loaded_as content pts cols inf ->
  exists limit, parse_ply limit content = Ok (pts, cols, inf).
Proof.
  intros content pts cols inf
    [(fs & filename & self & self' & Hfs & Hl & Hp & Hc & Hi)|(fs & path & m & Hfs & Hl)].
  - exists (fun n => n). unfold load_ply_file in Hl. rewrite Hfs in Hl.
    destruct (parse_ply (fun n => n) content) as [[[p c] i]|e|]; try discriminate.
    inversion Hl; subst self'. cbn [points colors info] in Hp, Hc, Hi. congruence.
  - exists (fun n => Z.min n m). unfold load_ply_real in Hl. rewrite Hfs in Hl.
    destruct (parse_ply (fun n => Z.min n m) content) as [r|e|]; try discriminate.
    congruence.
Qed.

(** C9: after a successful load, by [load_ply_file] or by
    [load_ply_real], the colors have the length of the points, and they
    are all the default gray when the header declares none of red, green
    and blue. In the colors that were loaded, the entry at the index of a
    record without color data is the default gray: in an ASCII body, at
    the index of a line of fewer than six tokens; in a binary body with
    colors, at the index of the record that the end of the file cuts
    before its three color octets, when that record was read. *)
Theorem colors_parallel_to_points :
  (forall fs filename self self',
      load_ply_file fs filename self = Ok (true, self') ->
      exists pts cols inf,
        points self' = Some pts /\ colors self' = Some cols /\ info self' = Some inf
        /\ length cols = length pts
        /\ (has_color inf = false -> Forall (eq gray) cols))
  /\ (forall fs file_path max_points pts cols inf,
      load_ply_real fs file_path max_points = Ok (Some (pts, cols, inf)) ->
      length cols = length pts
      /\ (has_color inf = false -> Forall (eq gray) cols))
  /\ (forall content pts cols inf body i raw line,
      loaded_as content pts cols inf ->
      read_header content = Ok (inf, body) ->
      str_eqb (format_type inf) (lit "ascii") = true ->
      nth_error (lines body) i = Some raw ->
      (i < length cols)%nat ->
      decode raw = Ok line ->
      (length (split (strip line)) < 6)%nat ->
      nth_error cols i = Some gray)
  /\ (forall content pts cols inf records tail,
      loaded_as content pts cols inf ->
      read_header content = Ok (inf, concat records ++ tail) ->
      str_eqb (format_type inf) (lit "ascii") = false ->
      has_color inf = true ->
      Forall (fun r => length r = 15%nat) records ->
      (12 <= length tail < 15)%nat ->
      (length records < length pts)%nat ->
      nth_error cols (length records) = Some gray).
Proof.
  split; [|split; [|split]].
  - intros fs filename self self' H.
    apply load_true_inv in H. destruct H as (content & pts & cols & inf & _ & Hp & ->).
    exists pts, cols, inf. simpl. repeat split; try reflexivity;
      apply parse_ply_parallel in Hp; tauto.
  - unfold load_ply_real. intros fs file_path max_points pts cols inf H.
    destruct (fs file_path) as [content|]; [|discriminate].
    destruct (parse_ply (fun n => Z.min n max_points) content) as [r|e|] eqn:E;
      try discriminate.
    inversion H; subst. eapply parse_ply_parallel; eauto.
  - intros content pts cols inf body i raw line Hl Hh Hf Hn Hi Hd Hs.
    apply loaded_as_parse in Hl. destruct Hl as (limit & Hp).
    unfold parse_ply in Hp. rewrite Hh in Hp. cbn [bind] in Hp. rewrite Hf in Hp.
    apply bind_ok in Hp. destruct Hp as ([ps cs] & Hb & Hp).
    inversion Hp; subst. eapply read_ascii_short_line; eauto.
  - intros content pts cols inf records tail Hl Hh Hf Hc Hrs Ht Hlt.
    apply loaded_as_parse in Hl. destruct Hl as (limit & Hp).
    unfold parse_ply in Hp. rewrite Hh in Hp. cbn [bind] in Hp. rewrite Hf in Hp.
    apply bind_ok in Hp. destruct Hp as ([ps cs] & Hb & Hp).
    inversion Hp; subst. eapply read_binary_cut_color; eauto.
Qed.

(** ** Complete records *)

Lemma read_binary_records : forall inf records n tail,
  Forall (fun r => length r = record_size inf) records ->
  (length tail < 12)%nat ->
  (length records <= n)%nat ->
  exists pts cols,
    read_binary n inf (concat records ++ tail) = Ok (pts, cols)
    /\ Forall2 (fun r p => unpack_fff sys_byteorder (firstn 12 r) = Ok p) records pts
    /\ length cols = length records.
Proof.
  intros inf. induction records as [|r records IH]; intros n tail Hall Ht Hn.
  - exists [], []. cbn [concat app]. rewrite read_binary_short by exact Ht. auto.
  - destruct n as [|n]; [cbn in Hn; lia|].
    inversion Hall as [|? ? Hr Hrs]; subst.
    assert (12 <= length r)%nat as Hr12 by (unfold record_size in Hr; destruct (has_color inf); lia).
    cbn [concat read_binary]. unfold read. rewrite <- app_assoc.
    assert (firstn 12 (r ++ concat records ++ tail) = firstn 12 r) as Hf.
    { rewrite firstn_app. replace (12 - length r)%nat with 0%nat by lia.
      rewrite firstn_O, app_nil_r. reflexivity. }
    rewrite Hf.
    assert (length (firstn 12 r) = 12%nat) as Hl by (rewrite length_firstn; lia).
    rewrite Hl. cbn [Nat.eqb].
    destruct (unpack_fff_ok sys_byteorder _ Hl) as (p & Hp). rewrite Hp. cbn [bind].
    destruct (binary_color_record inf r (concat records ++ tail) Hr) as (c & Hc).
    rewrite Hc. cbn [bind].
    destruct (IH n tail Hrs Ht) as (pts & cols & Hrec & Hpos & Hlen); [cbn in Hn; lia|].
    rewrite Hrec. cbn [bind].
    exists (p :: pts), (c :: cols). split; [reflexivity|]. split.
    + constructor; assumption.
    + cbn. congruence.
Qed.

(** C2: a binary file with a valid magic line and a header that declares
    [N] vertices, whose body stops after [K < N] complete point records
    (and fewer than twelve further octets), loads without error and gives
    exactly [K] points: the positions of the [K] records, in order. *)
Theorem truncated_binary_loads : forall fs filename self content inf body records tail,
  fs filename = Some content ->
  read_header content = Ok (inf, body) ->
  str_eqb (format_type inf) (lit "ascii") = false ->
  body = concat records ++ tail ->
  Forall (fun r => length r = record_size inf) records ->
  (length tail < 12)%nat ->
  Z.of_nat (length records) < num_points inf ->
  exists pts cols,
    load_ply_file fs filename self
    = Ok (true,
          {| current_ply_file := Some filename; points := Some pts;
             colors := Some cols; info := Some inf;
             is_connected := is_connected self; streaming := streaming self |})
    /\ length pts = length records
    /\ length cols = length records
    /\ Forall2 (fun r p => unpack_fff sys_byteorder (firstn 12 r) = Ok p) records pts.
Proof.
  intros fs filename self content inf body records tail Hfs Hh Hfmt -> Hall Ht HK.
  destruct (read_binary_records inf records (Z.to_nat (num_points inf)) tail Hall Ht)
    as (pts & cols & Hrec & Hpos & Hlen); [lia|].
  exists pts, cols. unfold load_ply_file, parse_ply.
  rewrite Hfs, Hh. cbn [bind]. rewrite Hfmt, Hrec. cbn [bind].
  split; [reflexivity|]. split; [|split; [exact Hlen|exact Hpos]].
  symmetry. eapply Forall2_length. exact Hpos.
Qed.


(** ** The header that the writer emits *)

Lemma element_vertex_line : forall n inf,
  py_int (decimal (Z.of_nat n)) = Some (Z.of_nat n) ->
  let l := encode_ascii (lit "element vertex " ++ decimal (Z.of_nat n)) in
  forallb not_nl l = true
  /\ decode (l ++ [NL]) = Ok ((lit "element vertex " ++ decimal (Z.of_nat n)) ++ [10%N])
  /\ strip ((lit "element vertex " ++ decimal (Z.of_nat n)) ++ [10%N])
     = lit "element vertex " ++ decimal (Z.of_nat n)
  /\ header_line inf (split (lit "element vertex " ++ decimal (Z.of_nat n)))
     = Ok {| num_points := Z.of_nat n; num_faces := num_faces inf;
             has_color := has_color inf; format_type := format_type inf;
             properties := properties inf |}.
Proof.
  intros n inf Hint. destruct (decimal_digits n) as [Hne Hdig].
  set (D := decimal (Z.of_nat n)) in *.
  assert (forallb not_space D = true) as Hsp
    by (eapply forallb_weaken; [apply digit_not_space|exact Hdig]).
  cbv zeta. split; [|split; [|split]].
  - unfold encode_ascii. rewrite map_app, forallb_app. apply andb_true_iff. split.
    + reflexivity.
    + rewrite forallb_map_comp. eapply forallb_weaken; [|exact Hdig].
      intros c Hc. apply digit_not_nl. exact Hc.
  - unfold decode.
    change [NL] with (encode_ascii [10%N]). unfold encode_ascii. rewrite <- map_app.
    fold (encode_ascii ((lit "element vertex " ++ D) ++ [10%N])).
    rewrite utf8_decode_ascii; [reflexivity|].
    rewrite !forallb_app.
    repeat (apply andb_true_iff; split); try reflexivity.
    eapply forallb_weaken; [apply digit_ascii|exact Hdig].
  - destruct (rev D) as [|d t] eqn:Erev.
    { apply (f_equal (@rev N)) in Erev. rewrite rev_involutive in Erev. cbn in Erev.
      congruence. }
    assert (isspace d = false) as Hd.
    { assert (forallb not_space (rev D) = true) as Hr.
      { rewrite forallb_forall in Hsp |- *. intros x Hx. apply Hsp.
        apply in_rev. exact Hx. }
      rewrite Erev in Hr. apply (forallb_not_space_head _ _ Hr). }
    change (lit "element vertex " ++ D)
      with (101%N :: (lit "lement vertex " ++ D)).
    eapply strip_line with (d := d); [reflexivity|exact Hd|].
    change (101%N :: lit "lement vertex " ++ D) with (lit "element vertex " ++ D).
    rewrite rev_app_distr, Erev. reflexivity.
  - change (lit "element vertex " ++ D)
      with (lit "element" ++ 32%N :: (lit "vertex" ++ 32%N :: D)).
    rewrite split_token by (try discriminate; reflexivity).
    rewrite split_token by (try discriminate; reflexivity).
    rewrite (split_last D Hne Hsp).
    cbn. unfold int. rewrite Hint. reflexivity.
Qed.

Lemma read_written_header : forall n body,
  py_int (decimal (Z.of_nat n)) = Some (Z.of_nat n) ->
  read_header (ply_header (Z.of_nat n) ++ body)
  = Ok (written_info (Z.of_nat n), body).
Proof.
  intros n body Hint. unfold ply_header.
  repeat rewrite <- app_assoc. cbn [app].
  unfold read_header.
  rewrite (readline_line (blit "ply") _ eq_refl).
  change (decode (blit "ply" ++ [NL])) with (Ok (lit "ply" ++ [10%N])). cbn [bind].
  change (negb (str_eqb (strip (lit "ply" ++ [10%N])) (lit "ply"))) with false.
  cbv iota.
  (* nine lines are left: nine passes of the loop are enough *)
  match goal with
  | |- parse_header (length ?f) _ ?f = _ =>
      rewrite (parse_header_fuel_eq
                 (length f) (S (S (S (S (S (S (S (S (S (length f))))))))))
                 info0 f (le_n _) ltac:(lia))
  end.
  erewrite parse_header_line; [|reflexivity|reflexivity|reflexivity|reflexivity].
  destruct (element_vertex_line n
              {| num_points := 0; num_faces := 0; has_color := false;
                 format_type := lit "binary_little_endian"; properties := [] |} Hint)
    as (Hnl & Hdec & Hstrip & Hline).
  erewrite parse_header_line; [|exact Hnl|exact Hdec| | ].
  2:{ rewrite Hstrip. reflexivity. }
  2:{ rewrite Hstrip. exact Hline. }
  do 6 (erewrite parse_header_line; [|reflexivity|reflexivity|reflexivity|reflexivity]).
  apply parse_header_end.
Qed.


(** ** Writing, then reading *)

Lemma write_read_record : forall v rec more n inf,
  sys_byteorder = LittleEndian ->
  has_color inf = true ->
  (pos <- pack_fff (position v) ;;
   col <- pack_BBB (Z_of_byte (vr v)) (Z_of_byte (vg v)) (Z_of_byte (vb v)) ;;
   Ok (pos ++ col)) = Ok rec ->
  f32_point (read_position v)
  /\ read_binary (S n) inf (rec ++ more)
     = ('(pts, cols) <- read_binary n inf more ;;
        Ok (read_position v :: pts, read_color v :: cols)).
Proof.
  intros v rec more n inf Hle Hc H.
  apply bind_ok in H. destruct H as (pos & Hpos & H).
  rewrite pack_BBB_bytes in H. cbn [bind] in H. inversion H; subst rec. clear H.
  unfold position, pack_fff in Hpos.
  apply bind_ok in Hpos. destruct Hpos as (bx & Hpx & Hpos).
  apply bind_ok in Hpos. destruct Hpos as (b_y & Hpy & Hpos).
  apply bind_ok in Hpos. destruct Hpos as (bz & Hpz & Hpos).
  inversion Hpos; subst pos. clear Hpos.
  split.
  { unfold read_position, f32_point.
    repeat split; eapply to_float32_is_f32; eassumption. }
  unfold read_position, to_float32. rewrite Hpx, Hpy, Hpz.
  destruct (pack_f_four _ _ Hpx) as (x0 & x1 & x2 & x3 & ->).
  destruct (pack_f_four _ _ Hpy) as (y0 & y1 & y2 & y3 & ->).
  destruct (pack_f_four _ _ Hpz) as (z0 & z1 & z2 & z3 & ->).
  cbn [app read_binary read firstn skipn length Nat.eqb].
  unfold unpack_fff. cbn [length Nat.eqb firstn skipn bind].
  rewrite Hle.
  unfold binary_color. rewrite Hc. cbn [read firstn skipn length Nat.eqb unpack_BBB bind].
  rewrite normalized_bytes. cbn [bind]. reflexivity.
Qed.

Lemma write_read_points : forall vs body n inf,
  sys_byteorder = LittleEndian ->
  has_color inf = true ->
  write_points vs = Ok body ->
  (length vs <= n)%nat ->
  Forall f32_point (map read_position vs)
  /\ read_binary n inf body = Ok (map read_position vs, map read_color vs).
Proof.
  induction vs as [|v vs IH]; intros body n inf Hle Hc Hw Hn.
  - inversion Hw; subst. split; [constructor|]. apply read_binary_short. cbn. lia.
  - destruct n as [|n]; [cbn in Hn; lia|].
    cbn [write_points] in Hw.
    apply bind_ok in Hw. destruct Hw as (pos & Hpos & Hw).
    apply bind_ok in Hw. destruct Hw as (col & Hcol & Hw).
    apply bind_ok in Hw. destruct Hw as (more & Hmore & Hw).
    inversion Hw; subst body. clear Hw.
    destruct (IH more n inf Hle Hc Hmore) as (Hf & Hr); [cbn in Hn; lia|].
    destruct (write_read_record v (pos ++ col) more n inf Hle Hc) as (Hp & Hread).
    { rewrite Hpos, Hcol. reflexivity. }
    split; [cbn [map]; constructor; assumption|].
    rewrite app_assoc, Hread, Hr. reflexivity.
Qed.

(** C3, as the code has it: a set of vertices with a color per vertex
    that the binary writer can write, read back by [load_ply_file] on a
    little-endian host, comes back with the same count, with each
    coordinate converted to a 32-bit float (a double that holds a
    binary32 value: the original itself when that is a 32-bit float), and
    with colors within 1/255 of the octets that were written. *)
Theorem write_then_load : forall vs content,
  sys_byteorder = LittleEndian ->
  py_int (decimal (Z.of_nat (length vs))) = Some (Z.of_nat (length vs)) ->
  create_test_ply vs = Ok content ->
  exists cols,
    (forall fs filename self,
        fs filename = Some content ->
        load_ply_file fs filename self
        = Ok (true,
              {| current_ply_file := Some filename;
                 points := Some (map read_position vs);
                 colors := Some cols;
                 info := Some (written_info (Z.of_nat (length vs)));
                 is_connected := is_connected self;
                 streaming := streaming self |}))
    /\ length (map read_position vs) = length vs
    /\ Forall f32_point (map read_position vs)
    /\ (Forall exact_position vs -> map read_position vs = map position vs)
    /\ Forall2 color_close vs cols.
Proof.
  intros vs content Hle Hint Hw. unfold create_test_ply in Hw.
  apply bind_ok in Hw. destruct Hw as (body & Hbody & Hw).
  assert (content = ply_header (Z.of_nat (length vs)) ++ body) as -> by congruence.
  clear Hw.
  destruct (write_read_points vs body (length vs) (written_info (Z.of_nat (length vs)))
              Hle eq_refl Hbody (le_n _)) as (Hf & Hr).
  exists (map read_color vs).
  split; [|split; [|split; [|split]]].
  - intros fs filename self Hfs. unfold load_ply_file, parse_ply.
    rewrite Hfs, (read_written_header _ body Hint). cbn [bind].
    change (str_eqb (format_type (written_info (Z.of_nat (length vs)))) (lit "ascii"))
      with false.
    cbv iota. change (num_points (written_info (Z.of_nat (length vs))))
      with (Z.of_nat (length vs)).
    rewrite Nat2Z.id, Hr. reflexivity.
  - apply length_map.
  - exact Hf.
  - intros Hex. clear - Hex. induction Hex as [|v vs (Hx & Hy & Hz) _ IH]; [reflexivity|].
    cbn [map]. rewrite IH. f_equal. unfold read_position, position.
    rewrite !to_float32_exact by assumption. reflexivity.
  - clear. induction vs as [|v vs IH]; constructor; [|exact IH].
    unfold color_close, read_color. repeat split; apply byte_fraction_close.
Qed.


(* ================================================================= *)
(** * Properties of the simulator *)

(** ** Connection *)

(** C7, as the code has it: [disconnect_hardware] clears [is_connected]
    and [streaming] and leaves the loaded file, the points, the colors and
    the header information in place. *)
Theorem disconnect_keeps_loaded_data : forall self,
  is_connected (disconnect_hardware self) = false
  /\ streaming (disconnect_hardware self) = false
  /\ current_ply_file (disconnect_hardware self) = current_ply_file self
  /\ points (disconnect_hardware self) = points self
  /\ colors (disconnect_hardware self) = colors self
  /\ info (disconnect_hardware self) = info self.
Proof. intros self. repeat split. Qed.

(** C8: on a simulator that is not connected, the generator of
    [start_data_stream] ends at its first [next] with [return False]: the
    iteration gives no packet and the simulator, [streaming] included, is
    the one of before; [HardwareStreamThread.run] emits the error status
    and nothing else. *)
Theorem start_requires_connection : forall self points_per_packet delay_ms fuel,
  is_connected self = false ->
  gen_next self (GenCreated points_per_packet delay_ms)
    = (Return (Some false), self, GenFinished)
  /\ drain (S fuel) self (GenCreated points_per_packet delay_ms)
     = Some ([], Returned (Some false), self)
  /\ thread_run fuel self points_per_packet delay_ms
     = Some ([status_update StatusNotConnected], self).
Proof.
  intros self P d fuel H. unfold thread_run. simpl. rewrite H. simpl. auto.
Qed.


(** ** The wire format of [points_to_bytes] *)

Lemma points_to_bytes_from_cons : forall i point rest cols,
  points_to_bytes_from i (point :: rest) cols
  = (rec <- record_bytes point (supplied cols i) ;;
     more <- points_to_bytes_from (S i) rest cols ;;
     Ok (rec ++ more)).
Proof.
  intros i point rest cols. cbn [points_to_bytes_from]. unfold record_bytes, supplied.
  destruct (pack_fff point) as [pos| |]; cbn [bind]; try reflexivity.
  destruct cols as [cs|].
  - destruct (nth_error cs i) as [c|].
    + destruct (color_bytes c) as [col| |]; cbn [bind]; try reflexivity.
      destruct (points_to_bytes_from (S i) rest (Some cs)); cbn [bind]; try reflexivity.
      rewrite app_assoc. reflexivity.
    + destruct (pack_BBB 128 128 128) as [col| |]; cbn [bind]; try reflexivity.
      destruct (points_to_bytes_from (S i) rest (Some cs)); cbn [bind]; try reflexivity.
      rewrite app_assoc. reflexivity.
  - destruct (pack_BBB 128 128 128) as [col| |]; cbn [bind]; try reflexivity.
    destruct (points_to_bytes_from (S i) rest None); cbn [bind]; try reflexivity.
    rewrite app_assoc. reflexivity.
Qed.

Lemma color_bytes_total : forall c, color_bytes c <> Hang.
Proof.
  intros [[c0 c1] c2]. unfold color_bytes.
  repeat (apply bind_total; [apply int_of_float_total|intros ?]).
  apply pack_BBB_total.
Qed.

Lemma points_to_bytes_total : forall pts i cols, points_to_bytes_from i pts cols <> Hang.
Proof.
  induction pts as [|p pts IH]; intros i cols; [discriminate|].
  cbn [points_to_bytes_from].
  apply bind_total; [apply pack_fff_total|intros pos].
  apply bind_total.
  - destruct cols as [cs|]; [destruct (nth_error cs i)|];
      auto using color_bytes_total, pack_BBB_total.
  - intros col. apply bind_total; [apply IH|discriminate].
Qed.

Lemma bits32_wire_float : forall x w, bits32_of_float x = Ok w -> wire_float x w.
Proof.
  intros x w H. destruct x; try exact H.
  cbn [bits32_of_float] in H. inversion H; subst w.
  split; [lia|reflexivity].
Qed.

Lemma record_bytes_wire : forall point color rec,
  record_bytes point color = Ok rec ->
  length rec = 15%nat /\ wire_record point color rec.
Proof.
  unfold record_bytes, wire_record. intros [[x y] z] color rec H.
  apply bind_ok in H. destruct H as (pos & Hpos & H).
  apply bind_ok in H. destruct H as (col & Hcol & H).
  inversion H; subst. clear H.
  unfold pack_fff in Hpos.
  apply bind_ok in Hpos. destruct Hpos as (bx & Hx & Hpos).
  apply bind_ok in Hpos. destruct Hpos as (b_y & Hy & Hpos).
  apply bind_ok in Hpos. destruct Hpos as (bz & Hz & Hpos).
  inversion Hpos; subst. clear Hpos.
  apply pack_f_inv in Hx. destruct Hx as (wx & Hx & ->).
  apply pack_f_inv in Hy. destruct Hy as (wy & Hy & ->).
  apply pack_f_inv in Hz. destruct Hz as (wz & Hz & ->).
  assert (exists r g b,
             (0 <= r <= 255 /\ 0 <= g <= 255 /\ 0 <= b <= 255)
             /\ col = [byte_of_Z r; byte_of_Z g; byte_of_Z b]
             /\ match color with
                | Some (c0, c1, c2) =>
                    int_of_float (float_mul_int c0 255) = Ok r
                    /\ int_of_float (float_mul_int c1 255) = Ok g
                    /\ int_of_float (float_mul_int c2 255) = Ok b
                | None => r = 128 /\ g = 128 /\ b = 128
                end) as (r & g & b & Hr & -> & Hc).
  { destruct color as [[[c0 c1] c2]|].
    - unfold color_bytes in Hcol.
      apply bind_ok in Hcol. destruct Hcol as (r & Hr & Hcol).
      apply bind_ok in Hcol. destruct Hcol as (g & Hg & Hcol).
      apply bind_ok in Hcol. destruct Hcol as (b & Hb & Hcol).
      apply pack_BBB_inv in Hcol. exists r, g, b. intuition.
    - apply pack_BBB_inv in Hcol. exists 128, 128, 128. intuition. }
  split.
  - rewrite !length_app, !le_bytes_length. reflexivity.
  - exists wx, wy, wz, r, g, b. rewrite <- !app_assoc.
    pose proof (bits32_wire_float _ _ Hx). pose proof (bits32_wire_float _ _ Hy).
    pose proof (bits32_wire_float _ _ Hz). intuition.
Qed.

Lemma points_to_bytes_from_wire : forall pts i cols bs,
  points_to_bytes_from i pts cols = Ok bs ->
  length bs = (15 * length pts)%nat
  /\ forall j point,
       nth_error pts j = Some point ->
       wire_record point (supplied cols (i + j)) (firstn 15 (skipn (15 * j) bs)).
Proof.
  induction pts as [|p pts IH]; intros i cols bs H.
  - inversion H; subst. split; [reflexivity|]. intros [|j] point Hj; discriminate.
  - rewrite points_to_bytes_from_cons in H.
    apply bind_ok in H. destruct H as (rec & Hrec & H).
    apply bind_ok in H. destruct H as (more & Hmore & H).
    inversion H; subst. clear H.
    apply record_bytes_wire in Hrec. destruct Hrec as [Hlen Hw].
    apply IH in Hmore. destruct Hmore as [Hlm Hj].
    split.
    + rewrite length_app. cbn [length]. lia.
    + intros [|j] point Hn.
      * inversion Hn; subst. rewrite Nat.add_0_r. rewrite Nat.mul_0_r, skipn_O.
        rewrite firstn_app, Hlen, Nat.sub_diag, firstn_O, app_nil_r.
        rewrite <- Hlen, firstn_all. exact Hw.
      * cbn [nth_error] in Hn. apply Hj in Hn.
        replace (i + S j)%nat with (S i + j)%nat by lia.
        replace (15 * S j)%nat with (length rec + 15 * j)%nat by lia.
        rewrite skipn_app, skipn_all2 by lia.
        replace (length rec + 15 * j - length rec)%nat with (15 * j)%nat by lia.
        exact Hn.
Qed.

(** What a pass of the loop that yields has done. *)
Lemma loop_pass_yield : forall self i total sent P d p self' g',
  loop_pass self i total sent P d = (Yield p, self', g') ->
  in_range_loop i total P = true
  /\ streaming self = true
  /\ self' = self
  /\ g' = GenSuspended i total (sent + 1) P d
  /\ packet_id p = sent + 1
  /\ (progress p = progress_of (Z.min (i + P) total) total)
  /\ points_to_bytes (packet_points p) (packet_colors p) = Ok (raw_bytes p)
  /\ exists pts,
       points self = Some pts
       /\ packet_points p = slice pts i (Z.min (i + P) total)
       /\ packet_colors p
          = match colors self with
            | Some cs => Some (slice cs i (Z.min (i + P) total))
            | None => None
            end.
Proof.
  unfold loop_pass. intros self i total sent P d p self' g' H.
  destruct (in_range_loop i total P); [|discriminate].
  destruct (streaming self); [|discriminate]. cbn [negb] in H.
  destruct (points self) as [pts|]; [|discriminate].
  destruct (points_to_bytes _ _) as [data| |] eqn:E; try discriminate.
  inversion H; subst. cbn. repeat split; try reflexivity; try assumption.
  exists pts. auto.
Qed.

Lemma sleep_ms_accepts : forall d, 0 <= d <= sleep_limit -> sleep_ms d = None.
Proof.
  intros d H. unfold sleep_ms.
  assert ((d <? - sleep_limit) = false) as ->
    by (apply Z.ltb_ge; unfold sleep_limit in *; lia).
  assert ((sleep_limit <? d) = false) as -> by (apply Z.ltb_ge; lia).
  assert ((d <? 0) = false) as -> by (apply Z.ltb_ge; lia).
  reflexivity.
Qed.

Lemma gen_next_yield : forall self g p self' g',
  gen_next self g = (Yield p, self', g') ->
  points_to_bytes (packet_points p) (packet_colors p) = Ok (raw_bytes p).
Proof.
  intros self g p self' g' H. destruct g as [P d|i total sent P d|]; cbn in H.
  - destruct (is_connected self); [|discriminate]. cbn in H.
    destruct (points self) as [pts|] eqn:Ep; [|discriminate].
    destruct (P =? 0); [discriminate|].
    apply loop_pass_yield in H. tauto.
  - destruct (sleep_ms d); [discriminate|].
    apply loop_pass_yield in H. tauto.
  - discriminate.
Qed.

(** C5: in every packet that the generator yields, [raw_bytes] holds
    fifteen octets for each point of the slice: the three coordinates as
    little-endian binary32 values (a coordinate that is a NaN as a NaN,
    whose sign and payload are left open), then three unsigned octets,
    which are (128, 128, 128) where no color is supplied for the index.
    The header information of the file plays no part. *)
Theorem packet_wire_format : forall self g p self' g',
  gen_next self g = (Yield p, self', g') ->
  length (raw_bytes p) = (15 * length (packet_points p))%nat
  /\ forall j point,
       nth_error (packet_points p) j = Some point ->
       wire_record point (supplied (packet_colors p) j)
                   (firstn 15 (skipn (15 * j) (raw_bytes p))).
Proof.
  intros self g p self' g' H. apply gen_next_yield in H.
  unfold points_to_bytes in H. apply points_to_bytes_from_wire in H.
  exact H.
Qed.


(** ** Sets loaded from a binary body can be serialized *)

Lemma color_bytes_octet : forall c, octet_color c -> exists bs, color_bytes c = Ok bs.
Proof.
  intros c [-> | (r & g & b & ->)].
  - vm_compute. eauto.
  - unfold color_bytes. rewrite !byte_fraction_requantized. cbn [bind].
    rewrite pack_BBB_bytes. eauto.
Qed.

Lemma points_to_bytes_from_ok : forall pts i cols,
  Forall f32_point pts -> Forall octet_color cols ->
  exists whole, points_to_bytes_from i pts (Some cols) = Ok whole.
Proof.
  induction pts as [|p pts IH]; intros i cols Hp Hc.
  - exists []. reflexivity.
  - inversion Hp as [|? ? Hp1 Hps]; subst.
    destruct (pack_fff_f32 p Hp1) as (pos & Hpos).
    destruct (IH (S i) cols Hps Hc) as (more & Hmore).
    cbn [points_to_bytes_from]. rewrite Hpos, Hmore. cbn [bind].
    destruct (nth_error cols i) as [c|] eqn:E.
    + apply nth_error_In in E. rewrite Forall_forall in Hc.
      destruct (color_bytes_octet c (Hc c E)) as (col & Hcol).
      rewrite Hcol. cbn. eauto.
    + cbn. eauto.
Qed.

Lemma binary_color_octet : forall inf f1 c f2,
  binary_color inf f1 = Ok (c, f2) -> octet_color c.
Proof.
  unfold binary_color, read. intros inf f1 c f2 H.
  destruct (has_color inf); [|inversion H; left; reflexivity].
  destruct (length (firstn 3 f1) =? 3)%nat; [|inversion H; left; reflexivity].
  destruct (firstn 3 f1) as [|r [|g [|b [|? ?]]]]; try discriminate.
  cbn [unpack_BBB bind] in H. rewrite normalized_bytes in H. cbn [bind] in H.
  inversion H; subst. right. eauto.
Qed.

Lemma read_binary_serializable : forall n inf f pts cols,
  read_binary n inf f = Ok (pts, cols) ->
  Forall f32_point pts /\ Forall octet_color cols.
Proof.
  induction n as [|n IH]; intros inf f pts cols H; cbn [read_binary] in H.
  - inversion H; subst. auto.
  - unfold read in H.
    destruct (length (firstn 12 f) =? 12)%nat; [|eauto].
    apply bind_ok in H. destruct H as (p & Hp & H).
    apply bind_ok in H. destruct H as ([c f2] & Hc & H).
    apply bind_ok in H. destruct H as ([ps cs] & Hrec & H).
    inversion H; subst. apply IH in Hrec. destruct Hrec as [Hps Hcs].
    split; constructor; try assumption.
    + eapply unpack_fff_f32; eauto.
    + eapply binary_color_octet; eauto.
Qed.

(** After a successful load of a file that is not ASCII, every point and
    every color can be serialized: the stream of such a set cannot fail
    in [points_to_bytes], which is the one hypothesis on the data that
    running a stream to its end needs. *)
Lemma binary_load_serializable : forall fs filename self self' inf,
  load_ply_file fs filename self = Ok (true, self') ->
  info self' = Some inf ->
  str_eqb (format_type inf) (lit "ascii") = false ->
  exists pts whole,
    points self' = Some pts /\ points_to_bytes pts (colors self') = Ok whole.
Proof.
  intros fs filename self self' inf H Hinf Hfmt.
  apply load_true_inv in H. destruct H as (content & pts & cols & inf' & _ & Hp & ->).
  cbn in Hinf. inversion Hinf; subst inf'. clear Hinf.
  unfold parse_ply in Hp.
  apply bind_ok in Hp. destruct Hp as ([inf' f] & Hh & Hp).
  apply bind_ok in Hp. destruct Hp as ([ps cs] & Hb & Hp).
  inversion Hp; subst. rewrite Hfmt in Hb.
  apply read_binary_serializable in Hb. destruct Hb as [Hps Hcs].
  destruct (points_to_bytes_from_ok pts 0 cols Hps Hcs) as (whole & Hw).
  exists pts, whole. cbn. split; [reflexivity|exact Hw].
Qed.


(** ** Sequence ids and progress along one stream *)

Lemma fl_proper : rounding -> forall x y, (x == y)%Q -> (fl x == fl y)%Q.
Proof.
  intros R x y H. apply Qle_antisym; apply (fl_monotone R); rewrite H; apply Qle_refl.
Qed.

Lemma progress_of_monotone : rounding -> forall e1 e2 total,
  0 < total -> e1 <= e2 ->
  (progress_of e1 total <= progress_of e2 total)%Q.
Proof.
  intros R e1 e2 total Ht He. unfold progress_of.
  apply (fl_monotone R). apply Qmult_le_compat_r; [|discriminate].
  apply (fl_monotone R). unfold Qdiv. apply Qmult_le_compat_r.
  - rewrite <- Zle_Qle. exact He.
  - apply Qinv_le_0_compat. replace 0%Q with (inject_Z 0) by reflexivity.
    rewrite <- Zle_Qle. lia.
Qed.

Lemma progress_of_full : rounding -> forall total,
  0 < total -> (progress_of total total == 100)%Q.
Proof.
  intros R total Ht. unfold progress_of.
  assert (inject_Z total / inject_Z total == 1)%Q as H1.
  { unfold Qdiv. apply Qmult_inv_r. intros H.
    replace 0%Q with (inject_Z 0) in H by reflexivity.
    rewrite inject_Z_injective in H. lia. }
  assert (fl (inject_Z total / inject_Z total) * 100 == 100)%Q as H2.
  { rewrite (fl_proper R _ _ H1), (fl_one R). reflexivity. }
  rewrite (fl_proper R _ _ H2). apply (fl_hundred R).
Qed.

(** The packets that follow a [yield] at index [i]. *)
Lemma emits_suspended : rounding -> forall ps i total sent P d,
  0 < P -> 0 < total ->
  emits (GenSuspended i total sent P d) ps ->
  (forall k p, nth_error ps k = Some p -> packet_id p = sent + 1 + Z.of_nat k)
  /\ Sorted progress_le ps
  /\ (forall p, In p ps ->
        (progress_of (Z.min (i + P) total) total <= progress p)%Q).
Proof.
  intros R. induction ps as [|p ps IH]; intros i total sent P d HP Ht H.
  - split; [|split].
    + intros [|k] p Hk; discriminate.
    + constructor.
    + intros p [].
  - inversion H as [|g self p0 self' g' ps0 Hn He]; subst.
    cbn [gen_next] in Hn. destruct (sleep_ms d); [discriminate|].
    apply loop_pass_yield in Hn.
    destruct Hn as (Hin & _ & _ & -> & Hid & Hpr & _).
    apply IH in He; [|assumption|assumption].
    destruct He as (Hids & Hs & Hb).
    assert (progress_of (Z.min (i + P) total) total <= progress p)%Q as Hp.
    { rewrite Hpr. apply progress_of_monotone; [assumption|assumption|lia]. }
    split; [|split].
    + intros [|k] q Hk; cbn [nth_error] in Hk.
      * inversion Hk; subst. lia.
      * apply Hids in Hk. lia.
    + constructor; [exact Hs|].
      destruct ps as [|q ps]; constructor.
      unfold progress_le. rewrite Hpr. apply Hb. left. reflexivity.
    + intros q [<- | Hq]; [exact Hp|].
      eapply Qle_trans; [|apply Hb; exact Hq].
      apply progress_of_monotone; [assumption|assumption|lia].
Qed.

Lemma sorted_ids : forall ps start,
  (forall k p, nth_error ps k = Some p -> packet_id p = start + Z.of_nat k) ->
  Sorted id_lt ps.
Proof.
  induction ps as [|p ps IH]; intros start H; constructor.
  - apply (IH (start + 1)). intros k q Hk.
    rewrite (H (S k) q Hk). lia.
  - destruct ps as [|q ps]; constructor. unfold id_lt.
    rewrite (H 0%nat p eq_refl), (H 1%nat q eq_refl). lia.
Qed.

(** C6: along one stream, whatever happens to the simulator between two
    packets, the sequence ids are 1, 2, 3, ... (the first is 1 and they
    increase strictly) and the progress values never decrease. *)
Theorem stream_ids_and_progress : forall points_per_packet delay_ms ps,
  rounding ->
  emits (GenCreated points_per_packet delay_ms) ps ->
  (forall k p, nth_error ps k = Some p -> packet_id p = 1 + Z.of_nat k)
  /\ Sorted id_lt ps
  /\ Sorted progress_le ps.
Proof.
  intros P d ps R H.
  assert ((forall k p, nth_error ps k = Some p -> packet_id p = 1 + Z.of_nat k)
          /\ Sorted progress_le ps) as [Hids Hs].
  { inversion H as [|g self p self' g' ps0 Hn He]; subst.
    - split; [intros [|k] p Hk; discriminate | constructor].
    - cbn [gen_next] in Hn.
      destruct (is_connected self); [|discriminate]. cbn [negb] in Hn.
      destruct (points self) as [pts|]; [|discriminate].
      destruct (P =? 0) eqn:EP; [discriminate|]. apply Z.eqb_neq in EP.
      apply loop_pass_yield in Hn.
      destruct Hn as (Hin & _ & _ & -> & Hid & Hpr & _).
      unfold in_range_loop in Hin.
      assert (0 < P /\ 0 < Z.of_nat (length pts)) as [HP Ht].
      { destruct (0 <? P) eqn:E.
        - apply Z.ltb_lt in E. apply Z.ltb_lt in Hin. lia.
        - apply Z.ltb_lt in Hin. lia. }
      apply (emits_suspended R) in He; [|assumption|assumption].
      destruct He as (Hids & Hs & Hb).
      split.
      + intros [|k] q Hk; cbn [nth_error] in Hk.
        * inversion Hk; subst. lia.
        * apply Hids in Hk. lia.
      + constructor; [exact Hs|].
        destruct ps0 as [|q ps0]; constructor.
        unfold progress_le. rewrite Hpr. apply Hb. left. reflexivity. }
  split; [exact Hids|]. split; [|exact Hs].
  apply (sorted_ids ps 1). exact Hids.
Qed.


(** ** Running a stream to its end *)

Lemma drain_fuel_mono : forall fuel fuel' self g r,
  drain fuel self g = Some r -> (fuel <= fuel')%nat -> drain fuel' self g = Some r.
Proof.
  induction fuel as [|fuel IH]; intros fuel' self g r H Hle; [discriminate|].
  destruct fuel' as [|fuel']; [lia|].
  cbn [drain] in *.
  destruct (gen_next self g) as [[[p|v|e] s'] g']; try exact H.
  destruct (drain fuel s' g') as [[[ps e] s'']|] eqn:E; [|discriminate].
  rewrite (IH fuel' s' g' _ E); [exact H|lia].
Qed.

Lemma points_to_bytes_from_app : forall a b i cols,
  points_to_bytes_from i (a ++ b) cols
  = (x <- points_to_bytes_from i a cols ;;
     y <- points_to_bytes_from (i + length a) b cols ;;
     Ok (x ++ y)).
Proof.
  induction a as [|p a IH]; intros b i cols.
  - cbn [app length points_to_bytes_from bind]. rewrite Nat.add_0_r.
    destruct (points_to_bytes_from i b cols); reflexivity.
  - cbn [app length]. rewrite !points_to_bytes_from_cons, IH.
    replace (S i + length a)%nat with (i + S (length a))%nat by lia.
    destruct (record_bytes p (supplied cols i)) as [rec| |]; cbn [bind]; try reflexivity.
    destruct (points_to_bytes_from (S i) a cols) as [x| |]; cbn [bind]; try reflexivity.
    destruct (points_to_bytes_from (i + S (length a)) b cols) as [y| |]; cbn [bind];
      try reflexivity.
    rewrite app_assoc. reflexivity.
Qed.

Lemma supplied_slice : forall cols i j k,
  (k < Z.to_nat j - Z.to_nat i)%nat ->
  supplied (slice_colors cols i j) k = supplied cols (Z.to_nat i + k).
Proof.
  intros [cs|] i j k H; [|reflexivity].
  unfold slice_colors, supplied, slice.
  rewrite nth_error_firstn.
  replace (k <? Z.to_nat j - Z.to_nat i)%nat with true
    by (symmetry; apply Nat.ltb_lt; exact H).
  apply nth_error_skipn.
Qed.

Lemma points_to_bytes_from_slice : forall chunk cols i j k,
  (k + length chunk <= Z.to_nat j - Z.to_nat i)%nat ->
  points_to_bytes_from k chunk (slice_colors cols i j)
  = points_to_bytes_from (Z.to_nat i + k) chunk cols.
Proof.
  induction chunk as [|p chunk IH]; intros cols i j k H; [reflexivity|].
  cbn [length] in H. rewrite !points_to_bytes_from_cons.
  rewrite supplied_slice by lia. rewrite IH by lia.
  replace (Z.to_nat i + S k)%nat with (S (Z.to_nat i + k)) by lia. reflexivity.
Qed.

Lemma passes_step : forall total P j,
  0 < P -> j < total -> passes total P j = 1 + passes total P (j + P).
Proof.
  intros total P j HP Hj. unfold passes, ceil_div.
  replace (j <? total) with true by (symmetry; apply Z.ltb_lt; lia).
  destruct (j + P <? total) eqn:E.
  - apply Z.ltb_lt in E.
    replace (total - j + P - 1) with ((total - (j + P) + P - 1) + 1 * P) by lia.
    rewrite Z.div_add by lia. lia.
  - apply Z.ltb_ge in E.
    symmetry. apply Z.div_unique with (r := total - j - 1); lia.
Qed.

Lemma passes_nonneg : forall total P j, 0 < P -> 0 <= passes total P j.
Proof.
  intros total P j HP. unfold passes, ceil_div.
  destruct (j <? total) eqn:E; [|lia].
  apply Z.ltb_lt in E. apply Z.div_pos; lia.
Qed.

Lemma passes_zero : forall total P, 0 < P -> 0 <= total -> passes total P 0 = ceil_div total P.
Proof.
  intros total P HP Ht. unfold passes, ceil_div.
  destruct (0 <? total) eqn:E.
  - rewrite Z.sub_0_r. reflexivity.
  - apply Z.ltb_ge in E. assert (total = 0) as -> by lia.
    symmetry. apply Z.div_small. lia.
Qed.

Lemma drain_loop : forall self pts P d,
  streaming self = true -> points self = Some pts -> 0 < P ->
  0 <= d <= sleep_limit -> rounding ->
  forall fuel j sent rest,
    0 <= j ->
    points_to_bytes_from (Z.to_nat j) (skipn (Z.to_nat j) pts) (colors self) = Ok rest ->
    passes (Z.of_nat (length pts)) P j < Z.of_nat fuel ->
    exists ps,
      drain fuel self (GenSuspended (j - P) (Z.of_nat (length pts)) sent P d)
      = Some (ps, Returned None, self)
      /\ Z.of_nat (length ps) = passes (Z.of_nat (length pts)) P j
      /\ concat (map packet_points ps) = skipn (Z.to_nat j) pts
      /\ concat (map raw_bytes ps) = rest
      /\ (j < Z.of_nat (length pts) ->
          exists ps' p, ps = ps' ++ [p] /\ (progress p == 100)%Q).
Proof.
  intros self pts P d Hst Hpts HP Hd R.
  set (N := Z.of_nat (length pts)).
  induction fuel as [|fuel IH]; intros j sent rest Hj Hser Hfuel.
  - pose proof (passes_nonneg N P j HP). lia.
  - cbn [drain gen_next]. rewrite (sleep_ms_accepts d Hd).
    replace (j - P + P) with j by lia.
    unfold loop_pass, in_range_loop.
    replace (0 <? P) with true by (symmetry; apply Z.ltb_lt; exact HP).
    destruct (j <? N) eqn:EjN.
    + (* one more packet *)
      apply Z.ltb_lt in EjN.
      rewrite Hst, Hpts. cbn [negb].
      set (e := Z.min (j + P) N).
      assert (Z.to_nat j <= Z.to_nat e)%nat as Hje by (unfold e; lia).
      assert (Z.to_nat e <= length pts)%nat as HeN by (unfold e, N; lia).
      (* the set from [j] on is this chunk and the set from [e] on *)
      assert (skipn (Z.to_nat j) pts
              = slice pts j e ++ skipn (Z.to_nat e) pts) as Hsplit.
      { unfold slice.
        rewrite <- (firstn_skipn (Z.to_nat e - Z.to_nat j) (skipn (Z.to_nat j) pts)) at 1.
        rewrite skipn_skipn. f_equal. f_equal. lia. }
      assert (length (slice pts j e) = (Z.to_nat e - Z.to_nat j)%nat) as Hlen.
      { unfold slice. rewrite length_firstn, length_skipn. lia. }
      rewrite Hsplit, points_to_bytes_from_app in Hser.
      apply bind_ok in Hser. destruct Hser as (cb & Hcb & Hser).
      apply bind_ok in Hser. destruct Hser as (rest2 & Hrest2 & Hser).
      inversion Hser; subst rest. clear Hser.
      rewrite Hlen in Hrest2.
      replace (Z.to_nat j + (Z.to_nat e - Z.to_nat j))%nat with (Z.to_nat e) in Hrest2 by lia.
      assert (points_to_bytes (slice pts j e)
                match colors self with
                | Some cs => Some (slice cs j e)
                | None => None
                end = Ok cb) as Hpkt.
      { unfold points_to_bytes.
        change (points_to_bytes_from 0 (slice pts j e) (slice_colors (colors self) j e) = Ok cb).
        rewrite points_to_bytes_from_slice by (rewrite Hlen; lia).
        rewrite Nat.add_0_r. exact Hcb. }
      fold N. fold e. rewrite Hpkt.
      (* what follows *)
      assert (skipn (Z.to_nat (j + P)) pts = skipn (Z.to_nat e) pts) as Hnext.
      { unfold e. destruct (Z.min_spec (j + P) N) as [[_ ->] | [Hge ->]]; [reflexivity|].
        rewrite !skipn_all2; [reflexivity| unfold N; lia | unfold N in *; lia]. }
      assert (points_to_bytes_from (Z.to_nat (j + P)) (skipn (Z.to_nat (j + P)) pts)
                                   (colors self) = Ok rest2) as Hser'.
      { unfold e in *. destruct (Z.min_spec (j + P) N) as [[_ Hm] | [Hge Hm]];
          rewrite Hm in *; [exact Hrest2|].
        rewrite Hnext. rewrite skipn_all2 in Hrest2 |- * by (unfold N; lia).
        cbn in Hrest2 |- *. exact Hrest2. }
      pose proof (passes_step N P j HP EjN) as Hstep.
      destruct (IH (j + P) (sent + 1) rest2) as (ps & Hdr & Hn & Hc & Hraw & Hlast);
        [lia | exact Hser' | lia |].
      replace (j + P - P) with j in Hdr by lia.
      rewrite Hdr.
      eexists. split; [reflexivity|].
      cbn [length map concat packet_points raw_bytes].
      split; [lia|]. split; [rewrite Hc, Hnext, Hsplit; reflexivity|].
      split; [rewrite Hraw; reflexivity|].
      intros _. destruct (Z_lt_ge_dec (j + P) N) as [Hlt | Hge].
      * destruct (Hlast Hlt) as (ps' & q & -> & Hq).
        eexists (_ :: ps'), q. split; [reflexivity|exact Hq].
      * assert (ps = []) as ->.
        { unfold passes in Hn. replace (j + P <? N) with false in Hn
            by (symmetry; apply Z.ltb_ge; lia).
          destruct ps; [reflexivity|cbn in Hn; lia]. }
        eexists [], _. split; [reflexivity|].
        cbn [progress]. unfold e. rewrite Z.min_r by lia.
        apply progress_of_full; [exact R|lia].
    + (* the range is exhausted *)
      apply Z.ltb_ge in EjN.
      rewrite skipn_all2 in Hser |- * by (unfold N in EjN; lia).
      inversion Hser; subst rest.
      exists []. unfold passes. replace (j <? N) with false by (symmetry; apply Z.ltb_ge; lia).
      repeat split; try reflexivity. lia.
Qed.

Lemma drain_created : forall fuel self pts P d,
  is_connected self = true -> points self = Some pts -> 0 < P ->
  0 <= d <= sleep_limit ->
  drain (S fuel) self (GenCreated P d)
  = drain (S fuel) (started self) (GenSuspended (0 - P) (Z.of_nat (length pts)) 0 P d).
Proof.
  intros fuel self pts P d Hc Hp HP Hd. unfold started. cbn [drain gen_next].
  rewrite Hc, Hp. cbn [negb].
  replace (P =? 0) with false by (symmetry; apply Z.eqb_neq; lia).
  rewrite (sleep_ms_accepts d Hd).
  replace (0 - P + P) with 0 by lia. reflexivity.
Qed.

(** C1, as the code has it: on a connected simulator whose loaded points
    can all be serialized, with a packet size [P > 0], a delay that
    [time.sleep] accepts (not negative and at most [sleep_limit]
    milliseconds) and no stop request, iterating the generator to its end
    gives
    exactly [ceil(N / P)] packets, none when [N = 0]; the point slices of
    the packets, concatenated in order, are the loaded points (and the
    [raw_bytes], concatenated, the serialization of the whole set); when
    [N > 0] the last packet has progress 100. *)
Theorem packetization_complete : forall self pts points_per_packet delay_ms whole,
  rounding ->
  is_connected self = true ->
  points self = Some pts ->
  0 < points_per_packet ->
  0 <= delay_ms <= sleep_limit ->
  points_to_bytes pts (colors self) = Ok whole ->
  exists ps,
    (forall fuel,
        ceil_div (Z.of_nat (length pts)) points_per_packet < Z.of_nat fuel ->
        drain fuel self (GenCreated points_per_packet delay_ms)
        = Some (ps, Returned None, started self))
    /\ Z.of_nat (length ps) = ceil_div (Z.of_nat (length pts)) points_per_packet
    /\ concat (map packet_points ps) = pts
    /\ concat (map raw_bytes ps) = whole
    /\ (pts <> [] -> exists ps' p, ps = ps' ++ [p] /\ (progress p == 100)%Q).
Proof.
  intros self pts P d whole R Hc Hp HP Hd Hser.
  set (N := Z.of_nat (length pts)).
  assert (0 <= ceil_div N P) as Hcd.
  { rewrite <- passes_zero by (unfold N; lia). apply passes_nonneg. exact HP. }
  destruct (drain_loop (started self) pts P d eq_refl Hp HP Hd R
              (S (Z.to_nat (ceil_div N P))) 0 0 whole)
    as (ps & Hdr & Hn & Hcat & Hraw & Hlast).
  - lia.
  - exact Hser.
  - fold N. rewrite passes_zero by (unfold N; lia). lia.
  - fold N in Hdr, Hn, Hlast. rewrite passes_zero in Hn by (unfold N; lia).
    exists ps. split; [|split; [exact Hn|split; [exact Hcat|split; [exact Hraw|]]]].
    + intros fuel Hf.
      apply drain_fuel_mono with (fuel := S (Z.to_nat (ceil_div N P))); [|lia].
      rewrite (drain_created _ self pts P d Hc Hp HP Hd). exact Hdr.
    + intros Hne. apply Hlast. unfold N. destruct pts; [congruence|cbn; lia].
Qed.

(* ================================================================= *)
(** * Further properties of the simulator *)


(** ** The exceptions of [points_to_bytes] *)

Lemma bind_raise : forall (A B : Type) (r : result A) (k : A -> result B) e,
  bind r k = Raise e -> r = Raise e \/ exists a, r = Ok a /\ k a = Raise e.
Proof.
  intros A B [a|e'|] k e H; cbn in H; [right; eauto| |discriminate].
  left. inversion H. reflexivity.
Qed.

Lemma bits32_of_float_raise : forall x e, bits32_of_float x = Raise e -> struct_error e.
Proof.
  intros x e H. destruct x as [s|s| |s m e']; cbn [bits32_of_float] in H; try discriminate.
  destruct (binary_round 24 128 s m e') as [s'|s'| |s' m' e'']; try discriminate.
  - inversion H. left. reflexivity.
  - destruct (Z.pos (digits2_pos m') =? 24); discriminate.
Qed.

Lemma pack_f_raise : forall x e, pack_f x = Raise e -> struct_error e.
Proof.
  unfold pack_f. intros x e H.
  apply bind_raise in H. destruct H as [H|(w & _ & H)]; [|discriminate].
  eapply bits32_of_float_raise; eauto.
Qed.

Lemma pack_fff_raise : forall p e, pack_fff p = Raise e -> struct_error e.
Proof.
  intros [[x y] z] e H. unfold pack_fff in H.
  apply bind_raise in H. destruct H as [H|(a & _ & H)]; [eapply pack_f_raise; eauto|].
  apply bind_raise in H. destruct H as [H|(b & _ & H)]; [eapply pack_f_raise; eauto|].
  apply bind_raise in H. destruct H as [H|(c & _ & H)]; [eapply pack_f_raise; eauto|].
  discriminate.
Qed.

Lemma int_of_float_raise : forall x e, int_of_float x = Raise e -> struct_error e.
Proof.
  intros x e H. destruct x; cbn in H; try discriminate; inversion H;
    [left|right; left]; reflexivity.
Qed.

Lemma pack_BBB_raise : forall r g b e, pack_BBB r g b = Raise e -> struct_error e.
Proof.
  unfold pack_BBB, pack_B. intros r g b e H.
  assert (forall v e', (if (0 <=? v) && (v <=? 255) then Ok (byte_of_Z v)
                        else Raise StructError) = Raise e' -> struct_error e') as Hb.
  { intros v e' H'. destruct ((0 <=? v) && (v <=? 255)); [discriminate|].
    inversion H'. right. right. reflexivity. }
  apply bind_raise in H. destruct H as [H|(a & _ & H)]; [eapply Hb; eauto|].
  apply bind_raise in H. destruct H as [H|(a' & _ & H)]; [eapply Hb; eauto|].
  apply bind_raise in H. destruct H as [H|(a'' & _ & H)]; [eapply Hb; eauto|].
  discriminate.
Qed.

Lemma color_bytes_raise : forall c e, color_bytes c = Raise e -> struct_error e.
Proof.
  intros [[c0 c1] c2] e H. unfold color_bytes in H.
  apply bind_raise in H. destruct H as [H|(r & _ & H)]; [eapply int_of_float_raise; eauto|].
  apply bind_raise in H. destruct H as [H|(g & _ & H)]; [eapply int_of_float_raise; eauto|].
  apply bind_raise in H. destruct H as [H|(b & _ & H)]; [eapply int_of_float_raise; eauto|].
  eapply pack_BBB_raise; eauto.
Qed.

(** [points_to_bytes] raises nothing but [OverflowError], [ValueError]
    and [struct.error]. *)
Lemma points_to_bytes_from_raise : forall pts i cols e,
  points_to_bytes_from i pts cols = Raise e -> struct_error e.
Proof.
  induction pts as [|p pts IH]; intros i cols e H; [discriminate|].
  cbn [points_to_bytes_from] in H.
  apply bind_raise in H. destruct H as [H|(pos & _ & H)]; [eapply pack_fff_raise; eauto|].
  apply bind_raise in H. destruct H as [H|(col & _ & H)].
  - destruct cols as [cs|]; [destruct (nth_error cs i)|];
      eauto using color_bytes_raise, pack_BBB_raise.
  - apply bind_raise in H. destruct H as [H|(more & _ & H)]; [eauto|discriminate].
Qed.

(** ** What every reachable simulator satisfies *)

Lemma loop_pass_self : forall self i total sent P d,
  snd (fst (loop_pass self i total sent P d)) = self.
Proof.
  intros self i total sent P d. unfold loop_pass.
  destruct (in_range_loop i total P); [|reflexivity].
  destruct (streaming self); cbn [negb]; [|reflexivity].
  destruct (points self); [|reflexivity].
  destruct (points_to_bytes _ _); reflexivity.
Qed.

(** A call of [next] leaves the simulator as it is or, on a connected
    simulator with points, sets [streaming]. *)
Lemma gen_next_self : forall self g,
  snd (fst (gen_next self g)) = self
  \/ (is_connected self = true /\ points self <> None
      /\ snd (fst (gen_next self g)) = started self).
Proof.
  intros self [P d|i total sent P d|]; cbn [gen_next].
  - destruct (is_connected self) eqn:Ec; cbn [negb]; [|left; reflexivity].
    destruct (points self) as [pts|] eqn:Ep; [|left; reflexivity].
    right. split; [reflexivity|]. split; [discriminate|].
    destruct (P =? 0); [unfold started; rewrite Ec, Ep; reflexivity|].
    rewrite loop_pass_self. unfold started. rewrite Ec, Ep. reflexivity.
  - left. destruct (sleep_ms d); [reflexivity|apply loop_pass_self].
  - left. reflexivity.
Qed.

(** The invariant of the class. *)
Lemma reachable_invariant : forall self,
  reachable self ->
  loaded_or_empty self
  /\ (is_connected self = true -> current_ply_file self <> None)
  /\ (streaming self = true -> is_connected self = true).
Proof.
  induction 1 as [|fs filename self ok self' _ IH Hl|self _ IH|self _ IH|self _ IH
                  |self g e self' g' _ IH Hn].
  - split; [left; auto|]. split; discriminate.
  - destruct ok.
    + apply load_true_inv in Hl.
      destruct Hl as (content & pts & cols & inf & _ & Hp & ->).
      apply parse_ply_parallel in Hp. destruct Hp as [Hlen _].
      cbn. split; [right; exists filename, pts, cols, inf; auto|].
      split; [discriminate|tauto].
    + apply load_false_inv in Hl. destruct Hl as [-> _]. exact IH.
  - destruct IH as (Hd & Hc & Hs). unfold connect_hardware.
    destruct (current_ply_file self) as [name|] eqn:En; cbn [snd].
    + split; [|split].
      * destruct Hd as [(H0 & _)|(f & pts & cols & inf & H0 & H1 & H2 & H3 & H4)];
          [congruence|].
        right. exists f, pts, cols, inf. cbn. rewrite En in H0. auto.
      * cbn. discriminate.
      * reflexivity.
    + rewrite En. tauto.
  - destruct IH as (Hd & Hc & Hs). split; [exact Hd|]. split; discriminate.
  - destruct IH as (Hd & Hc & Hs). split; [exact Hd|]. split; [exact Hc|discriminate].
  - destruct (gen_next_self self g) as [E|(Hc' & _ & E)];
      rewrite Hn in E; cbn [fst snd] in E; subst self'.
    + exact IH.
    + destruct IH as (Hd & Hc & Hs). split; [exact Hd|]. split; [exact Hc|].
      intros _. exact Hc'.
Qed.

(** On every simulator that the methods of the class can produce: the
    data are loaded together or not at all, the colors are as many as
    the points, a connected simulator has a file, a streaming one is
    connected; the generator never fails for lack of points
    ([TypeError]), and on a connected simulator its first [next] never
    returns [False]. *)
Theorem session_invariant : forall self,
  reachable self ->
  loaded_or_empty self
  /\ (is_connected self = true -> current_ply_file self <> None)
  /\ (streaming self = true -> is_connected self = true)
  /\ (forall g, fst (fst (gen_next self g)) <> Throw TypeError)
  /\ (is_connected self = true ->
      forall points_per_packet delay_ms,
        fst (fst (gen_next self (GenCreated points_per_packet delay_ms)))
        <> Return (Some false)).
Proof.
  intros self Hr. destruct (reachable_invariant self Hr) as (Hd & Hc & Hs).
  split; [exact Hd|]. split; [exact Hc|]. split; [exact Hs|].
  assert (is_connected self = true -> exists pts, points self = Some pts) as Hp.
  { intros H. destruct Hd as [(H0 & _)|(f & pts & _ & _ & _ & H1 & _)]; [|eauto].
    apply Hc in H. contradiction. }
  assert (forall s i total sent P d,
             (streaming s = true -> exists pts, points s = Some pts) ->
             fst (fst (loop_pass s i total sent P d)) <> Throw TypeError) as Hloop.
  { intros s i total sent P d Hsp. unfold loop_pass.
    destruct (in_range_loop i total P); [|discriminate].
    destruct (streaming s); cbn [negb]; [|discriminate].
    destruct (Hsp eq_refl) as (pts & ->).
    destruct (points_to_bytes _ _) as [bs|e|] eqn:E; cbn; try discriminate.
    apply points_to_bytes_from_raise in E.
    intros He. inversion He; subst e. destruct E as [E|[E|E]]; discriminate. }
  split.
  - intros [P d|i total sent P d|]; cbn [gen_next].
    + destruct (is_connected self); cbn [negb]; [|discriminate].
      destruct (points self) as [pts|] eqn:Ep; [|discriminate].
      destruct (P =? 0); [discriminate|].
      apply Hloop. intros _. cbn. eauto.
    + destruct (sleep_ms d) as [e|] eqn:Es.
      * unfold sleep_ms in Es. cbn [fst].
        destruct ((d <? - sleep_limit) || (sleep_limit <? d));
          [|destruct (d <? 0)]; congruence.
      * apply Hloop. intros H. apply Hp, Hs, H.
    + discriminate.
  - intros H P d. cbn [gen_next]. rewrite H. cbn [negb].
    destruct (Hp H) as (pts & ->).
    destruct (P =? 0); [discriminate|].
    unfold loop_pass.
    destruct (in_range_loop _ _ _); [|discriminate].
    cbn [streaming negb points].
    destruct (points_to_bytes _ _); discriminate.
Qed.

(** ** Stop requests and degenerate arguments *)

Lemma sleep_ms_cases : forall d,
  (0 <= d <= sleep_limit /\ sleep_ms d = None)
  \/ (- sleep_limit <= d < 0 /\ sleep_ms d = Some ValueError)
  \/ ((d < - sleep_limit \/ sleep_limit < d) /\ sleep_ms d = Some OverflowError).
Proof.
  intros d. unfold sleep_ms.
  destruct (Z.ltb_spec d (- sleep_limit)); cbn [orb]; [right; right; split; [lia|reflexivity]|].
  destruct (Z.ltb_spec sleep_limit d); [right; right; split; [lia|reflexivity]|].
  destruct (Z.ltb_spec d 0); [right; left|left]; (split; [lia|reflexivity]).
Qed.

(** [stop_data_stream] takes effect when a generator that has started is
    resumed: after the [time.sleep], it ends without a further packet.
    With a delay that [time.sleep] accepts, from 0 to [sleep_limit]
    milliseconds, the iteration ends in the normal way; with a negative
    delay down to [- sleep_limit] it ends with [ValueError], and with a
    delay beyond [sleep_limit] on either side with [OverflowError]. A
    stop request before the first [next] is lost: the body of the
    generator sets [streaming] again when it starts, and the stream runs
    as if nothing had been asked. *)
Theorem stop_takes_effect_at_resume : forall self pts,
  is_connected self = true ->
  points self = Some pts ->
  (forall i total sent points_per_packet delay_ms,
      gen_next (stop_data_stream self)
               (GenSuspended i total sent points_per_packet delay_ms)
      = (if (delay_ms <? - sleep_limit) || (sleep_limit <? delay_ms) then Throw OverflowError
         else if delay_ms <? 0 then Throw ValueError
         else Return None,
         stop_data_stream self, GenFinished))
  /\ (forall points_per_packet delay_ms,
      gen_next (stop_data_stream self) (GenCreated points_per_packet delay_ms)
      = gen_next self (GenCreated points_per_packet delay_ms)).
Proof.
  intros self pts Hc Hp. split.
  - intros i total sent P d. cbn [gen_next]. unfold sleep_ms.
    destruct ((d <? - sleep_limit) || (sleep_limit <? d)); [reflexivity|].
    destruct (d <? 0); [reflexivity|].
    unfold loop_pass. cbn [stop_data_stream streaming negb].
    destruct (in_range_loop (i + P) total P); reflexivity.
  - intros P d. unfold gen_next.
    change (is_connected (stop_data_stream self)) with (is_connected self).
    change (points (stop_data_stream self)) with (points self).
    rewrite Hc, Hp. reflexivity.
Qed.

(** With a packet size of 0 the first [next] raises [ZeroDivisionError],
    after [streaming] was set, and the thread reports the error and its
    end; with a negative packet size the range of the loop is empty:
    the stream ends at once without a packet. *)
Theorem degenerate_packet_sizes : forall self pts delay_ms,
  is_connected self = true ->
  points self = Some pts ->
  gen_next self (GenCreated 0 delay_ms) = (Throw ZeroDivisionError, started self, GenFinished)
  /\ (forall fuel,
        thread_run (S fuel) self 0 delay_ms
        = Some ([status_update StatusStarting;
                 status_update (StatusStreamError ZeroDivisionError);
                 status_update StatusComplete], started self))
  /\ (forall points_per_packet fuel,
        points_per_packet < 0 ->
        gen_next self (GenCreated points_per_packet delay_ms)
        = (Return None, started self, GenFinished)
        /\ thread_run (S fuel) self points_per_packet delay_ms
           = Some ([status_update StatusStarting; status_update StatusComplete],
                   started self)).
Proof.
  intros self pts d Hc Hp.
  assert (gen_next self (GenCreated 0 d) = (Throw ZeroDivisionError, started self, GenFinished))
    as H0.
  { cbn [gen_next]. rewrite Hc, Hp. cbn [negb Z.eqb]. unfold started.
    rewrite Hc, Hp. reflexivity. }
  split; [exact H0|]. split.
  - intros fuel. unfold thread_run. rewrite Hc. cbn [negb drain]. rewrite H0. reflexivity.
  - intros P fuel HP.
    assert (gen_next self (GenCreated P d) = (Return None, started self, GenFinished)) as H1.
    { cbn [gen_next]. rewrite Hc, Hp. cbn [negb].
      replace (P =? 0) with false by (symmetry; apply Z.eqb_neq; lia).
      unfold loop_pass, in_range_loop.
      replace (0 <? P) with false by (symmetry; apply Z.ltb_ge; lia).
      replace (Z.of_nat (length pts) <? 0) with false by (symmetry; apply Z.ltb_ge; lia).
      unfold started. rewrite Hc, Hp. reflexivity. }
    split; [exact H1|].
    unfold thread_run. rewrite Hc. cbn [negb drain]. rewrite H1. reflexivity.
Qed.

(** With a delay that [time.sleep] refuses, the first packet is yielded
    as usual and the next call of [next] raises: [ValueError] for a
    negative delay down to [- sleep_limit] milliseconds, [OverflowError]
    for a delay beyond [sleep_limit] on either side. The thread hands
    over one packet, then reports the error and its end. *)
Theorem negative_delay_ends_after_first_packet :
  forall self pts points_per_packet delay_ms p self' g',
  delay_ms < 0 \/ sleep_limit < delay_ms ->
  gen_next self (GenCreated points_per_packet delay_ms) = (Yield p, self', g') ->
  points self = Some pts ->
  let e := if (- sleep_limit <=? delay_ms) && (delay_ms <? 0)
           then ValueError else OverflowError in
  packet_id p = 1
  /\ packet_points p = firstn (Z.to_nat points_per_packet) pts
  /\ gen_next self' g' = (Throw e, self', GenFinished)
  /\ forall fuel,
       thread_run (S (S fuel)) self points_per_packet delay_ms
       = Some (status_update StatusStarting
               :: packet_signals p
               ++ [status_update (StatusStreamError e);
                   status_update StatusComplete],
               self').
Proof.
  intros self pts P d p self' g' Hd Hn Hp e.
  assert (sleep_ms d = Some e) as Hsl.
  { unfold e. destruct (sleep_ms_cases d) as [[Hr Hs]|[[Hr Hs]|[Hr Hs]]]; rewrite Hs.
    - lia.
    - replace (- sleep_limit <=? d) with true by (symmetry; apply Z.leb_le; lia).
      replace (d <? 0) with true by (symmetry; apply Z.ltb_lt; lia). reflexivity.
    - destruct (Z.leb_spec (- sleep_limit) d); cbn [andb]; [|reflexivity].
      replace (d <? 0) with false; [reflexivity|].
      symmetry. apply Z.ltb_ge. unfold sleep_limit in *. lia. }
  assert (is_connected self = true) as Hc.
  { cbn [gen_next] in Hn. destruct (is_connected self); [reflexivity|discriminate]. }
  assert (P <> 0) as HP0.
  { intros ->. cbn [gen_next] in Hn. rewrite Hc, Hp in Hn. discriminate. }
  assert (gen_next self (GenCreated P d)
          = loop_pass (started self) 0 (Z.of_nat (length pts)) 0 P d) as Hg.
  { cbn [gen_next]. rewrite Hc, Hp. cbn [negb].
    replace (P =? 0) with false by (symmetry; apply Z.eqb_neq; exact HP0).
    unfold started. rewrite Hc, Hp. reflexivity. }
  pose proof Hn as Hn'. rewrite Hg in Hn.
  apply loop_pass_yield in Hn.
  destruct Hn as (Hin & _ & -> & -> & Hid & _ & _ & pts' & Hpts' & Hslice & _).
  change (points (started self)) with (points self) in Hpts'.
  rewrite Hp in Hpts'. inversion Hpts'; subst pts'. clear Hpts'.
  unfold in_range_loop in Hin.
  destruct (0 <? P) eqn:E0; [|apply Z.ltb_lt in Hin; lia].
  apply Z.ltb_lt in E0. apply Z.ltb_lt in Hin.
  assert (gen_next (started self) (GenSuspended 0 (Z.of_nat (length pts)) (0 + 1) P d)
          = (Throw e, started self, GenFinished)) as H2.
  { cbn [gen_next]. rewrite Hsl. reflexivity. }
  split; [exact Hid|]. split.
  - rewrite Hslice. unfold slice. cbn [Z.to_nat Z.add]. rewrite skipn_O, Nat.sub_0_r.
    destruct (Z.min_spec P (Z.of_nat (length pts))) as [[_ ->]|[Hle ->]]; [reflexivity|].
    rewrite Nat2Z.id. rewrite !firstn_all2; [reflexivity|lia|lia].
  - split; [exact H2|].
    intros fuel. unfold thread_run. rewrite Hc. cbn [negb].
    cbn [drain]. rewrite Hn', H2. cbn [flat_map]. rewrite app_nil_r. reflexivity.
Qed.

(** ** The connect button of the control panel *)

(** [HardwareControlPanel.connect_hardware] never reports a failed
    connection: once the file is loaded, [connect_hardware] succeeds. It
    reports a failed load exactly when [load_ply_file] returns [False],
    and the simulator is then as before; on success the simulator is
    connected and the message box shows the name of the file, the number
    of points loaded, and the color flag and the format of its header. *)
Theorem panel_connect_reports : forall fs current_text simulator report simulator',
  panel_connect_hardware fs current_text simulator = Ok (report, simulator') ->
  report <> ConnectionFailed
  /\ (report = NoFileSelected -> current_text = [] /\ simulator' = simulator)
  /\ (forall filename,
        report = LoadFailed filename ->
        filename = current_text /\ simulator' = simulator
        /\ load_ply_file fs filename simulator = Ok (false, simulator))
  /\ (forall filename shown,
        report = Connected filename shown ->
        filename = current_text
        /\ is_connected simulator' = true
        /\ exists loaded pts inf,
             load_ply_file fs filename simulator = Ok (true, loaded)
             /\ simulator' = snd (connect_hardware loaded)
             /\ points simulator' = Some pts
             /\ info simulator' = Some inf
             /\ shown = Some {| info_filename := filename;
                                info_points := Z.of_nat (length pts);
                                info_has_colors := has_color inf;
                                info_format := format_type inf |}).
Proof.
  intros fs current_text simulator report simulator' H.
  unfold panel_connect_hardware in H.
  destruct current_text as [|c name].
  { inversion H; subst. split; [discriminate|]. split; [auto|].
    split; [intros ? ?; discriminate|intros ? ? ?; discriminate]. }
  apply bind_ok in H. destruct H as ([ok s1] & Hl & H).
  destruct ok.
  - pose proof Hl as Hl'.
    apply load_true_inv in Hl. destruct Hl as (content & pts & cols & inf & _ & _ & ->).
    cbn in H. inversion H; subst. clear H.
    split; [discriminate|]. split; [discriminate|]. split; [intros ? ?; discriminate|].
    intros filename shown E. inversion E; subst. clear E.
    split; [reflexivity|]. split; [reflexivity|].
    eexists _, pts, inf. split; [exact Hl'|]. repeat split.
  - pose proof Hl as Hl'.
    apply load_false_inv in Hl. destruct Hl as [-> _].
    inversion H; subst. clear H.
    split; [discriminate|]. split; [discriminate|].
    split; [|intros ? ? ?; discriminate].
    intros filename E. inversion E; subst. auto.
Qed.

(** ** Colors on the wire *)

(** The color of an octet triple of a file, [[r/255, g/255, b/255]],
    goes on the wire as the same three octets: [int((r/255) * 255)] is
    [r] for each of the 256 values. The default gray [[0.5, 0.5, 0.5]]
    of the reader goes on the wire as (127, 127, 127), not as the
    (128, 128, 128) that [points_to_bytes] sends for a missing color. *)
Theorem color_octets_round_trip :
  (forall r g b,
      (c <- normalized (Z_of_byte r) (Z_of_byte g) (Z_of_byte b) ;; color_bytes c)
      = Ok [r; g; b])
  /\ color_bytes gray = Ok [x7f; x7f; x7f]
  /\ pack_BBB 128 128 128 = Ok [x80; x80; x80].
Proof.
  split; [|split; vm_compute; reflexivity].
  intros r g b. rewrite normalized_bytes. cbn [bind]. unfold color_bytes.
  rewrite !byte_fraction_requantized. cbn [bind]. apply pack_BBB_bytes.
Qed.

Lemma reachable_gray : forall self,
  reachable self ->
  forall inf cols,
    info self = Some inf -> colors self = Some cols -> has_color inf = false ->
    Forall (eq gray) cols.
Proof.
  induction 1 as [|fs filename self ok self' _ IH Hl|self _ IH|self _ IH|self _ IH
                  |self g e self' g' _ IH Hn]; intros inf cols Hi Hc Hh.
  - discriminate.
  - destruct ok.
    + apply load_true_inv in Hl.
      destruct Hl as (content & pts & cols' & inf' & _ & Hp & ->).
      cbn in Hi, Hc. inversion Hi; subst inf'. inversion Hc; subst cols'.
      apply parse_ply_parallel in Hp. tauto.
    + apply load_false_inv in Hl. destruct Hl as [-> _]. eauto.
  - unfold connect_hardware in Hi, Hc.
    destruct (current_ply_file self); cbn in Hi, Hc; eauto.
  - eauto.
  - eauto.
  - destruct (gen_next_self self g) as [E|(_ & _ & E)];
      rewrite Hn in E; cbn [fst snd] in E; subst self'; eauto.
Qed.

Lemma firstn_skipn_swap : forall (A : Type) (l : list A) n m,
  firstn m (skipn n l) = skipn n (firstn (n + m) l).
Proof.
  intros A l n. revert l. induction n as [|n IH]; intros l m; [reflexivity|].
  destruct l as [|a l]; [cbn; rewrite firstn_nil; reflexivity|].
  cbn [Nat.add skipn firstn]. apply IH.
Qed.

Lemma slice_length_eq : forall (A B : Type) (l : list A) (k : list B) i j,
  length l = length k -> length (slice l i j) = length (slice k i j).
Proof.
  intros A B l k i j H. unfold slice. rewrite !length_firstn, !length_skipn, H. reflexivity.
Qed.

Lemma Forall_slice : forall (A : Type) (P : A -> Prop) (l : list A) i j,
  Forall P l -> Forall P (slice l i j).
Proof.
  intros A P l i j H. unfold slice. rewrite Forall_forall in *.
  intros x Hx. apply H.
  rewrite <- (firstn_skipn (Z.to_nat i) l). apply in_or_app. right.
  rewrite <- (firstn_skipn (Z.to_nat j - Z.to_nat i) (skipn (Z.to_nat i) l)).
  apply in_or_app. left. exact Hx.
Qed.

(** In a stream of a simulator that the methods of the class produced,
    every packet carries as many colors as points, so that no record
    gets the default (128, 128, 128) for a missing color; when the
    header of the loaded file declares no color, every record carries
    (127, 127, 127). *)
Theorem stream_colors_come_from_file : forall self g p self' g',
  reachable self ->
  gen_next self g = (Yield p, self', g') ->
  (exists cs, packet_colors p = Some cs /\ length cs = length (packet_points p))
  /\ (forall inf j,
        info self = Some inf -> has_color inf = false ->
        (j < length (packet_points p))%nat ->
        wire_color (raw_bytes p) j = [x7f; x7f; x7f]).
Proof.
  intros self g p self' g' Hr Hn.
  destruct (reachable_invariant self Hr) as (Hd & Hcf & _).
  pose proof (reachable_gray self Hr) as Hg.
  assert (exists pts i e,
             points self = Some pts
             /\ packet_points p = slice pts i e
             /\ packet_colors p = match colors self with
                                  | Some cs => Some (slice cs i e)
                                  | None => None
                                  end
             /\ points_to_bytes (packet_points p) (packet_colors p) = Ok (raw_bytes p))
    as (pts & i & e & Hp & Hpp & Hpc & Hraw).
  { destruct g as [P d|i total sent P d|]; cbn [gen_next] in Hn.
    - destruct (is_connected self); [|discriminate]. cbn [negb] in Hn.
      destruct (points self) as [pts|] eqn:Ep; [|discriminate].
      destruct (P =? 0); [discriminate|].
      apply loop_pass_yield in Hn.
      destruct Hn as (_ & _ & _ & _ & _ & _ & Hraw & pts' & H1 & H2 & H3).
      cbn [points colors] in H1, H3. exists pts', 0, (Z.min (0 + P) (Z.of_nat (length pts))).
      auto.
    - destruct (sleep_ms d); [discriminate|].
      apply loop_pass_yield in Hn.
      destruct Hn as (_ & _ & _ & _ & _ & _ & Hraw & pts' & H1 & H2 & H3).
      exists pts', (i + P), (Z.min (i + P + P) total). auto.
    - discriminate. }
  destruct Hd as [(_ & H0 & _)|(f & pts' & cols & inf' & _ & H1 & H2 & H3 & Hlen)];
    [congruence|].
  rewrite Hp in H1. inversion H1; subst pts'. clear H1.
  rewrite H2 in Hpc.
  split.
  - exists (slice cols i e). split; [exact Hpc|].
    rewrite Hpp. apply slice_length_eq. exact Hlen.
  - intros inf j Hi Hh Hj.
    rewrite H3 in Hi. inversion Hi; subst inf'. clear Hi.
    assert (Forall (eq gray) (slice cols i e)) as Hgray
      by (apply Forall_slice; eapply Hg; eauto).
    unfold points_to_bytes in Hraw.
    apply points_to_bytes_from_wire in Hraw. destruct Hraw as [_ Hw].
    destruct (nth_error (packet_points p) j) as [point|] eqn:En;
      [|apply nth_error_None in En; lia].
    specialize (Hw j point En). cbn [Nat.add] in Hw.
    rewrite Hpc in Hw. unfold supplied in Hw.
    destruct (nth_error (slice cols i e) j) as [c|] eqn:Ec.
    + assert (c = gray) as ->.
      { rewrite Forall_forall in Hgray. symmetry. apply Hgray.
        eapply nth_error_In. exact Ec. }
      unfold wire_record in Hw. destruct point as [[x y] z].
      destruct Hw as (wx & wy & wz & r & gg & b & _ & _ & _ & _ & _ & _ & Hrec & Hcr & Hgg & Hb).
      unfold wire_color.
      replace (15 * j + 12)%nat with (12 + 15 * j)%nat by lia.
      rewrite <- skipn_skipn, firstn_skipn_swap. cbn [Nat.add].
      rewrite Hrec.
      assert (r = 127) as -> by (vm_compute in Hcr; congruence).
      assert (gg = 127) as -> by (vm_compute in Hgg; congruence).
      assert (b = 127) as -> by (vm_compute in Hb; congruence).
      reflexivity.
    + apply nth_error_None in Ec.
      assert (length (slice cols i e) = length (packet_points p)) as Hl
        by (rewrite Hpp; apply slice_length_eq; exact Hlen).
      lia.
Qed.

(** ** A stream gives back the body of a binary file *)

Lemma le_bytes_le_value : forall bs, le_bytes (length bs) (le_value bs) = bs.
Proof.
  induction bs as [|b bs IH]; [reflexivity|].
  cbn [length le_bytes le_value].
  pose proof (Z_of_byte_range b) as Hb.
  f_equal.
  - rewrite <- (byte_of_Z_of_byte b) at 2. unfold byte_of_Z.
    replace ((Z_of_byte b + 256 * le_value bs) mod 256) with (Z_of_byte b mod 256);
      [reflexivity|].
    symmetry. rewrite (Z.mul_comm 256). apply Z.mod_add. lia.
  - replace ((Z_of_byte b + 256 * le_value bs) / 256) with (le_value bs); [exact IH|].
    apply Z.div_unique with (r := Z_of_byte b); lia.
Qed.

(** A binary32 value that is not a NaN comes back from the conversion to
    a double and back with its very bits. *)
Lemma bits32_exact : forall w,
  is_bits32 w -> nan_bits w = false ->
  bits32_of_float (float_of_bits32 w) = Ok w.
Proof.
  unfold is_bits32, nan_bits. intros w Hw Hnan.
  destruct (bits32_fields w Hw) as (He & Hm & Hfields).
  unfold float_of_bits32.
  set (s := Z.testbit w 31) in *.
  set (e := Z.land (Z.shiftr w 23) 255) in *.
  set (m := Z.land w 8388607) in *.
  assert (0 <= sign_bit s <= 2147483648) as Hs by (destruct s; cbn; lia).
  destruct (e =? 255) eqn:E255.
  { apply Z.eqb_eq in E255. cbn [andb] in Hnan.
    destruct (m =? 0) eqn:Em0; [|discriminate].
    apply Z.eqb_eq in Em0. cbn [bits32_of_float]. f_equal. lia. }
  apply Z.eqb_neq in E255.
  destruct (e =? 0) eqn:E0.
  - apply Z.eqb_eq in E0. destruct m as [|p|p] eqn:Em; [| |lia].
    + replace (cond_Zopp s 0) with 0 by (destruct s; reflexivity).
      cbn [binary_normalize bits32_of_float]. f_equal. lia.
    + assert (Zpos (digits2_pos p) <= 23) as Hd by (apply digits2_upper; lia).
      assert (bounded 24 128 p (-149) = true) as Hb.
      { unfold bounded, canonical_mantissa, fexp, emin.
        apply andb_true_iff. split; [apply Z.eqb_eq; lia|reflexivity]. }
      assert (exists k, Zpos k = 53 - Zpos (digits2_pos p)) as (k & Hk).
      { exists (Z.to_pos (53 - Zpos (digits2_pos p))). rewrite Z2Pos.id; lia. }
      rewrite binary_normalize_signed, (widen_binary32 s p (-149) k Hb Hk).
      cbn [bits32_of_float]. rewrite (narrow_binary32 s p (-149) k Hb Hk).
      replace (Zpos (digits2_pos p) =? 24) with false by (symmetry; apply Z.eqb_neq; lia).
      f_equal. lia.
  - apply Z.eqb_neq in E0.
    destruct (m + 8388608) as [|p|p] eqn:EM; [lia| |lia].
    assert (Zpos (digits2_pos p) = 24) as Hd.
    { pose proof (digits2_upper p 24 ltac:(lia) ltac:(change (2 ^ 24) with 16777216; lia)).
      pose proof (digits2_lower p 23 ltac:(lia) ltac:(change (2 ^ 23) with 8388608; lia)).
      lia. }
    assert (bounded 24 128 p (e - 150) = true) as Hb.
    { unfold bounded, canonical_mantissa, fexp, emin. rewrite Hd.
      apply andb_true_iff. split; [apply Z.eqb_eq; lia|apply Z.leb_le; lia]. }
    assert (Zpos 29 = 53 - Zpos (digits2_pos p)) as Hk by (rewrite Hd; reflexivity).
    rewrite binary_normalize_signed, (widen_binary32 s p (e - 150) 29 Hb Hk).
    cbn [bits32_of_float]. rewrite (narrow_binary32 s p (e - 150) 29 Hb Hk).
    rewrite Hd. cbn [Z.eqb Pos.eqb].
    f_equal. lia.
Qed.

(** Four octets that hold no NaN come back from [unpack] and [pack]. *)
Lemma pack_unpack_f : forall bs,
  length bs = 4%nat -> nan_bits (le_value bs) = false ->
  pack_f (unpack_f LittleEndian bs) = Ok bs.
Proof.
  intros bs Hl Hn. unfold pack_f, unpack_f.
  rewrite bits32_exact; [|clear Hn|exact Hn].
  - cbn [bind]. rewrite <- Hl, le_bytes_le_value. reflexivity.
  - do 4 (destruct bs as [|? bs]; [discriminate|]). destruct bs; [|discriminate].
    apply le_value_four.
Qed.

Lemma four_pieces : forall (r : bytes),
  length r = 15%nat ->
  r = firstn 4 r ++ firstn 4 (skipn 4 r) ++ firstn 4 (skipn 8 r) ++ skipn 12 r.
Proof.
  intros r H. do 15 (destruct r as [|? r]; [discriminate|]).
  destruct r; [reflexivity|discriminate].
Qed.

(** One record of a body with colors: what the reader makes of it, and
    what [points_to_bytes] makes of that. *)
Lemma plain_record_round_trip : forall inf r rest,
  sys_byteorder = LittleEndian ->
  has_color inf = true ->
  plain_record r ->
  exists p c,
    unpack_fff sys_byteorder (firstn 12 (r ++ rest)) = Ok p
    /\ binary_color inf (skipn 12 (r ++ rest)) = Ok (c, rest)
    /\ record_bytes p (Some c) = Ok r.
Proof.
  intros inf r rest Hle Hc (Hl & Hx & Hy & Hz).
  assert (firstn 12 (r ++ rest) = firstn 12 r) as ->.
  { rewrite firstn_app, Hl. cbn [Nat.sub]. rewrite firstn_O, app_nil_r. reflexivity. }
  assert (skipn 12 (r ++ rest) = skipn 12 r ++ rest) as ->.
  { rewrite skipn_app, Hl. reflexivity. }
  pose proof (four_pieces r Hl) as Hr.
  do 15 (destruct r as [|? r]; [discriminate|]). destruct r; [|discriminate].
  cbn [firstn skipn] in *.
  rewrite Hle. unfold unpack_fff. cbn [length Nat.eqb firstn skipn].
  eexists _, _. split; [reflexivity|].
  unfold binary_color, read. rewrite Hc. cbn [firstn skipn app length Nat.eqb unpack_BBB bind].
  rewrite normalized_bytes. cbn [bind]. split; [reflexivity|].
  unfold record_bytes, pack_fff.
  rewrite !pack_unpack_f by (reflexivity || assumption).
  cbn [bind]. unfold color_bytes. rewrite !byte_fraction_requantized. cbn [bind].
  rewrite pack_BBB_bytes. reflexivity.
Qed.

(** The records of a body with colors, read by [read_binary] and written
    again by [points_to_bytes], are the records. *)
Lemma read_binary_plain : forall inf records n,
  sys_byteorder = LittleEndian ->
  has_color inf = true ->
  Forall plain_record records ->
  (length records <= n)%nat ->
  exists pts cols,
    read_binary n inf (concat records) = Ok (pts, cols)
    /\ length pts = length records
    /\ forall pre,
         points_to_bytes_from (length pre) pts (Some (pre ++ cols)) = Ok (concat records).
Proof.
  intros inf records n Hle Hc. revert n.
  induction records as [|r records IH]; intros n Hall Hn.
  - exists [], []. cbn [concat]. rewrite read_binary_short by (cbn; lia).
    split; [reflexivity|]. split; reflexivity.
  - destruct n as [|n]; [cbn in Hn; lia|].
    inversion Hall as [|? ? Hr Hrs]; subst.
    destruct (plain_record_round_trip inf r (concat records) Hle Hc Hr)
      as (p & c & Hp & Hcol & Hrec).
    destruct (IH n Hrs) as (pts & cols & Hread & Hlen & Hser); [cbn in Hn; lia|].
    exists (p :: pts), (c :: cols).
    cbn [concat read_binary]. unfold read.
    assert (length (firstn 12 (r ++ concat records)) = 12%nat) as Hl12.
    { destruct Hr as (Hl & _). rewrite length_firstn, length_app. lia. }
    rewrite Hl12. cbn [Nat.eqb]. rewrite Hp. cbn [bind]. rewrite Hcol. cbn [bind].
    rewrite Hread. cbn [bind]. split; [reflexivity|]. split; [cbn; lia|].
    intros pre. rewrite points_to_bytes_from_cons.
    unfold supplied. rewrite nth_error_app2 by lia. rewrite Nat.sub_diag. cbn [nth_error].
    rewrite Hrec. cbn [bind].
    specialize (Hser (pre ++ [c])). rewrite length_app in Hser. cbn [length] in Hser.
    rewrite <- app_assoc in Hser. cbn [app] in Hser.
    replace (length pre + 1)%nat with (S (length pre)) in Hser by lia.
    rewrite Hser. reflexivity.
Qed.

(** A binary file with colors, read on a little-endian host, whose body
    holds complete records (at most as many as the header declares) and
    no NaN: once it is loaded and the simulator connected, the
    [raw_bytes] of the packets of a whole stream (with a packet size
    above 0 and a delay from 0 to [sleep_limit] milliseconds), put end
    to end, are the body of the file, octet for octet. *)
Theorem stream_reproduces_binary_body :
  forall fs filename self content inf records points_per_packet delay_ms,
  rounding ->
  sys_byteorder = LittleEndian ->
  fs filename = Some content ->
  read_header content = Ok (inf, concat records) ->
  str_eqb (format_type inf) (lit "ascii") = false ->
  has_color inf = true ->
  Forall plain_record records ->
  Z.of_nat (length records) <= num_points inf ->
  0 < points_per_packet ->
  0 <= delay_ms <= sleep_limit ->
  exists loaded ps,
    load_ply_file fs filename self = Ok (true, loaded)
    /\ (forall fuel,
          ceil_div (Z.of_nat (length records)) points_per_packet < Z.of_nat fuel ->
          drain fuel (snd (connect_hardware loaded))
                (GenCreated points_per_packet delay_ms)
          = Some (ps, Returned None, started (snd (connect_hardware loaded))))
    /\ Z.of_nat (length ps) = ceil_div (Z.of_nat (length records)) points_per_packet
    /\ concat (map raw_bytes ps) = concat records.
Proof.
  intros fs filename self content inf records P d R Hle Hfs Hh Hfmt Hc Hall Hn HP Hd.
  destruct (read_binary_plain inf records (Z.to_nat (num_points inf)) Hle Hc Hall)
    as (pts & cols & Hread & Hlen & Hser); [unfold bytes in *; lia|].
  specialize (Hser []). cbn [length app] in Hser.
  set (loaded := {| current_ply_file := Some filename; points := Some pts;
                    colors := Some cols; info := Some inf;
                    is_connected := is_connected self; streaming := streaming self |}).
  assert (load_ply_file fs filename self = Ok (true, loaded)) as Hload.
  { unfold load_ply_file, parse_ply. rewrite Hfs, Hh. cbn [bind].
    rewrite Hfmt, Hread. reflexivity. }
  set (conn := snd (connect_hardware loaded)).
  assert (is_connected conn = true) as Hcc by reflexivity.
  assert (points conn = Some pts) as Hcp by reflexivity.
  assert (colors conn = Some cols) as Hccol by reflexivity.
  set (N := Z.of_nat (length pts)).
  assert (0 <= ceil_div N P) as Hcd.
  { rewrite <- passes_zero by (unfold N; lia). apply passes_nonneg. exact HP. }
  destruct (drain_loop (started conn) pts P d eq_refl Hcp HP Hd R
              (S (Z.to_nat (ceil_div N P))) 0 0 (concat records))
    as (ps & Hdr & Hcount & _ & Hraw & _).
  - lia.
  - exact Hser.
  - fold N. rewrite passes_zero by (unfold N; lia). lia.
  - fold N in Hdr, Hcount. rewrite passes_zero in Hcount by (unfold N; lia).
    assert (N = Z.of_nat (length records)) as HN by (unfold N; rewrite Hlen; reflexivity).
    exists loaded, ps. split; [exact Hload|]. fold conn.
    split; [|split; [rewrite <- HN; exact Hcount|exact Hraw]].
    intros fuel Hf. rewrite <- HN in Hf.
    apply drain_fuel_mono with (fuel := S (Z.to_nat (ceil_div N P))); [|lia].
    rewrite (drain_created _ conn pts P d Hcc Hcp HP Hd). exact Hdr.
Qed.

(* ================================================================= *)
(** * Further properties of the reader *)

(** ** A header without [end_header] *)

(** The header loop never ends on lines that let it go on. *)
Lemma parse_header_goes_on : forall fuel f inf,
  Forall header_goes_on (lines f) -> parse_header fuel inf f = Hang.
Proof.
  induction fuel as [|fuel IH]; intros f inf H; [reflexivity|].
  destruct f as [|c f]; [apply parse_header_eof|].
  rewrite lines_cons in H. cbn [parse_header].
  remember (readline (c :: f)) as rl eqn:Erl. destruct rl as [raw rest].
  cbn [fst snd] in H.
  inversion H as [|? ? (line & Hd & He & Hh) Hrest]; subst.
  rewrite Hd. cbn [bind]. rewrite He.
  destruct (Hh inf) as (inf' & ->). cbn [bind]. apply IH. exact Hrest.
Qed.

(** When the header loop ends, one of the lines was [end_header]. *)
Lemma parse_header_ends : forall fuel f inf r,
  parse_header fuel inf f = Ok r -> Exists is_end_header (lines f).
Proof.
  induction fuel as [|fuel IH]; intros f inf r H; [discriminate|].
  destruct f as [|c f]; [rewrite parse_header_eof in H; discriminate|].
  rewrite lines_cons. cbn [parse_header] in H.
  remember (readline (c :: f)) as rl eqn:Erl. destruct rl as [raw rest]. cbn [fst snd].
  destruct (decode raw) as [line| |] eqn:Hd; cbn [bind] in H; try discriminate.
  destruct (str_eqb (strip line) (lit "end_header")) eqn:He.
  - apply str_eqb_eq in He. left. exists line. auto.
  - right. apply bind_ok in H. destruct H as (inf' & _ & H). eapply IH. exact H.
Qed.

(** A file is loaded only when one of its lines, decoded and stripped,
    is [end_header]; and on a file with the magic line whose further
    lines all let the header loop go on (none is [end_header], none
    makes the loop raise), as on a file cut inside its header,
    [load_ply_file] never returns: at the end of the file [readline]
    gives [b''] for ever. *)
Theorem header_needs_end_header : forall fs filename self content,
  fs filename = Some content ->
  (forall self',
      load_ply_file fs filename self = Ok (true, self') ->
      Exists is_end_header (lines content))
  /\ (magic_line content = Some (lit "ply") ->
      Forall header_goes_on (lines (snd (readline content))) ->
      load_ply_file fs filename self = Hang).
Proof.
  intros fs filename self content Hfs. split.
  - intros self' H. apply load_true_inv in H.
    destruct H as (content' & pts & cols & inf & Hfs' & Hp & _).
    rewrite Hfs in Hfs'. inversion Hfs'; subst content'. clear Hfs'.
    unfold parse_ply in Hp. apply bind_ok in Hp. destruct Hp as ([inf' f] & Hh & _).
    unfold read_header in Hh.
    destruct content as [|c content].
    { cbn in Hh. discriminate. }
    rewrite lines_cons.
    remember (readline (c :: content)) as rl eqn:Erl. destruct rl as [raw rest].
    cbn [fst snd].
    apply bind_ok in Hh. destruct Hh as (line & _ & Hh).
    destruct (negb (str_eqb (strip line) (lit "ply"))); [discriminate|].
    right. eapply parse_header_ends. exact Hh.
  - intros Hm Hl. unfold load_ply_file, parse_ply, read_header. rewrite Hfs.
    unfold magic_line in Hm.
    destruct (readline content) as [raw rest]. cbn [fst snd] in *.
    unfold decode. destruct (utf8_decode raw) as [line|]; [|discriminate].
    cbn in Hm. inversion Hm as [Hs]. cbn [or_raise bind]. rewrite Hs.
    rewrite str_eqb_refl. cbn [negb].
    rewrite parse_header_goes_on by exact Hl. reflexivity.
Qed.

(** ** The number of points read *)

Lemma read_ascii_length : forall n inf f pts cols,
  read_ascii n inf f = Ok (pts, cols) -> length pts = n.
Proof.
  induction n as [|n IH]; intros inf f pts cols H; cbn [read_ascii] in H.
  - inversion H. reflexivity.
  - destruct (readline f) as [raw f'].
    bind_inv H. do 3 (bind_inv H; bind_inv H).
    apply bind_ok in H. destruct H as (color & _ & H).
    apply bind_ok in H. destruct H as ([ps cs] & Hrec & H).
    inversion H; subst. cbn [length]. f_equal. eapply IH. exact Hrec.
Qed.

Lemma read_binary_length : forall n inf f pts cols,
  read_binary n inf f = Ok (pts, cols) -> (length pts <= n)%nat.
Proof.
  induction n as [|n IH]; intros inf f pts cols H; cbn [read_binary] in H.
  - inversion H. cbn. lia.
  - unfold read in H.
    destruct (length (firstn 12 f) =? 12)%nat.
    + bind_inv H.
      apply bind_ok in H. destruct H as ([color f2] & _ & H).
      apply bind_ok in H. destruct H as ([ps cs] & Hrec & H).
      inversion H; subst. cbn [length]. apply IH in Hrec. lia.
    + apply IH in H. lia.
Qed.

Lemma read_ascii_prefix : forall n inf f pts cols m,
  read_ascii n inf f = Ok (pts, cols) -> (m <= n)%nat ->
  read_ascii m inf f = Ok (firstn m pts, firstn m cols).
Proof.
  induction n as [|n IH]; intros inf f pts cols m H Hm.
  - assert (m = 0%nat) as -> by lia. cbn in H. inversion H. reflexivity.
  - destruct m as [|m]; [reflexivity|].
    cbn [read_ascii] in H |- *.
    destruct (readline f) as [raw f'].
    destruct (decode raw) as [line| |]; cbn [bind] in H |- *; try discriminate.
    destruct (index (split (strip line)) 0) as [v0| |]; cbn [bind] in H |- *;
      try discriminate.
    destruct (to_float v0) as [x| |]; cbn [bind] in H |- *; try discriminate.
    destruct (index (split (strip line)) 1) as [v1| |]; cbn [bind] in H |- *;
      try discriminate.
    destruct (to_float v1) as [y| |]; cbn [bind] in H |- *; try discriminate.
    destruct (index (split (strip line)) 2) as [v2| |]; cbn [bind] in H |- *;
      try discriminate.
    destruct (to_float v2) as [z| |]; cbn [bind] in H |- *; try discriminate.
    destruct (ascii_color inf (split (strip line))) as [color| |]; cbn [bind] in H |- *;
      try discriminate.
    destruct (read_ascii n inf f') as [[ps cs]| |] eqn:E; cbn [bind] in H;
      try discriminate.
    inversion H; subst. rewrite (IH inf f' ps cs m E) by lia. reflexivity.
Qed.

Lemma read_binary_prefix : forall n inf f pts cols m,
  read_binary n inf f = Ok (pts, cols) -> (m <= n)%nat ->
  read_binary m inf f = Ok (firstn m pts, firstn m cols).
Proof.
  induction n as [|n IH]; intros inf f pts cols m H Hm.
  - assert (m = 0%nat) as -> by lia. cbn in H. inversion H. reflexivity.
  - destruct m as [|m]; [reflexivity|].
    cbn [read_binary] in H |- *. unfold read in *.
    destruct (length (firstn 12 f) =? 12)%nat eqn:E12.
    + destruct (unpack_fff sys_byteorder (firstn 12 f)) as [p| |]; cbn [bind] in H |- *;
        try discriminate.
      destruct (binary_color inf (skipn 12 f)) as [[color f2]| |]; cbn [bind] in H |- *;
        try discriminate.
      destruct (read_binary n inf f2) as [[ps cs]| |] eqn:E; cbn [bind] in H;
        try discriminate.
      inversion H; subst. rewrite (IH inf f2 ps cs m E) by lia. reflexivity.
    + apply Nat.eqb_neq in E12. rewrite length_firstn in E12.
      rewrite read_binary_short in H by (rewrite length_skipn; lia).
      inversion H; subst.
      rewrite read_binary_short by (rewrite length_skipn; lia).
      rewrite firstn_nil. reflexivity.
Qed.

(** After a successful load the points are never more than the header
    declares; for an ASCII body they are exactly as many (a body with
    fewer lines makes the load fail), and none for a declared count of
    zero or less. *)
Theorem loaded_count_is_bounded : forall fs filename self self' pts inf,
  load_ply_file fs filename self = Ok (true, self') ->
  points self' = Some pts ->
  info self' = Some inf ->
  (length pts <= Z.to_nat (num_points inf))%nat
  /\ (format_type inf = lit "ascii" -> length pts = Z.to_nat (num_points inf))
  /\ (num_points inf <= 0 -> pts = []).
Proof.
  intros fs filename self self' pts inf H Hp Hi.
  apply load_true_inv in H. destruct H as (content & pts' & cols & inf' & _ & Hparse & ->).
  cbn in Hp, Hi. inversion Hp; subst pts'. inversion Hi; subst inf'. clear Hp Hi.
  unfold parse_ply in Hparse.
  apply bind_ok in Hparse. destruct Hparse as ([inf' f] & _ & Hparse).
  apply bind_ok in Hparse. destruct Hparse as ([ps cs] & Hb & Hparse).
  inversion Hparse; subst. clear Hparse.
  assert (length pts <= Z.to_nat (num_points inf))%nat as Hle.
  { destruct (str_eqb (format_type inf) (lit "ascii")).
    - apply read_ascii_length in Hb. lia.
    - apply read_binary_length in Hb. exact Hb. }
  split; [exact Hle|]. split.
  - intros Hf. rewrite Hf, str_eqb_refl in Hb. eapply read_ascii_length. exact Hb.
  - intros Hn. destruct pts; [reflexivity|]. cbn [length] in Hle. lia.
Qed.

(** ** The loader of the unified window *)

Lemma parse_ply_limit : forall content pts cols inf max_points,
  parse_ply (fun n => n) content = Ok (pts, cols, inf) ->
  parse_ply (fun n => Z.min n max_points) content
  = Ok (firstn (Z.to_nat max_points) pts, firstn (Z.to_nat max_points) cols, inf).
Proof.
  unfold parse_ply. intros content pts cols inf max_points H.
  destruct (read_header content) as [[inf' f]| |]; cbn [bind] in H |- *; try discriminate.
  apply bind_ok in H. destruct H as ([ps cs] & Hb & H).
  inversion H; subst. clear H.
  set (n := Z.to_nat (num_points inf)) in *.
  set (m := Z.to_nat (Z.min (num_points inf) max_points)).
  assert (m <= n)%nat as Hmn by (unfold m, n; lia).
  assert (length cols = length pts /\ (length pts <= n)%nat) as [Hlc Hlp].
  { destruct (str_eqb (format_type inf) (lit "ascii")).
    - split; [eapply read_ascii_parallel; eauto|].
      apply read_ascii_length in Hb. lia.
    - split; [eapply read_binary_parallel; eauto|].
      eapply read_binary_length; eauto. }
  assert (forall (A : Type) (l : list A),
             (length l <= n)%nat -> firstn m l = firstn (Z.to_nat max_points) l) as Hfirst.
  { intros A l Hl. destruct (Z_le_gt_dec (num_points inf) max_points) as [Hc|Hc].
    - rewrite !firstn_all2; [reflexivity|unfold n in Hl; lia|unfold m, n in *; lia].
    - f_equal. unfold m. lia. }
  destruct (str_eqb (format_type inf) (lit "ascii")).
  - rewrite (read_ascii_prefix n inf f pts cols m Hb Hmn). cbn [bind].
    rewrite !Hfirst by lia. reflexivity.
  - rewrite (read_binary_prefix n inf f pts cols m Hb Hmn). cbn [bind].
    rewrite !Hfirst by lia. reflexivity.
Qed.

(** [load_ply_real] returns at most [max_points] points and never more
    than the header declares; on a file that [load_ply_file] loads, it
    returns the first [max_points] of the points and of the colors that
    [load_ply_file] stores, with the same header information. *)
Theorem load_ply_real_is_a_prefix : forall files file_path content max_points,
  files file_path = Some content ->
  (forall pts cols inf,
      load_ply_real files file_path max_points = Ok (Some (pts, cols, inf)) ->
      (length pts <= Z.to_nat max_points)%nat
      /\ (length pts <= Z.to_nat (num_points inf))%nat)
  /\ (forall fs filename self self',
      fs filename = Some content ->
      load_ply_file fs filename self = Ok (true, self') ->
      exists pts cols inf,
        points self' = Some pts /\ colors self' = Some cols /\ info self' = Some inf
        /\ load_ply_real files file_path max_points
           = Ok (Some (firstn (Z.to_nat max_points) pts,
                       firstn (Z.to_nat max_points) cols, inf))).
Proof.
  intros files file_path content max_points Hf. split.
  - intros pts cols inf H. unfold load_ply_real in H. rewrite Hf in H.
    destruct (parse_ply (fun n => Z.min n max_points) content) as [r| |] eqn:E;
      try discriminate.
    inversion H; subst r. clear H. unfold parse_ply in E.
    apply bind_ok in E. destruct E as ([inf' f] & _ & E).
    apply bind_ok in E. destruct E as ([ps cs] & Hb & E).
    inversion E; subst. clear E.
    assert (length pts <= Z.to_nat (Z.min (num_points inf) max_points))%nat as Hle.
    { destruct (str_eqb (format_type inf) (lit "ascii")).
      - apply read_ascii_length in Hb. lia.
      - apply read_binary_length in Hb. exact Hb. }
    lia.
  - intros fs filename self self' Hfs H.
    apply load_true_inv in H.
    destruct H as (content' & pts & cols & inf & Hfs' & Hp & ->).
    rewrite Hfs in Hfs'. inversion Hfs'; subst content'. clear Hfs'.
    exists pts, cols, inf. cbn. repeat split.
    unfold load_ply_real. rewrite Hf.
    rewrite (parse_ply_limit content pts cols inf max_points Hp). reflexivity.
Qed.

(** The viewer of the unified window draws at most 50000 points and
    never an empty set; it always draws with the colors of the loader,
    which are as many as the points: the gradient over the height is
    never used. It warns when the loader fails or returns no point. *)
Theorem unified_viewer_draws_file_colors : forall fs file_path shown,
  viewer_load_ply_file fs file_path = Ok shown ->
  match shown with
  | DisplayWarning =>
      load_ply_real fs file_path 50000 = Ok None
      \/ exists cols inf, load_ply_real fs file_path 50000 = Ok (Some ([], cols, inf))
  | DisplayPoints pts file_colors inf =>
      exists cols,
        load_ply_real fs file_path 50000 = Ok (Some (pts, cols, inf))
        /\ file_colors = Some cols
        /\ length cols = length pts
        /\ 0 < Z.of_nat (length pts) <= 50000
  end.
Proof.
  intros fs file_path shown H. unfold viewer_load_ply_file in H.
  apply bind_ok in H. destruct H as (loaded & Hl & H).
  destruct loaded as [[[pts cols] inf]|].
  - destruct pts as [|p pts].
    + inversion H; subst. right. eauto.
    + assert (length cols = length (p :: pts)) as Hlen.
      { unfold load_ply_real in Hl. destruct (fs file_path) as [content|]; [|discriminate].
        destruct (parse_ply (fun n => Z.min n 50000) content) as [r| |] eqn:E;
          try discriminate.
        inversion Hl; subst r. eapply parse_ply_parallel. exact E. }
      assert (Z.of_nat (length (p :: pts)) <= 50000) as Hmax.
      { unfold load_ply_real in Hl. destruct (fs file_path) as [content|]; [|discriminate].
        destruct (parse_ply (fun n => Z.min n 50000) content) as [r| |] eqn:E;
          try discriminate.
        inversion Hl; subst r. clear Hl. unfold parse_ply in E.
        apply bind_ok in E. destruct E as ([inf' f] & _ & E).
        apply bind_ok in E. destruct E as ([ps cs] & Hb & E).
        inversion E; subst. clear E.
        assert (length (p :: pts) <= Z.to_nat (Z.min (num_points inf) 50000))%nat as Hle.
        { destruct (str_eqb (format_type inf) (lit "ascii")).
          - apply read_ascii_length in Hb. lia.
          - apply read_binary_length in Hb. exact Hb. }
        lia. }
      inversion H; subst. clear H. unfold display_points.
      rewrite Hlen, Nat.eqb_refl.
      exists cols. split; [exact Hl|]. split; [reflexivity|]. split; [exact Hlen|].
      cbn [length] in Hmax |- *. lia.
  - inversion H; subst. left. exact Hl.
Qed.

(* ================================================================= *)
(** * Properties of the real-time viewer *)

Lemma last_items_length : forall (A : Type) n (l : list A),
  0 < n -> Z.of_nat (length (last_items n l)) = Z.min (Z.of_nat (length l)) n.
Proof.
  intros A n l Hn. unfold last_items.
  replace (0 <? n) with true by (symmetry; apply Z.ltb_lt; exact Hn).
  rewrite length_skipn. lia.
Qed.

Lemma last_items_all : forall (A : Type) n (l : list A),
  Z.of_nat (length l) <= n -> last_items n l = l.
Proof.
  intros A n l H. unfold last_items.
  destruct (0 <? n) eqn:E.
  - replace (length l - Z.to_nat n)%nat with 0%nat by lia. reflexivity.
  - apply Z.ltb_ge in E. assert (length l = 0%nat) as Hl by lia.
    destruct l; [apply skipn_nil|discriminate].
Qed.

Lemma last_items_app : forall (A : Type) n (a b : list A),
  0 < n -> last_items n (last_items n a ++ b) = last_items n (a ++ b).
Proof.
  intros A n a b Hn. unfold last_items.
  replace (0 <? n) with true by (symmetry; apply Z.ltb_lt; exact Hn).
  rewrite !length_app, length_skipn, !skipn_app, skipn_skipn, length_skipn.
  f_equal; f_equal; lia.
Qed.

(** What [add_points] leaves in the viewer, for a limit above 0. *)
Lemma add_points_last_items : forall v pts cols,
  0 < max_points_display v ->
  Z.of_nat (length (all_points v)) <= max_points_display v ->
  all_points (add_points v (Some pts) cols)
  = last_items (max_points_display v) (all_points v ++ pts)
  /\ max_points_display (add_points v (Some pts) cols) = max_points_display v.
Proof.
  intros v pts cols Hm Hl. unfold add_points.
  destruct pts as [|p pts].
  - rewrite app_nil_r, last_items_all by exact Hl. auto.
  - destruct (max_points_display v <? Z.of_nat (length (all_points v ++ p :: pts))) eqn:E;
      cbn [all_points max_points_display]; [auto|].
    apply Z.ltb_ge in E. rewrite last_items_all by exact E. auto.
Qed.

(** With a limit above 0, [add_points] keeps the latest points: after
    the call the viewer holds the last [max_points_display] of the
    points it held and the new ones, in order, and never more than the
    limit; when the colors given are as many as the points (or none is
    given), the colors of the viewer stay parallel to its points. *)
Theorem viewer_keeps_latest_points : forall v pts cols,
  0 < max_points_display v ->
  Z.of_nat (length (all_points v)) <= max_points_display v ->
  length (all_colors v) = length (all_points v) ->
  match cols with Some cs => length cs = length pts | None => True end ->
  let v' := add_points v (Some pts) cols in
  all_points v' = last_items (max_points_display v) (all_points v ++ pts)
  /\ Z.of_nat (length (all_points v')) <= max_points_display v
  /\ length (all_colors v') = length (all_points v')
  /\ max_points_display v' = max_points_display v.
Proof.
  intros v pts cols Hm Hl Hpar Hcols v'.
  destruct (add_points_last_items v pts cols Hm Hl) as [Hp Hmax]. fold v' in Hp, Hmax.
  split; [exact Hp|]. split; [|split; [|exact Hmax]].
  - rewrite Hp, last_items_length by exact Hm. lia.
  - unfold v', add_points. destruct pts as [|p pts]; [exact Hpar|].
    set (new := match cols with
                | Some cs => cs
                | None => repeat gray (length (p :: pts))
                end).
    assert (length new = length (p :: pts)) as Hnew.
    { unfold new. destruct cols as [cs|]; [exact Hcols|apply repeat_length]. }
    assert (length (all_colors v ++ new) = length (all_points v ++ p :: pts)) as Hboth
      by (rewrite !length_app; lia).
    destruct (max_points_display v <? Z.of_nat (length (all_points v ++ p :: pts)));
      cbn [all_points all_colors]; [|exact Hboth].
    unfold last_items.
    replace (0 <? max_points_display v) with true by (symmetry; apply Z.ltb_lt; exact Hm).
    rewrite !length_skipn, Hboth. reflexivity.
Qed.

(** A limit of 0 does not limit: [l[-0:]] is the whole list, so that
    [add_points] and [update_point_limit] keep every point. With a
    limit [-k] below 0 they drop the [k] oldest points instead. *)
Theorem viewer_limit_not_positive : forall v pts cols,
  (max_points_display v = 0 ->
   all_points (add_points v (Some pts) cols) = all_points v ++ pts)
  /\ all_points (update_point_limit v 0) = all_points v
  /\ (forall k,
        0 < k -> max_points_display v = - k -> pts <> [] ->
        all_points (add_points v (Some pts) cols)
        = skipn (Z.to_nat k) (all_points v ++ pts)).
Proof.
  intros v pts cols. split; [|split].
  - intros H0. unfold add_points. destruct pts as [|p pts]; [rewrite app_nil_r; reflexivity|].
    rewrite H0.
    destruct (0 <? Z.of_nat (length (all_points v ++ p :: pts)));
      cbn [all_points]; reflexivity.
  - unfold update_point_limit.
    destruct (0 <? Z.of_nat (length (all_points v))); reflexivity.
  - intros k Hk Hm Hne. unfold add_points. destruct pts as [|p pts]; [congruence|].
    rewrite Hm.
    replace (- k <? Z.of_nat (length (all_points v ++ p :: pts))) with true
      by (symmetry; apply Z.ltb_lt; lia).
    cbn [all_points]. unfold last_items.
    replace (0 <? - k) with false by (symmetry; apply Z.ltb_ge; lia).
    rewrite Z.opp_involutive. reflexivity.
Qed.

(** ** The viewer after a whole stream *)

Lemma deliver_app : forall v s1 s2, deliver v (s1 ++ s2) = deliver (deliver v s1) s2.
Proof. intros v s1 s2. unfold deliver. apply fold_left_app. Qed.

Lemma deliver_packets : forall ps v,
  0 < max_points_display v ->
  Z.of_nat (length (all_points v)) <= max_points_display v ->
  all_points (deliver v (flat_map packet_signals ps))
  = last_items (max_points_display v) (all_points v ++ concat (map packet_points ps))
  /\ max_points_display (deliver v (flat_map packet_signals ps)) = max_points_display v.
Proof.
  induction ps as [|p ps IH]; intros v Hm Hl.
  - cbn. rewrite app_nil_r, last_items_all by exact Hl. auto.
  - cbn [flat_map map concat]. rewrite deliver_app.
    set (v1 := deliver v (packet_signals p)).
    assert (v1 = add_points v (Some (packet_points p)) (packet_colors p)) as Hv1
      by reflexivity.
    destruct (add_points_last_items v (packet_points p) (packet_colors p) Hm Hl)
      as [Hp1 Hm1].
    rewrite <- Hv1 in Hp1, Hm1.
    assert (Z.of_nat (length (all_points v1)) <= max_points_display v1) as Hl1.
    { rewrite Hp1, Hm1, last_items_length by exact Hm. lia. }
    destruct (IH v1 ltac:(rewrite Hm1; exact Hm) Hl1) as [Hp2 Hm2].
    rewrite Hp2, Hm2, Hm1, Hp1. split; [|reflexivity].
    rewrite last_items_app by exact Hm. rewrite <- app_assoc. reflexivity.
Qed.

(** A whole run of the thread, with its signal [point_received]
    connected to [add_points]: on a connected simulator whose points can
    all be serialized, with a packet size above 0 and a delay that
    [time.sleep] accepts (from 0 to [sleep_limit] milliseconds), the
    thread emits the start status, the four signals of
    each of the [ceil(N / P)] packets and the end status, no error; and
    a viewer that was empty then holds the last [max_points_display] of
    the loaded points, in order (all of them when they fit). *)
Theorem viewer_shows_whole_stream :
  forall self pts points_per_packet delay_ms whole v,
  rounding ->
  is_connected self = true ->
  points self = Some pts ->
  0 < points_per_packet ->
  0 <= delay_ms <= sleep_limit ->
  points_to_bytes pts (colors self) = Ok whole ->
  0 < max_points_display v ->
  all_points v = [] ->
  exists ps,
    (forall fuel,
        ceil_div (Z.of_nat (length pts)) points_per_packet < Z.of_nat fuel ->
        thread_run fuel self points_per_packet delay_ms
        = Some (status_update StatusStarting
                :: flat_map packet_signals ps ++ [status_update StatusComplete],
                started self))
    /\ Z.of_nat (length ps) = ceil_div (Z.of_nat (length pts)) points_per_packet
    /\ all_points (deliver v (status_update StatusStarting
                              :: flat_map packet_signals ps
                              ++ [status_update StatusComplete]))
       = last_items (max_points_display v) pts
    /\ (Z.of_nat (length pts) <= max_points_display v ->
        all_points (deliver v (status_update StatusStarting
                                :: flat_map packet_signals ps
                                ++ [status_update StatusComplete]))
        = pts).
Proof.
  intros self pts P d whole v R Hc Hp HP Hd Hser Hm Hv.
  set (N := Z.of_nat (length pts)).
  assert (0 <= ceil_div N P) as Hcd.
  { rewrite <- passes_zero by (unfold N; lia). apply passes_nonneg. exact HP. }
  destruct (drain_loop (started self) pts P d eq_refl Hp HP Hd R
              (S (Z.to_nat (ceil_div N P))) 0 0 whole)
    as (ps & Hdr & Hn & Hcat & _ & _).
  - lia.
  - exact Hser.
  - fold N. rewrite passes_zero by (unfold N; lia). lia.
  - fold N in Hdr, Hn. rewrite passes_zero in Hn by (unfold N; lia).
    cbn [Z.to_nat skipn] in Hcat.
    exists ps.
    assert (all_points (deliver v (status_update StatusStarting
                                   :: flat_map packet_signals ps
                                   ++ [status_update StatusComplete]))
            = last_items (max_points_display v) pts) as Hshow.
    { change (status_update StatusStarting :: flat_map packet_signals ps
              ++ [status_update StatusComplete])
        with ([status_update StatusStarting] ++ flat_map packet_signals ps
              ++ [status_update StatusComplete]).
      rewrite !deliver_app.
      change (deliver v [status_update StatusStarting]) with v.
      set (v2 := deliver v (flat_map packet_signals ps)).
      change (deliver v2 [status_update StatusComplete]) with v2. unfold v2.
      destruct (deliver_packets ps v Hm) as [Hall _]; [rewrite Hv; cbn; lia|].
      rewrite Hall, Hv, Hcat. reflexivity. }
    split; [|split; [exact Hn|split; [exact Hshow|]]].
    + intros fuel Hf. unfold thread_run. rewrite Hc. cbn [negb].
      rewrite (drain_fuel_mono (S (Z.to_nat (ceil_div N P))) fuel self
                 (GenCreated P d) (ps, Returned None, started self)); [reflexivity| |lia].
      rewrite (drain_created _ self pts P d Hc Hp HP Hd). exact Hdr.
    + intros Hfit. rewrite Hshow. apply last_items_all. exact Hfit.
Qed.

(* ================================================================= *)
(** * Properties of the file stream of the unified window *)

Lemma Qtrunc_monotone : forall x y, (x <= y)%Q -> Qtrunc x <= Qtrunc y.
Proof.
  intros [a b] [c d] H. unfold Qle, Qtrunc in *. cbn [Qnum Qden] in *.
  rewrite <- (Z.quot_mul_cancel_r a (Zpos b) (Zpos d)) by lia.
  rewrite <- (Z.quot_mul_cancel_r c (Zpos d) (Zpos b)) by lia.
  rewrite (Z.mul_comm (Zpos d) (Zpos b)).
  apply Z.quot_le_mono; lia.
Qed.

Lemma Qtrunc_integer : forall x n, (x == inject_Z n)%Q -> Qtrunc x = n.
Proof.
  intros [a b] n H. unfold Qeq, Qtrunc in *. cbn [Qnum Qden inject_Z] in *.
  rewrite Z.mul_1_r in H. rewrite H. apply Z.quot_mul. lia.
Qed.

Section FileStreamProperties.

Variable bytes_refused : Z -> option exn.

(** A read of a chunk that the runtime takes. *)
Lemma read_size_chunk : forall chunk_size f,
  0 < chunk_size <= ssize_max ->
  bytes_refused chunk_size = None ->
  read_size bytes_refused chunk_size f = inr (read (Z.to_nat chunk_size) f).
Proof.
  intros chunk_size f Hc Hm. unfold read_size. rewrite Hm.
  assert ((chunk_size <? ssize_min) = false) as ->
    by (apply Z.ltb_ge; unfold ssize_min; lia).
  assert ((ssize_max <? chunk_size) = false) as -> by (apply Z.ltb_ge; lia).
  assert ((chunk_size <? -1) = false) as -> by (apply Z.ltb_ge; lia).
  assert ((chunk_size =? -1) = false) as -> by (apply Z.eqb_neq; lia).
  assert ((chunk_size =? 0) = false) as -> by (apply Z.eqb_neq; lia).
  reflexivity.
Qed.

(** One pass of the loop that reads a chunk. *)
Lemma stream_loop_step : forall fuel chunk_size file_size file_path b f bytes_read packet_count,
  0 < chunk_size <= ssize_max ->
  bytes_refused chunk_size = None ->
  bytes_read < file_size ->
  stream_loop bytes_refused (S fuel) chunk_size file_size file_path (b :: f) bytes_read packet_count
  = match stream_loop bytes_refused fuel chunk_size file_size file_path
                      (skipn (Z.to_nat chunk_size) (b :: f))
                      (bytes_read + Z.of_nat (length (firstn (Z.to_nat chunk_size) (b :: f))))
                      (packet_count + 1) with
    | Some (more, e) =>
        Some (file_data_received
                (firstn (Z.to_nat chunk_size) (b :: f))
                {| chunk_number := packet_count + 1;
                   chunk_bytes := Z.of_nat (length (firstn (Z.to_nat chunk_size) (b :: f)));
                   chunk_file := file_path |}
              :: file_progress_update
                   (Qtrunc (progress_of
                              (bytes_read
                               + Z.of_nat (length (firstn (Z.to_nat chunk_size) (b :: f))))
                              file_size))
              :: file_status_update
                   (FileStreaming
                      (bytes_read + Z.of_nat (length (firstn (Z.to_nat chunk_size) (b :: f))))
                      file_size
                      (Qtrunc (progress_of
                                 (bytes_read
                                  + Z.of_nat (length (firstn (Z.to_nat chunk_size) (b :: f))))
                                 file_size)))
              :: more, e)
    | None => None
    end.
Proof.
  intros fuel chunk_size file_size file_path b f bytes_read packet_count Hc Hm Hb.
  cbn [stream_loop].
  replace (bytes_read <? file_size) with true by (symmetry; apply Z.ltb_lt; exact Hb).
  rewrite (read_size_chunk _ _ Hc Hm). unfold read.
  destruct (Z.to_nat chunk_size) as [|k] eqn:Ek; [lia|].
  cbn [firstn]. reflexivity.
Qed.

(** The loop ends once the whole file is read. *)
Lemma stream_loop_done : forall fuel chunk_size file_size file_path f packet_count,
  stream_loop bytes_refused (S fuel) chunk_size file_size file_path f file_size packet_count
  = Some ([], None).
Proof. intros. cbn [stream_loop]. rewrite Z.ltb_irrefl. reflexivity. Qed.

Lemma chunks_of_app : forall a b, chunks_of (a ++ b) = chunks_of a ++ chunks_of b.
Proof. intros a b. unfold chunks_of. apply flat_map_app. Qed.

Lemma progress_values_app : forall a b,
  progress_values (a ++ b) = progress_values a ++ progress_values b.
Proof. intros a b. unfold progress_values. apply flat_map_app. Qed.

Lemma ceil_div_small : forall n c, 0 < n <= c -> ceil_div n c = 1.
Proof.
  intros n c H. unfold ceil_div. symmetry.
  apply Z.div_unique with (r := n - 1); lia.
Qed.

Lemma ceil_div_step : forall n c, 0 < c -> 0 <= n -> ceil_div (c + n) c = 1 + ceil_div n c.
Proof.
  intros n c Hc Hn. unfold ceil_div.
  replace (c + n + c - 1) with (n + c - 1 + 1 * c) by lia.
  rewrite Z.div_add by lia. lia.
Qed.

(** The chunks of the loop, from a point where [f] is left of the
    file. *)
Lemma stream_loop_chunks : forall fuel chunk_size file_size file_path f bytes_read packet_count,
  0 < chunk_size <= ssize_max ->
  bytes_refused chunk_size = None ->
  file_size = bytes_read + Z.of_nat (length f) ->
  (length f < fuel)%nat ->
  exists signals,
    stream_loop bytes_refused fuel chunk_size file_size file_path f bytes_read packet_count
    = Some (signals, None)
    /\ concat (chunks_of signals) = f
    /\ Z.of_nat (length (chunks_of signals)) = ceil_div (Z.of_nat (length f)) chunk_size
    /\ Forall (fun c => 0 < Z.of_nat (length c) <= chunk_size) (chunks_of signals)
    /\ Forall (fun c => Z.of_nat (length c) = chunk_size) (removelast (chunks_of signals))
    /\ (forall e, ~ In (file_status_update (FileError e)) signals).
Proof.
  induction fuel as [|fuel IH]; intros chunk_size file_size file_path f bytes_read
                                       packet_count Hc Hm Hsize Hfuel; [lia|].
  destruct f as [|b f].
  - exists []. cbn [stream_loop length] in *.
    replace (bytes_read <? file_size) with false by (symmetry; apply Z.ltb_ge; lia).
    split; [reflexivity|]. split; [reflexivity|].
    split; [cbn; unfold ceil_div; symmetry; apply Z.div_small; lia|].
    split; [constructor|]. split; [constructor|]. intros e [].
  - rewrite stream_loop_step by (first [exact Hm|cbn [length] in Hsize; lia]).
    set (k := Z.to_nat chunk_size). assert (0 < k)%nat as Hk by (unfold k; lia).
    assert (Z.of_nat k = chunk_size) as Hkc by (unfold k; lia).
    set (chunk := firstn k (b :: f)). set (rest := skipn k (b :: f)).
    assert (length chunk = Nat.min k (length (b :: f))) as Hlc
      by (unfold chunk; apply length_firstn).
    assert (length rest = (length (b :: f) - k)%nat) as Hlr
      by (unfold rest; apply length_skipn).
    assert (chunk ++ rest = b :: f) as Hcat by (apply firstn_skipn).
    cbn [length] in Hlc, Hlr, Hsize, Hfuel.
    destruct (IH chunk_size file_size file_path rest
                 (bytes_read + Z.of_nat (length chunk)) (packet_count + 1) Hc Hm)
      as (more & Hrun & Hconcat & Hcount & Hsizes & Hfull & Hnoerr); [lia|lia|].
    rewrite Hrun. eexists. split; [reflexivity|].
    cbn [chunks_of flat_map app]. fold (chunks_of more).
    split; [cbn [concat]; rewrite Hconcat; exact Hcat|].
    split; [|split; [|split]].
    + cbn [length]. rewrite Nat2Z.inj_succ, Hcount, Hlr.
      destruct (le_lt_dec (S (length f)) k) as [Hle|Hgt].
      * replace (S (length f) - k)%nat with 0%nat by lia.
        rewrite (ceil_div_small (Z.of_nat (S (length f)))) by lia.
        unfold ceil_div. rewrite Z.div_small by lia. reflexivity.
      * replace (Z.of_nat (S (length f)))
          with (chunk_size + Z.of_nat (S (length f) - k)) by lia.
        rewrite ceil_div_step by lia. lia.
    + constructor; [lia|exact Hsizes].
    + destruct (chunks_of more) as [|c1 cs] eqn:Ecs; [constructor|].
      change (removelast (chunk :: c1 :: cs)) with (chunk :: removelast (c1 :: cs)).
      constructor; [|exact Hfull].
      assert (rest <> []) as Hne.
      { intros E. rewrite E in Hconcat. cbn [concat] in Hconcat.
        pose proof (Forall_inv Hsizes) as Hc1. cbn beta in Hc1.
        destruct c1; [cbn in Hc1; lia|discriminate]. }
      assert (length rest <> 0%nat) as Hne' by (destruct rest; [congruence|discriminate]).
      lia.
    + intros e [E|[E|[E|E]]]; try discriminate. eapply Hnoerr. exact E.
Qed.

(** The progress values of the loop. *)
Lemma stream_loop_progress : forall fuel chunk_size file_size file_path f bytes_read packet_count,
  rounding ->
  0 < chunk_size <= ssize_max ->
  bytes_refused chunk_size = None ->
  0 <= bytes_read ->
  file_size = bytes_read + Z.of_nat (length f) ->
  (length f < fuel)%nat ->
  exists signals,
    stream_loop bytes_refused fuel chunk_size file_size file_path f bytes_read packet_count
    = Some (signals, None)
    /\ Sorted Z.le (progress_values signals)
    /\ Forall (fun n => Qtrunc (progress_of bytes_read file_size) <= n <= 100)
              (progress_values signals)
    /\ (f <> [] -> last (progress_values signals) 0 = 100).
Proof.
  induction fuel as [|fuel IH]; intros chunk_size file_size file_path f bytes_read
                                       packet_count R Hc Hm Hb Hsize Hfuel; [lia|].
  destruct f as [|b f].
  - exists []. cbn [stream_loop length] in *.
    replace (bytes_read <? file_size) with false by (symmetry; apply Z.ltb_ge; lia).
    split; [reflexivity|]. split; [constructor|]. split; [constructor|]. congruence.
  - rewrite stream_loop_step by (first [exact Hm|cbn [length] in Hsize; lia]).
    set (k := Z.to_nat chunk_size). assert (0 < k)%nat as Hk by (unfold k; lia).
    assert (Z.of_nat k = chunk_size) as Hkc by (unfold k; lia).
    set (chunk := firstn k (b :: f)). set (rest := skipn k (b :: f)).
    assert (length chunk = Nat.min k (length (b :: f))) as Hlc
      by (unfold chunk; apply length_firstn).
    assert (length rest = (length (b :: f) - k)%nat) as Hlr
      by (unfold rest; apply length_skipn).
    cbn [length] in Hlc, Hlr, Hsize, Hfuel.
    set (read_now := bytes_read + Z.of_nat (length chunk)).
    assert (bytes_read < read_now <= file_size) as Hnow by (unfold read_now; lia).
    destruct (IH chunk_size file_size file_path rest read_now (packet_count + 1) R Hc Hm)
      as (more & Hrun & Hsorted & Hbounds & Hlast); [lia|unfold read_now; lia|lia|].
    rewrite Hrun. eexists. split; [reflexivity|].
    cbn [progress_values flat_map app]. fold (progress_values more).
    assert (0 < file_size) as Hfs by lia.
    assert (Qtrunc (progress_of bytes_read file_size)
            <= Qtrunc (progress_of read_now file_size)) as Hup.
    { apply Qtrunc_monotone, progress_of_monotone; [exact R|exact Hfs|lia]. }
    assert (Qtrunc (progress_of read_now file_size) <= 100) as Htop.
    { rewrite <- (Qtrunc_integer (progress_of file_size file_size) 100)
        by (apply progress_of_full; [exact R|exact Hfs]).
      apply Qtrunc_monotone, progress_of_monotone; [exact R|exact Hfs|lia]. }
    split; [|split].
    + constructor; [exact Hsorted|].
      destruct (progress_values more) as [|n ns]; constructor.
      pose proof (Forall_inv Hbounds) as Hn. cbn beta in Hn. lia.
    + constructor; [lia|].
      eapply Forall_impl; [|exact Hbounds]. cbn beta. intros n Hn. lia.
    + intros _. destruct rest as [|r rest'] eqn:Er.
      * assert (read_now = file_size) as -> by (cbn [length] in Hlr; lia).
        assert (progress_values more = []) as ->.
        { destruct fuel as [|fuel']; [cbn in Hfuel; lia|].
          cbn [stream_loop] in Hrun. rewrite Z.ltb_irrefl in Hrun.
          inversion Hrun. reflexivity. }
        cbn [last]. apply Qtrunc_integer, progress_of_full; [exact R|exact Hfs].
      * specialize (Hlast ltac:(discriminate)).
        destruct (progress_values more) as [|n ns]; [cbn in Hlast; lia|].
        exact Hlast.
Qed.

(** On a file that exists, with a chunk size that [f.read] takes (above
    0, within [Py_ssize_t], and of a size for which the machine gives
    the memory) and no [stop()], the thread ends, and the chunks of its
    [data_received] signals, put end to end, are the file; they are
    [ceil(size / chunk_size)], none is empty and every one but the last
    has [chunk_size] octets. The last signal is the status ["Streaming
    complete"] and no error status is emitted. *)
Theorem file_stream_reassembles : forall fs c path content chunk_size,
  fs (c :: path) = Some content ->
  0 < chunk_size <= ssize_max ->
  bytes_refused chunk_size = None ->
  exists signals,
    file_thread_run bytes_refused fs (Some (c :: path)) chunk_size = Some signals
    /\ concat (chunks_of signals) = content
    /\ Z.of_nat (length (chunks_of signals))
       = ceil_div (Z.of_nat (length content)) chunk_size
    /\ Forall (fun c => 0 < Z.of_nat (length c) <= chunk_size) (chunks_of signals)
    /\ Forall (fun c => Z.of_nat (length c) = chunk_size) (removelast (chunks_of signals))
    /\ last signals (file_status_update FileNotFound) = file_status_update FileComplete
    /\ (forall e, ~ In (file_status_update (FileError e)) signals).
Proof.
  intros fs c path content chunk_size Hfs Hc Hm.
  destruct (stream_loop_chunks (S (length content)) chunk_size (Z.of_nat (length content))
              (c :: path) content 0 0 Hc Hm)
    as (signals & Hrun & Hconcat & Hcount & Hsizes & Hfull & Hnoerr); [lia|lia|].
  exists (signals ++ [file_status_update FileComplete]).
  unfold file_thread_run. rewrite Hfs, Hrun.
  split; [reflexivity|].
  rewrite chunks_of_app. cbn [chunks_of flat_map app]. rewrite app_nil_r.
  fold (chunks_of signals).
  split; [exact Hconcat|]. split; [exact Hcount|]. split; [exact Hsizes|].
  split; [exact Hfull|]. split; [apply last_last|].
  intros e Hin. apply in_app_or in Hin. destruct Hin as [Hin|[Hin|[]]].
  - eapply Hnoerr. exact Hin.
  - discriminate.
Qed.

(** In such a run (a file that exists, a chunk size above 0, within
    [Py_ssize_t] and of a size for which the machine gives the memory,
    no [stop()]) the values of [progress_update] never decrease, never
    pass 100, and the last one is 100 when the file is not empty. *)
Theorem file_stream_progress : forall fs c path content chunk_size,
  rounding ->
  fs (c :: path) = Some content ->
  0 < chunk_size <= ssize_max ->
  bytes_refused chunk_size = None ->
  exists signals,
    file_thread_run bytes_refused fs (Some (c :: path)) chunk_size = Some signals
    /\ Sorted Z.le (progress_values signals)
    /\ Forall (fun n => n <= 100) (progress_values signals)
    /\ (content <> [] -> last (progress_values signals) 0 = 100).
Proof.
  intros fs c path content chunk_size R Hfs Hc Hm.
  destruct (stream_loop_progress (S (length content)) chunk_size
              (Z.of_nat (length content)) (c :: path) content 0 0 R Hc Hm)
    as (signals & Hrun & Hsorted & Hbounds & Hlast); [lia|lia|lia|].
  exists (signals ++ [file_status_update FileComplete]).
  unfold file_thread_run. rewrite Hfs, Hrun.
  split; [reflexivity|].
  rewrite progress_values_app. cbn [progress_values flat_map app]. rewrite app_nil_r.
  fold (progress_values signals).
  split; [exact Hsorted|]. split; [|exact Hlast].
  eapply Forall_impl; [|exact Hbounds]. cbn beta. intros n Hn. lia.
Qed.

(** The other runs of the thread. Without a path, with an empty path or
    with a path that does not exist, the only signal is the status
    ["Error: File not found"]. On an empty file, and on any file with a
    chunk size of 0, the only signal is ["Streaming complete"]: nothing
    is sent. When the first [read] raises, the only signal is the error
    status, without ["Streaming complete"]: [OverflowError] for a chunk
    size outside [Py_ssize_t], [ValueError] for one below -1 within it,
    and what the runtime raises for a size whose memory the machine
    does not give. With a chunk size of -1 the whole file is sent as one
    chunk. *)
Theorem file_stream_edge_cases : forall fs chunk_size,
  file_thread_run bytes_refused fs None chunk_size
  = Some [file_status_update FileNotFound]
  /\ file_thread_run bytes_refused fs (Some []) chunk_size
     = Some [file_status_update FileNotFound]
  /\ (forall path,
        fs path = None ->
        file_thread_run bytes_refused fs (Some path) chunk_size
        = Some [file_status_update FileNotFound])
  /\ (forall c path,
        fs (c :: path) = Some [] ->
        file_thread_run bytes_refused fs (Some (c :: path)) chunk_size
        = Some [file_status_update FileComplete])
  /\ (forall c path b content,
        fs (c :: path) = Some (b :: content) ->
        (chunk_size = 0 ->
         file_thread_run bytes_refused fs (Some (c :: path)) chunk_size
         = Some [file_status_update FileComplete])
        /\ (ssize_min <= chunk_size < -1 ->
            file_thread_run bytes_refused fs (Some (c :: path)) chunk_size
            = Some [file_status_update (FileError ValueError)])
        /\ (chunk_size < ssize_min \/ ssize_max < chunk_size ->
            file_thread_run bytes_refused fs (Some (c :: path)) chunk_size
            = Some [file_status_update (FileError OverflowError)])
        /\ (forall e,
              0 < chunk_size <= ssize_max ->
              bytes_refused chunk_size = Some e ->
              file_thread_run bytes_refused fs (Some (c :: path)) chunk_size
              = Some [file_status_update (FileError e)])
        /\ (chunk_size = -1 ->
            exists signals,
              file_thread_run bytes_refused fs (Some (c :: path)) chunk_size = Some signals
              /\ chunks_of signals = [b :: content])).
Proof.
  intros fs chunk_size. split; [reflexivity|]. split; [reflexivity|].
  split; [|split].
  - intros [|c path] H; [reflexivity|]. unfold file_thread_run. rewrite H. reflexivity.
  - intros c path H. unfold file_thread_run. rewrite H. reflexivity.
  - intros c path b content H.
    assert ((0 <? Z.of_nat (length (b :: content))) = true) as Hlt
      by (apply Z.ltb_lt; cbn [length]; lia).
    split; [|split; [|split; [|split]]].
    + intros ->. unfold file_thread_run. rewrite H. cbv zeta.
      cbn [stream_loop]. rewrite Hlt. reflexivity.
    + intros Hc. unfold file_thread_run. rewrite H. cbv zeta.
      cbn [stream_loop]. rewrite Hlt. unfold read_size.
      assert ((chunk_size <? ssize_min) = false) as -> by (apply Z.ltb_ge; lia).
      assert ((ssize_max <? chunk_size) = false) as ->
        by (apply Z.ltb_ge; unfold ssize_max; lia).
      assert ((chunk_size <? -1) = true) as -> by (apply Z.ltb_lt; lia).
      reflexivity.
    + intros Hc. unfold file_thread_run. rewrite H. cbv zeta.
      cbn [stream_loop]. rewrite Hlt. unfold read_size.
      assert ((chunk_size <? ssize_min) || (ssize_max <? chunk_size) = true) as ->.
      { apply orb_true_iff. destruct Hc; [left|right]; apply Z.ltb_lt; assumption. }
      reflexivity.
    + intros e Hc Hm. unfold file_thread_run. rewrite H. cbv zeta.
      cbn [stream_loop]. rewrite Hlt. unfold read_size. rewrite Hm.
      assert ((chunk_size <? ssize_min) = false) as ->
        by (apply Z.ltb_ge; unfold ssize_min; lia).
      assert ((ssize_max <? chunk_size) = false) as -> by (apply Z.ltb_ge; lia).
      assert ((chunk_size <? -1) = false) as -> by (apply Z.ltb_ge; lia).
      assert ((chunk_size =? -1) = false) as -> by (apply Z.eqb_neq; lia).
      assert ((chunk_size =? 0) = false) as -> by (apply Z.eqb_neq; lia).
      reflexivity.
    + intros ->. unfold file_thread_run. rewrite H. cbv zeta.
      cbn [stream_loop]. rewrite Hlt.
      change (read_size bytes_refused (-1) (b :: content)) with (@inr exn _ (b :: content, @nil byte)).
      cbn [Z.add length]. rewrite stream_loop_done.
      eexists. split; [reflexivity|]. reflexivity.
Qed.

End FileStreamProperties.

(* ================================================================= *)
(** * The slices of a stream *)

Lemma slice_clamped : forall (A : Type) (l : list A) a P,
  0 <= a -> 0 < P ->
  slice l a (Z.min (a + P) (Z.of_nat (length l))) = slice l a (a + P).
Proof.
  intros A l a P Ha HP. unfold slice.
  destruct (Z.min_spec (a + P) (Z.of_nat (length l))) as [[_ ->]|[Hle ->]]; [reflexivity|].
  rewrite !firstn_all2; [reflexivity| |]; rewrite length_skipn; lia.
Qed.

Lemma slice_length : forall (A : Type) (l : list A) a P,
  0 <= a -> 0 < P -> a < Z.of_nat (length l) ->
  Z.of_nat (length (slice l a (a + P))) = Z.min P (Z.of_nat (length l) - a).
Proof.
  intros A l a P Ha HP Hl. unfold slice. rewrite length_firstn, length_skipn. lia.
Qed.

(** The packets that follow a [yield] at index [i], when nothing
    touches the simulator. *)
Lemma drain_suspended_slices : forall fuel self pts i sent P d ps e self',
  points self = Some pts ->
  0 < P ->
  0 <= i + P ->
  drain fuel self (GenSuspended i (Z.of_nat (length pts)) sent P d) = Some (ps, e, self') ->
  forall k p,
    nth_error ps k = Some p ->
    packet_points p = slice pts (i + P + Z.of_nat k * P) (i + P + Z.of_nat k * P + P)
    /\ i + P + Z.of_nat k * P < Z.of_nat (length pts).
Proof.
  induction fuel as [|fuel IH]; intros self pts i sent P d ps e self' Hp HP Hi H k p Hk;
    [discriminate|].
  cbn [drain] in H.
  destruct (gen_next self (GenSuspended i (Z.of_nat (length pts)) sent P d))
    as [[[q|v|x] s1] g1] eqn:En.
  - cbn [gen_next] in En. destruct (sleep_ms d); [discriminate|].
    apply loop_pass_yield in En.
    destruct En as (Hin & _ & -> & -> & _ & _ & _ & pts' & Hp' & Hslice & _).
    rewrite Hp in Hp'. inversion Hp'; subst pts'. clear Hp'.
    unfold in_range_loop in Hin.
    replace (0 <? P) with true in Hin by (symmetry; apply Z.ltb_lt; exact HP).
    apply Z.ltb_lt in Hin.
    destruct (drain fuel self (GenSuspended (i + P) (Z.of_nat (length pts)) (sent + 1) P d))
      as [[[ps' e'] s']|] eqn:Ed; [|discriminate].
    inversion H; subst. clear H.
    destruct k as [|k].
    + cbn [nth_error] in Hk. inversion Hk; subst q. clear Hk.
      rewrite Hslice, slice_clamped by lia.
      cbn [Z.of_nat]. rewrite Z.mul_0_l, Z.add_0_r. split; [reflexivity|exact Hin].
    + cbn [nth_error] in Hk.
      destruct (IH self pts (i + P) (sent + 1) P d ps' e self' Hp HP ltac:(lia) Ed k p Hk)
        as [Hs Hr].
      rewrite Nat2Z.inj_succ.
      replace (i + P + Z.succ (Z.of_nat k) * P) with (i + P + P + Z.of_nat k * P) by lia.
      split; [exact Hs|exact Hr].
  - inversion H; subst. destruct k; discriminate.
  - inversion H; subst. destruct k; discriminate.
Qed.

(** In a stream that nothing disturbs, with a packet size [P] above 0,
    the packet of rank [k] (from 0) carries the points of the indices
    [k * P] to [k * P + P - 1], as far as there are points; so every
    packet holds at least one point and at most [P], and every packet
    that another one follows holds exactly [P]. This holds for the
    packets handed over before an error ends the stream as well. *)
Theorem packets_are_consecutive_slices :
  forall fuel self pts points_per_packet delay_ms ps e self',
  points self = Some pts ->
  0 < points_per_packet ->
  drain fuel self (GenCreated points_per_packet delay_ms) = Some (ps, e, self') ->
  (forall k p,
      nth_error ps k = Some p ->
      packet_points p
      = slice pts (Z.of_nat k * points_per_packet)
              (Z.of_nat k * points_per_packet + points_per_packet)
      /\ 0 < Z.of_nat (length (packet_points p)) <= points_per_packet)
  /\ Forall (fun p => Z.of_nat (length (packet_points p)) = points_per_packet)
            (removelast ps).
Proof.
  intros fuel self pts P d ps e self' Hp HP H.
  assert (forall k p,
             nth_error ps k = Some p ->
             packet_points p = slice pts (Z.of_nat k * P) (Z.of_nat k * P + P)
             /\ Z.of_nat k * P < Z.of_nat (length pts)) as Hall.
  { destruct fuel as [|fuel]; [discriminate|].
    cbn [drain] in H.
    destruct (gen_next self (GenCreated P d)) as [[[q|v|x] s1] g1] eqn:En.
    - cbn [gen_next] in En.
      destruct (is_connected self); [|discriminate]. cbn [negb] in En.
      rewrite Hp in En. destruct (P =? 0); [discriminate|].
      apply loop_pass_yield in En.
      destruct En as (Hin & _ & -> & -> & _ & _ & _ & pts' & Hp' & Hslice & _).
      cbn [points] in Hp'. inversion Hp'; subst pts'. clear Hp'.
      unfold in_range_loop in Hin.
      replace (0 <? P) with true in Hin by (symmetry; apply Z.ltb_lt; exact HP).
      apply Z.ltb_lt in Hin.
      match type of H with
      | match drain fuel ?s ?g with _ => _ end = _ =>
          destruct (drain fuel s g) as [[[ps' e'] s']|] eqn:Ed; [|discriminate]
      end.
      inversion H; subst. clear H.
      intros [|k] p Hk.
      + cbn [nth_error] in Hk. inversion Hk; subst q. clear Hk.
        rewrite Hslice, slice_clamped by lia. cbn [Z.of_nat]. rewrite Z.mul_0_l.
        split; [reflexivity|lia].
      + cbn [nth_error] in Hk.
        eapply drain_suspended_slices in Ed; [|reflexivity|exact HP|lia|exact Hk].
        destruct Ed as [Hs Hr]. rewrite Nat2Z.inj_succ.
        replace (Z.succ (Z.of_nat k) * P) with (0 + P + Z.of_nat k * P) by lia.
        split; [exact Hs|exact Hr].
    - inversion H; subst. intros [|k] p Hk; discriminate.
    - inversion H; subst. intros [|k] p Hk; discriminate. }
  split.
  - intros k p Hk. destruct (Hall k p Hk) as [Hs Hr]. split; [exact Hs|].
    rewrite Hs, slice_length by lia. lia.
  - apply Forall_forall. intros p Hin.
    apply In_nth_error in Hin. destruct Hin as (k & Hk).
    assert (k < length (removelast ps))%nat as Hlt
      by (apply nth_error_Some; congruence).
    assert (ps <> []) as Hne by (intros ->; cbn in Hlt; lia).
    assert (length ps = S (length (removelast ps))) as Hlen.
    { rewrite (app_removelast_last p Hne) at 1. rewrite length_app. cbn. lia. }
    assert (nth_error ps k = Some p) as Hk1.
    { rewrite (app_removelast_last p Hne). rewrite nth_error_app1 by exact Hlt. exact Hk. }
    destruct (Hall k p Hk1) as [Hs Hr].
    destruct (nth_error ps (S k)) as [q|] eqn:Eq.
    + destruct (Hall (S k) q Eq) as [_ Hr'].
      rewrite Hs, slice_length by lia. rewrite Nat2Z.inj_succ in Hr'. lia.
    + apply nth_error_None in Eq. lia.
Qed.

(* ================================================================= *)
(** * Further edge cases *)

(** ** An ASCII body that is too short *)

Lemma read_ascii_empty : forall n inf, read_ascii (S n) inf [] = Raise IndexError.
Proof. reflexivity. Qed.

Lemma bind_raises : forall (A B : Type) (r : result A) (k : A -> result B),
  r <> Hang ->
  (forall a, r = Ok a -> exists e, k a = Raise e) ->
  exists e, bind r k = Raise e.
Proof.
  intros A B [a|e|] k Hn Hk; cbn [bind]; [apply Hk; reflexivity|eauto|congruence].
Qed.

Lemma decode_total : forall raw, decode raw <> Hang.
Proof. intros raw. unfold decode. destruct (utf8_decode raw); discriminate. Qed.

Lemma index_total : forall (A : Type) (l : list A) i, index l i <> Hang.
Proof. intros A l i. unfold index. destruct (nth_error l i); discriminate. Qed.

Lemma to_float_total : forall t, to_float t <> Hang.
Proof. intros t. unfold to_float. destruct (py_float t); discriminate. Qed.

Lemma int_total : forall t, int t <> Hang.
Proof. intros t. unfold int. destruct (py_int t); discriminate. Qed.

Lemma int_truediv_total : forall a b, int_truediv a b <> Hang.
Proof.
  intros a b. unfold int_truediv. destruct (b =? 0); [discriminate|].
  destruct a; try discriminate; destruct (SFdiv _ _ _ _); discriminate.
Qed.

Lemma normalized_total : forall r g b, normalized r g b <> Hang.
Proof.
  intros r g b. unfold normalized.
  repeat (apply bind_total; [apply int_truediv_total|intros ?]). discriminate.
Qed.

Lemma ascii_color_total : forall inf values, ascii_color inf values <> Hang.
Proof.
  intros inf values. unfold ascii_color.
  destruct (has_color inf && (6 <=? length values)%nat); [|discriminate].
  repeat (apply bind_total; [apply index_total|intros ?];
          apply bind_total; [apply int_total|intros ?]).
  apply normalized_total.
Qed.

(** With more passes than the body has lines, the ASCII loop raises. *)
Lemma read_ascii_short : forall n inf f,
  (length (lines f) < n)%nat -> exists e, read_ascii n inf f = Raise e.
Proof.
  induction n as [|n IH]; intros inf f H; [lia|].
  destruct f as [|c f]; [exists IndexError; reflexivity|].
  rewrite lines_cons in H. cbn [read_ascii].
  remember (readline (c :: f)) as rl eqn:Erl. destruct rl as [raw rest].
  cbn [fst snd length] in H.
  apply bind_raises; [apply decode_total|intros line _].
  do 3 (apply bind_raises; [apply index_total|intros ? _];
        apply bind_raises; [apply to_float_total|intros ? _]).
  apply bind_raises; [apply ascii_color_total|intros color _].
  destruct (IH inf rest) as (e & ->); [lia|].
  exists e. reflexivity.
Qed.

(** An ASCII file whose body has fewer lines than the header declares
    vertices is not loaded: [load_ply_file] returns [False] and leaves
    the simulator as it was. A binary body that is too short is loaded
    with the points it has. *)
Theorem short_ascii_body_fails : forall fs filename self content inf body,
  fs filename = Some content ->
  read_header content = Ok (inf, body) ->
  format_type inf = lit "ascii" ->
  Z.of_nat (length (lines body)) < num_points inf ->
  load_ply_file fs filename self = Ok (false, self).
Proof.
  intros fs filename self content inf body Hfs Hh Hf Hn.
  unfold load_ply_file, parse_ply. rewrite Hfs, Hh. cbn [bind].
  rewrite Hf, str_eqb_refl.
  destruct (read_ascii_short (Z.to_nat (num_points inf)) inf body) as (e & ->); [lia|].
  reflexivity.
Qed.

(** ** The writer *)

Lemma pack_fff_length : forall p bs, pack_fff p = Ok bs -> length bs = 12%nat.
Proof.
  intros [[x y] z] bs H. unfold pack_fff in H.
  apply bind_ok in H. destruct H as (a & Ha & H).
  apply bind_ok in H. destruct H as (b & Hb & H).
  apply bind_ok in H. destruct H as (c & Hc & H).
  inversion H; subst.
  destruct (pack_f_four _ _ Ha) as (? & ? & ? & ? & ->).
  destruct (pack_f_four _ _ Hb) as (? & ? & ? & ? & ->).
  destruct (pack_f_four _ _ Hc) as (? & ? & ? & ? & ->).
  reflexivity.
Qed.

Lemma bits32_of_float_overflow : forall x e, bits32_of_float x = Raise e -> e = OverflowError.
Proof.
  intros x e H. destruct x as [s|s| |s m e']; cbn [bits32_of_float] in H; try discriminate.
  destruct (binary_round 24 128 s m e') as [s'|s'| |s' m' e'']; try discriminate.
  - inversion H. reflexivity.
  - destruct (Z.pos (digits2_pos m') =? 24); discriminate.
Qed.

Lemma pack_fff_overflow : forall p e, pack_fff p = Raise e -> e = OverflowError.
Proof.
  intros [[x y] z] e H. unfold pack_fff, pack_f in H.
  repeat (apply bind_raise in H; destruct H as [H|(? & _ & H)];
          [apply bind_raise in H; destruct H as [H|(? & _ & H)];
           [eapply bits32_of_float_overflow; eauto|discriminate]|]).
  discriminate.
Qed.

Lemma write_points_result : forall vs,
  (exists body, write_points vs = Ok body /\ length body = (15 * length vs)%nat)
  \/ write_points vs = Raise OverflowError.
Proof.
  induction vs as [|v vs IH]; [left; exists []; auto|].
  cbn [write_points]. rewrite pack_BBB_bytes.
  destruct (pack_fff (position v)) as [pos|e|] eqn:Ep; cbn [bind].
  - destruct IH as [(body & -> & Hl)| ->]; cbn [bind]; [|right; reflexivity].
    left. eexists. split; [reflexivity|].
    apply pack_fff_length in Ep. rewrite length_app, Ep. cbn [app length]. lia.
  - right. apply pack_fff_overflow in Ep. subst e. reflexivity.
  - exfalso. eapply pack_fff_total. exact Ep.
Qed.

(** [create_test_ply] either writes the header for the number of
    vertices followed by exactly fifteen octets for each vertex, or it
    raises [OverflowError], the refusal of [struct.pack] for a
    coordinate beyond the range of 32-bit floats; the colors, which are
    octets, never make it fail. *)
Theorem written_file_layout : forall vs,
  (exists body,
      create_test_ply vs = Ok (ply_header (Z.of_nat (length vs)) ++ body)
      /\ write_points vs = Ok body
      /\ length body = (15 * length vs)%nat)
  \/ create_test_ply vs = Raise OverflowError.
Proof.
  intros vs. unfold create_test_ply.
  destruct (write_points_result vs) as [(body & Hw & Hl)|Hw]; rewrite Hw; cbn [bind].
  - left. exists body. auto.
  - right. reflexivity.
Qed.

(** ** The thread always ends *)

Lemma drain_step : forall fuel self g,
  drain (S fuel) self g
  = match gen_next self g with
    | (Yield p, self', g') =>
        match drain fuel self' g' with
        | Some (ps, e, self'') => Some (p :: ps, e, self'')
        | None => None
        end
    | (Return v, self', _) => Some ([], Returned v, self')
    | (Throw e, self', _) => Some ([], Thrown e, self')
    end.
Proof. reflexivity. Qed.

Lemma drain_suspended_ends : forall n self i total sent P d,
  0 < P ->
  total - i <= Z.of_nat n ->
  exists ps e,
    drain (S n) self (GenSuspended (i - P) total sent P d) = Some (ps, e, self).
Proof.
  induction n as [|n IH]; intros self i total sent P d HP Hn.
  - cbn [drain gen_next]. destruct (sleep_ms d); [eexists _, _; reflexivity|].
    replace (i - P + P) with i by lia. unfold loop_pass, in_range_loop.
    replace (0 <? P) with true by (symmetry; apply Z.ltb_lt; exact HP).
    replace (i <? total) with false by (symmetry; apply Z.ltb_ge; lia).
    eexists _, _. reflexivity.
  - rewrite drain_step.
    destruct (gen_next self (GenSuspended (i - P) total sent P d))
      as [[[q|v|x] s1] g1] eqn:En.
    + cbn [gen_next] in En. destruct (sleep_ms d); [discriminate|].
      replace (i - P + P) with i in En by lia.
      apply loop_pass_yield in En.
      destruct En as (_ & _ & -> & -> & _).
      destruct (IH self (i + P) total (sent + 1) P d HP) as (ps & e & Hd); [lia|].
      replace (i + P - P) with i in Hd by lia. rewrite Hd.
      eexists _, _. reflexivity.
    + pose proof (gen_next_self self (GenSuspended (i - P) total sent P d)) as Hs.
      rewrite En in Hs. cbn [fst snd] in Hs.
      assert (s1 = self) as ->.
      { destruct Hs as [Hs|(_ & _ & Hs)]; [exact Hs|].
        cbn [gen_next] in En. destruct (sleep_ms d); [inversion En; reflexivity|].
        pose proof (loop_pass_self self (i - P + P) total sent P d) as Hl.
        rewrite En in Hl. exact Hl. }
      eexists _, _. reflexivity.
    + pose proof (gen_next_self self (GenSuspended (i - P) total sent P d)) as Hs.
      rewrite En in Hs. cbn [fst snd] in Hs.
      assert (s1 = self) as ->.
      { destruct Hs as [Hs|(_ & _ & Hs)]; [exact Hs|].
        cbn [gen_next] in En. destruct (sleep_ms d); [inversion En; reflexivity|].
        pose proof (loop_pass_self self (i - P + P) total sent P d) as Hl.
        rewrite En in Hl. exact Hl. }
      eexists _, _. reflexivity.
Qed.

(** Whatever the simulator, the packet size and the delay, the run of
    the thread ends (no [stop()] is needed for that): on a simulator
    that is not connected with the error status alone, and on a
    connected one with the start status first and, whether the stream
    ended by itself or by an exception, the status ["Hardware stream
    complete"] last. *)
Theorem thread_always_ends : forall self points_per_packet delay_ms,
  exists fuel signals self',
    thread_run fuel self points_per_packet delay_ms = Some (signals, self')
    /\ (is_connected self = false ->
        signals = [status_update StatusNotConnected] /\ self' = self)
    /\ (is_connected self = true ->
        hd_error signals = Some (status_update StatusStarting)
        /\ last signals (status_update StatusStarting) = status_update StatusComplete).
Proof.
  intros self P d. unfold thread_run.
  destruct (is_connected self) eqn:Ec; cbn [negb].
  - assert (exists fuel ps e self', drain fuel self (GenCreated P d) = Some (ps, e, self'))
      as (fuel & ps & e & self' & Hd).
    { destruct (gen_next self (GenCreated P d)) as [[[q|v|x] s1] g1] eqn:En.
      - pose proof En as En'. cbn [gen_next] in En. rewrite Ec in En. cbn [negb] in En.
        destruct (points self) as [pts|] eqn:Ep; [|discriminate].
        destruct (P =? 0) eqn:EP; [discriminate|].
        apply loop_pass_yield in En.
        destruct En as (Hin & _ & -> & -> & _).
        unfold in_range_loop in Hin.
        destruct (0 <? P) eqn:E0.
        + apply Z.ltb_lt in E0.
          set (s := {| current_ply_file := current_ply_file self; points := Some pts;
                       colors := colors self; info := info self;
                       is_connected := true; streaming := true |}) in *.
          destruct (drain_suspended_ends (length pts) s P (Z.of_nat (length pts)) (0 + 1) P d E0)
            as (ps & e & Hd); [lia|].
          replace (P - P) with 0 in Hd by lia.
          exists (S (S (length pts))), (q :: ps), e, s.
          rewrite drain_step, En', Hd. reflexivity.
        + apply Z.ltb_lt in Hin. lia.
      - exists 1%nat, [], (Returned v), s1. cbn [drain]. rewrite En. reflexivity.
      - exists 1%nat, [], (Thrown x), s1. cbn [drain]. rewrite En. reflexivity. }
    exists fuel. rewrite Hd. eexists _, _. split; [reflexivity|].
    split; [discriminate|]. intros _. split; [reflexivity|].
    rewrite app_assoc, app_comm_cons.
    apply last_last.
  - exists 0%nat. eexists _, _. split; [reflexivity|].
    split; [auto|discriminate].
Qed.

End Simulator.

(* ================================================================= *)
(** * The properties on the sample data *)

(** The reader, the generator and the thread with the instances of the
    interpreter's functions on a little-endian host. *)
Abbreviation load := (load_ply_file LittleEndian ascii_int int_literal_float).
Abbreviation next := (gen_next exact_arithmetic).
Abbreviation iterate := (drain exact_arithmetic).

Lemma exact_arithmetic_rounding : rounding exact_arithmetic.
Proof.
  constructor; unfold exact_arithmetic.
  - intros x y H. exact H.
  - reflexivity.
  - reflexivity.
Defined.

Example load_sample : load sample_folder (lit "scan.ply") init = Ok (true, sample_loaded).
Proof. vm_compute. reflexivity. Qed.

Example load_empty :
  load sample_folder (lit "empty.ply") init = Ok (true, disconnect_hardware empty_connected).
Proof. vm_compute. reflexivity. Qed.

(** The three sample points in packets of two: sequence ids 1 and 2,
    progress 200/3 and 100. *)
Example stream_sample_progress :
  match iterate 5 sample_connected (GenCreated 2 0) with
  | Some (ps, e, _) => (map packet_id ps, map progress ps, e)
  | None => ([], [], Thrown TypeError)
  end = ([1; 2], [(200 # 3)%Q; (300 # 3)%Q], Returned None).
Proof. vm_compute. reflexivity. Qed.

(** ** C1 *)

Lemma packetization_complete_witness :
  exists ps,
    (forall fuel,
        ceil_div (Z.of_nat (length sample_points)) 2 < Z.of_nat fuel ->
        iterate fuel sample_connected (GenCreated 2 0)
        = Some (ps, Returned None, started sample_connected))
    /\ Z.of_nat (length ps) = ceil_div (Z.of_nat (length sample_points)) 2
    /\ concat (map packet_points ps) = sample_points
    /\ concat (map raw_bytes ps)
       = match points_to_bytes sample_points (Some sample_colors) with
         | Ok whole => whole
         | _ => []
         end
    /\ (sample_points <> [] ->
        exists ps' p, ps = ps' ++ [p] /\ (progress p == 100)%Q).
Proof.
  apply (packetization_complete exact_arithmetic sample_connected sample_points 2 0).
  - exact exact_arithmetic_rounding.
  - reflexivity.
  - reflexivity.
  - lia.
  - unfold sleep_limit. lia.
  - vm_compute. reflexivity.
Defined.

(** The claim as the specification words it fails in three ways. A set
    loaded from an ASCII file with coordinates declared as doubles can
    hold the abscissa 1e39, which [struct.pack] refuses for the format
    [f]: the iteration ends with [OverflowError] before its first packet,
    where [ceil(1 / 1)] is one. A loaded set of no point gives no packet
    at all: no run of the generator gives exactly one item. And with a
    delay that [time.sleep] refuses, a negative one or one of 10^13
    milliseconds, the three sample points in packets of two give one
    packet, then the exception, where [ceil(3 / 2)] is two. *)
Lemma packetization_counterexample :
  (exists loaded connected pts,
      load sample_folder (lit "double.ply") init = Ok (true, loaded)
      /\ connect_hardware loaded = (true, connected)
      /\ points connected = Some pts
      /\ length pts = 1%nat
      /\ forall fuel ps e self',
           iterate fuel connected (GenCreated 1 0) = Some (ps, e, self') ->
           e = Thrown OverflowError
           /\ Z.of_nat (length ps) <> ceil_div (Z.of_nat (length pts)) 1)
  /\
  (load sample_folder (lit "empty.ply") init = Ok (true, disconnect_hardware empty_connected)
   /\ connect_hardware (disconnect_hardware empty_connected) = (true, empty_connected)
   /\ points empty_connected = Some []
   /\ forall fuel ps e self',
        iterate fuel empty_connected (GenCreated 1 0) = Some (ps, e, self') ->
        length ps <> 1%nat)
  /\
  (is_connected sample_connected = true
   /\ points sample_connected = Some sample_points
   /\ (forall fuel ps e self',
         iterate fuel sample_connected (GenCreated 2 (-1)) = Some (ps, e, self') ->
         e = Thrown ValueError
         /\ Z.of_nat (length ps) <> ceil_div (Z.of_nat (length sample_points)) 2)
   /\ (forall fuel ps e self',
         iterate fuel sample_connected (GenCreated 2 10000000000000) = Some (ps, e, self') ->
         e = Thrown OverflowError
         /\ Z.of_nat (length ps) <> ceil_div (Z.of_nat (length sample_points)) 2)).
Proof.
  split; [|split].
  - eexists _, _, _.
    split; [vm_compute; reflexivity|]. split; [vm_compute; reflexivity|].
    split; [reflexivity|]. split; [reflexivity|].
    intros fuel ps e self' H. destruct fuel as [|fuel]; [discriminate|].
    vm_compute in H. inversion H; subst. split; [reflexivity|discriminate].
  - split; [vm_compute; reflexivity|]. split; [reflexivity|]. split; [reflexivity|].
    intros fuel ps e self' H. destruct fuel as [|fuel]; [discriminate|].
    vm_compute in H. inversion H; subst. discriminate.
  - split; [reflexivity|]. split; [reflexivity|]. split.
    + intros fuel ps e self' H. destruct fuel as [|[|fuel]]; [discriminate|discriminate|].
      vm_compute in H. inversion H; subst. split; [reflexivity|discriminate].
    + intros fuel ps e self' H. destruct fuel as [|[|fuel]]; [discriminate|discriminate|].
      vm_compute in H. inversion H; subst. split; [reflexivity|discriminate].
Qed.

(** ** C2 *)

Lemma truncated_binary_loads_witness :
  exists pts cols,
    load sample_folder (lit "cut.ply") init
    = Ok (true,
          {| current_ply_file := Some (lit "cut.ply"); points := Some pts;
             colors := Some cols; info := Some (written_info 3);
             is_connected := false; streaming := false |})
    /\ length pts = 1%nat
    /\ length cols = 1%nat
    /\ Forall2 (fun r p => unpack_fff LittleEndian (firstn 12 r) = Ok p)
               [firstn 15 (skipn (length (ply_header 3)) truncated_ply)] pts.
Proof.
  apply (truncated_binary_loads LittleEndian ascii_int int_literal_float
           sample_folder (lit "cut.ply") init truncated_ply (written_info 3)
           (skipn (length (ply_header 3)) truncated_ply)
           [firstn 15 (skipn (length (ply_header 3)) truncated_ply)]
           (skipn 15 (skipn (length (ply_header 3)) truncated_ply))).
  - reflexivity.
  - vm_compute. reflexivity.
  - reflexivity.
  - vm_compute. reflexivity.
  - repeat constructor.
  - vm_compute. lia.
  - vm_compute. reflexivity.
Defined.

(** A cut inside the color octets of a record is another matter: the
    record has its position, it is kept and gets the default gray. *)
Example cut_inside_color :
  exists self',
    load sample_folder (lit "midcolor.ply") init = Ok (true, self')
    /\ option_map (@length triple) (points self') = Some 2%nat
    /\ option_map (fun cs => nth 1 cs (S754_nan, S754_nan, S754_nan)) (colors self')
       = Some gray.
Proof.
  eexists. split; [vm_compute; reflexivity|]. split; reflexivity.
Qed.

(** ** C3 *)

Lemma write_then_load_witness :
  exists cols,
    (forall fs filename self,
        fs filename = Some sample_ply ->
        load fs filename self
        = Ok (true,
              {| current_ply_file := Some filename;
                 points := Some (map read_position sample_vertices);
                 colors := Some cols;
                 info := Some (written_info (Z.of_nat (length sample_vertices)));
                 is_connected := is_connected self;
                 streaming := streaming self |}))
    /\ length (map read_position sample_vertices) = length sample_vertices
    /\ Forall f32_point (map read_position sample_vertices)
    /\ (Forall exact_position sample_vertices ->
        map read_position sample_vertices = map position sample_vertices)
    /\ Forall2 color_close sample_vertices cols.
Proof.
  apply (write_then_load LittleEndian ascii_int int_literal_float
           sample_vertices sample_ply).
  - reflexivity.
  - vm_compute. reflexivity.
  - vm_compute. reflexivity.
Defined.

(** The sample vertices have coordinates that are 32-bit floats: they
    come back as they were. *)
Example sample_vertices_exact : Forall exact_position sample_vertices.
Proof.
  unfold sample_vertices.
  repeat (apply Forall_cons || apply Forall_nil);
    (split; [|split]);
    (eexists; split; [vm_compute; reflexivity|vm_compute; reflexivity]).
Qed.

(** A vertex with the abscissa 0.1, a double that is not a 32-bit float,
    does not come back bit for bit: the file holds the nearest binary32
    value, [0x3DCCCCCD], and the reader gives that one. *)
Lemma write_then_load_counterexample :
  create_test_ply [tenth_vertex] = Ok tenth_ply
  /\ exists self',
       load sample_folder (lit "tenth.ply") init = Ok (true, self')
       /\ points self'
          = Some [(float_of_bits32 1036831949, S754_zero false, S754_zero false)]
       /\ points self' <> Some (map position [tenth_vertex]).
Proof.
  split; [vm_compute; reflexivity|].
  eexists. split; [vm_compute; reflexivity|]. split; [vm_compute; reflexivity|].
  vm_compute. discriminate.
Qed.

(** ** C4 *)

Lemma bad_magic_rejected_witness :
  (parse_ply LittleEndian ascii_int int_literal_float (fun n => n) bad_magic_ply
   = Raise ValueError_not_ply
   \/ parse_ply LittleEndian ascii_int int_literal_float (fun n => n) bad_magic_ply
      = Raise UnicodeDecodeError)
  /\ load sample_folder (lit "bad.ply") sample_loaded = Ok (false, sample_loaded).
Proof.
  apply (bad_magic_rejected LittleEndian ascii_int int_literal_float
           sample_folder (lit "bad.ply") bad_magic_ply sample_loaded).
  - reflexivity.
  - vm_compute. discriminate.
Defined.

(** A file whose first line is [b"ply\r"], not the magic token, is
    loaded: the reader strips the line before it compares. *)
Lemma bad_magic_counterexample :
  first_line crlf_ply = blit "ply" ++ [x0d]
  /\ first_line crlf_ply <> blit "ply"
  /\ exists self',
       load sample_folder (lit "crlf.ply") init = Ok (true, self')
       /\ current_ply_file self' = Some (lit "crlf.ply")
       /\ points self' = Some [].
Proof.
  split; [reflexivity|]. split; [vm_compute; discriminate|].
  eexists. split; [vm_compute; reflexivity|]. split; reflexivity.
Qed.

(** ** C5 *)

Lemma packet_wire_format_witness :
  exists p self' g',
    next sample_connected (GenCreated 2 0) = (Yield p, self', g')
    /\ length (raw_bytes p) = (15 * length (packet_points p))%nat
    /\ forall j point,
         nth_error (packet_points p) j = Some point ->
         wire_record point (supplied (packet_colors p) j)
                     (firstn 15 (skipn (15 * j) (raw_bytes p))).
Proof.
  eexists _, _, _. split; [vm_compute; reflexivity|].
  eapply (packet_wire_format exact_arithmetic sample_connected (GenCreated 2 0)).
  vm_compute. reflexivity.
Defined.

(** ** C6 *)

Lemma stream_ids_and_progress_witness :
  exists p q,
    emits exact_arithmetic (GenCreated 2 0) [p; q]
    /\ (forall k r, nth_error [p; q] k = Some r -> packet_id r = 1 + Z.of_nat k)
    /\ Sorted id_lt [p; q]
    /\ Sorted progress_le [p; q].
Proof.
  eexists _, _.
  assert (forall A B : Prop, A -> (A -> B) -> A /\ B) as both by tauto.
  apply both.
  - eapply emits_cons with (self := sample_connected); [vm_compute; reflexivity|].
    eapply emits_cons with (self := started sample_connected); [vm_compute; reflexivity|].
    apply emits_nil.
  - intros H. apply (stream_ids_and_progress exact_arithmetic 2 0 _ exact_arithmetic_rounding H).
Defined.

(** ** C7 *)

(** After [disconnect_hardware] the file and the points are still
    loaded. *)
Lemma disconnect_counterexample :
  is_connected sample_connected = true
  /\ is_connected (disconnect_hardware sample_connected) = false
  /\ streaming (disconnect_hardware sample_connected) = false
  /\ current_ply_file (disconnect_hardware sample_connected) = Some (lit "scan.ply")
  /\ points (disconnect_hardware sample_connected) = Some sample_points
  /\ ~ (current_ply_file (disconnect_hardware sample_connected) = None
        /\ points (disconnect_hardware sample_connected) = None).
Proof.
  repeat split. intros [H _]. discriminate.
Qed.

(** ** C8 *)

Lemma start_requires_connection_witness :
  next sample_loaded (GenCreated 100 50) = (Return (Some false), sample_loaded, GenFinished)
  /\ iterate 1 sample_loaded (GenCreated 100 50)
     = Some ([], Returned (Some false), sample_loaded)
  /\ thread_run exact_arithmetic 0 sample_loaded 100 50
     = Some ([status_update StatusNotConnected], sample_loaded).
Proof.
  apply (start_requires_connection exact_arithmetic sample_loaded 100 50 0).
  reflexivity.
Defined.

(** ** C9 *)

(** The ASCII file whose second line holds a position only, and the
    binary file that ends inside the color octets of its second record:
    the second color is gray in both. *)
Lemma colors_parallel_to_points_witness :
  (exists pts cols inf,
      points sample_loaded = Some pts /\ colors sample_loaded = Some cols
      /\ info sample_loaded = Some inf
      /\ length cols = length pts
      /\ (has_color inf = false -> Forall (eq gray) cols))
  /\ (exists self' cols,
        load sample_folder (lit "shortline.ply") init = Ok (true, self')
        /\ colors self' = Some cols
        /\ length cols = 2%nat
        /\ nth_error cols 1 = Some gray)
  /\ (exists self' cols,
        load sample_folder (lit "midcolor.ply") init = Ok (true, self')
        /\ colors self' = Some cols
        /\ length cols = 2%nat
        /\ nth_error cols 1 = Some gray).
Proof.
  split; [|split].
  - apply (proj1 (colors_parallel_to_points LittleEndian ascii_int int_literal_float)
                 sample_folder (lit "scan.ply") init sample_loaded).
    vm_compute. reflexivity.
  - eexists _, _. split; [vm_compute; reflexivity|]. split; [reflexivity|].
    split; [reflexivity|].
    eapply (proj1 (proj2 (proj2
              (colors_parallel_to_points LittleEndian ascii_int int_literal_float)))
              short_line_ply _ _ _ _ 1%nat (blit "4 5 6" ++ [NL]) (lit "4 5 6" ++ [10%N])).
    + left. exists sample_folder, (lit "shortline.ply"), init. eexists.
      split; [reflexivity|]. split; [vm_compute; reflexivity|].
      split; [reflexivity|]. split; reflexivity.
    + vm_compute. reflexivity.
    + vm_compute. reflexivity.
    + vm_compute. reflexivity.
    + vm_compute. lia.
    + vm_compute. reflexivity.
    + vm_compute. lia.
  - eexists _, _. split; [vm_compute; reflexivity|]. split; [reflexivity|].
    split; [reflexivity|].
    eapply (proj2 (proj2 (proj2
              (colors_parallel_to_points LittleEndian ascii_int int_literal_float)))
              mid_color_ply _ _ (written_info 3)
              [firstn 15 (skipn (length (ply_header 3)) mid_color_ply)]
              (skipn 15 (skipn (length (ply_header 3)) mid_color_ply))).
    + left. exists sample_folder, (lit "midcolor.ply"), init. eexists.
      split; [reflexivity|]. split; [vm_compute; reflexivity|].
      split; [reflexivity|]. split; reflexivity.
    + vm_compute. reflexivity.
    + vm_compute. reflexivity.
    + reflexivity.
    + repeat constructor.
    + vm_compute. lia.
    + vm_compute. lia.
Defined.

(** ** C10 *)

Lemma load_failure_keeps_state_witness :
  load sample_folder (lit "missing.ply") sample_loaded = Ok (false, sample_loaded)
  /\ load sample_folder (lit "bad.ply") sample_loaded = Ok (false, sample_loaded).
Proof.
  split.
  - apply (load_failure_keeps_state LittleEndian ascii_int int_literal_float
             sample_folder (lit "missing.ply") sample_loaded).
    left. reflexivity.
  - apply (load_failure_keeps_state LittleEndian ascii_int int_literal_float
             sample_folder (lit "bad.ply") sample_loaded).
    right. exists bad_magic_ply, ValueError_not_ply. split; [reflexivity|vm_compute; reflexivity].
Defined.

(* ================================================================= *)
(** * The further properties on the sample data *)

Abbreviation run_thread := (thread_run exact_arithmetic).
Abbreviation stream_file := (file_thread_run exact_arithmetic small_machine).
Abbreviation gray_connected := (colorless_connected LittleEndian ascii_int int_literal_float).

Lemma sample_connected_reachable :
  reachable LittleEndian ascii_int int_literal_float exact_arithmetic sample_connected.
Proof.
  unfold sample_connected. apply reach_connect.
  apply (reach_load LittleEndian ascii_int int_literal_float exact_arithmetic
           sample_folder (lit "scan.ply") init true sample_loaded).
  - apply reach_init.
  - vm_compute. reflexivity.
Defined.

Lemma gray_connected_reachable :
  reachable LittleEndian ascii_int int_literal_float exact_arithmetic gray_connected.
Proof.
  unfold colorless_connected.
  destruct (load more_folder (lit "gray.ply") init) as [[ok loaded]|e|] eqn:E.
  - apply reach_connect.
    apply (reach_load LittleEndian ascii_int int_literal_float exact_arithmetic
             more_folder (lit "gray.ply") init ok loaded); [apply reach_init|exact E].
  - apply reach_init.
  - apply reach_init.
Defined.

Lemma session_invariant_witness :
  loaded_or_empty sample_connected
  /\ (is_connected sample_connected = true -> current_ply_file sample_connected <> None)
  /\ (streaming sample_connected = true -> is_connected sample_connected = true)
  /\ (forall g, fst (fst (next sample_connected g)) <> Throw TypeError)
  /\ (is_connected sample_connected = true ->
      forall points_per_packet delay_ms,
        fst (fst (next sample_connected (GenCreated points_per_packet delay_ms)))
        <> Return (Some false)).
Proof.
  apply (session_invariant LittleEndian ascii_int int_literal_float exact_arithmetic
           sample_connected).
  exact sample_connected_reachable.
Defined.

Lemma stop_takes_effect_at_resume_witness :
  (forall i total sent points_per_packet delay_ms,
      next (stop_data_stream sample_connected)
           (GenSuspended i total sent points_per_packet delay_ms)
      = (if (delay_ms <? - sleep_limit) || (sleep_limit <? delay_ms) then Throw OverflowError
         else if delay_ms <? 0 then Throw ValueError
         else Return None,
         stop_data_stream sample_connected, GenFinished))
  /\ (forall points_per_packet delay_ms,
      next (stop_data_stream sample_connected) (GenCreated points_per_packet delay_ms)
      = next sample_connected (GenCreated points_per_packet delay_ms)).
Proof.
  apply (stop_takes_effect_at_resume exact_arithmetic sample_connected sample_points).
  - reflexivity.
  - reflexivity.
Defined.

Lemma degenerate_packet_sizes_witness :
  next sample_connected (GenCreated 0 50)
  = (Throw ZeroDivisionError, started sample_connected, GenFinished)
  /\ (forall fuel,
        run_thread (S fuel) sample_connected 0 50
        = Some ([status_update StatusStarting;
                 status_update (StatusStreamError ZeroDivisionError);
                 status_update StatusComplete], started sample_connected))
  /\ (forall points_per_packet fuel,
        points_per_packet < 0 ->
        next sample_connected (GenCreated points_per_packet 50)
        = (Return None, started sample_connected, GenFinished)
        /\ run_thread (S fuel) sample_connected points_per_packet 50
           = Some ([status_update StatusStarting; status_update StatusComplete],
                   started sample_connected)).
Proof.
  apply (degenerate_packet_sizes exact_arithmetic sample_connected sample_points 50).
  - reflexivity.
  - reflexivity.
Defined.

Lemma negative_delay_ends_after_first_packet_witness :
  (exists p self' g',
      next sample_connected (GenCreated 2 (-1)) = (Yield p, self', g')
      /\ packet_id p = 1
      /\ packet_points p = firstn (Z.to_nat 2) sample_points
      /\ next self' g' = (Throw ValueError, self', GenFinished)
      /\ forall fuel,
           run_thread (S (S fuel)) sample_connected 2 (-1)
           = Some (status_update StatusStarting
                   :: packet_signals p
                   ++ [status_update (StatusStreamError ValueError);
                       status_update StatusComplete],
                   self'))
  /\ (exists p self' g',
        next sample_connected (GenCreated 2 10000000000000) = (Yield p, self', g')
        /\ packet_id p = 1
        /\ packet_points p = firstn (Z.to_nat 2) sample_points
        /\ next self' g' = (Throw OverflowError, self', GenFinished)
        /\ forall fuel,
             run_thread (S (S fuel)) sample_connected 2 10000000000000
             = Some (status_update StatusStarting
                     :: packet_signals p
                     ++ [status_update (StatusStreamError OverflowError);
                         status_update StatusComplete],
                     self')).
Proof.
  split.
  - eexists _, _, _. split; [vm_compute; reflexivity|].
    eapply (negative_delay_ends_after_first_packet exact_arithmetic sample_connected
              sample_points 2 (-1)).
    + left. lia.
    + vm_compute. reflexivity.
    + reflexivity.
  - eexists _, _, _. split; [vm_compute; reflexivity|].
    eapply (negative_delay_ends_after_first_packet exact_arithmetic sample_connected
              sample_points 2 10000000000000).
    + right. unfold sleep_limit. lia.
    + vm_compute. reflexivity.
    + reflexivity.
Defined.

Lemma panel_connect_reports_witness :
  exists report simulator',
    panel_connect_hardware LittleEndian ascii_int int_literal_float
                           sample_folder (lit "scan.ply") init
    = Ok (report, simulator')
    /\ report <> ConnectionFailed
    /\ (report = NoFileSelected -> lit "scan.ply" = [] /\ simulator' = init)
    /\ (forall filename,
          report = LoadFailed filename ->
          filename = lit "scan.ply" /\ simulator' = init
          /\ load sample_folder filename init = Ok (false, init))
    /\ (forall filename shown,
          report = Connected filename shown ->
          filename = lit "scan.ply"
          /\ is_connected simulator' = true
          /\ exists loaded pts inf,
               load sample_folder filename init = Ok (true, loaded)
               /\ simulator' = snd (connect_hardware loaded)
               /\ points simulator' = Some pts
               /\ info simulator' = Some inf
               /\ shown = Some {| info_filename := filename;
                                  info_points := Z.of_nat (length pts);
                                  info_has_colors := has_color inf;
                                  info_format := format_type inf |}).
Proof.
  eexists _, _. split; [vm_compute; reflexivity|].
  eapply (panel_connect_reports LittleEndian ascii_int int_literal_float
            sample_folder (lit "scan.ply") init).
  vm_compute. reflexivity.
Defined.

Lemma stream_colors_come_from_file_witness :
  exists p self' g',
    next gray_connected (GenCreated 5 0) = (Yield p, self', g')
    /\ (exists cs, packet_colors p = Some cs /\ length cs = length (packet_points p))
    /\ (forall inf j,
          info gray_connected = Some inf -> has_color inf = false ->
          (j < length (packet_points p))%nat ->
          wire_color (raw_bytes p) j = [x7f; x7f; x7f]).
Proof.
  eexists _, _, _. split; [vm_compute; reflexivity|].
  eapply (stream_colors_come_from_file LittleEndian ascii_int int_literal_float
            exact_arithmetic gray_connected (GenCreated 5 0)).
  - exact gray_connected_reachable.
  - vm_compute. reflexivity.
Defined.

Lemma stream_reproduces_binary_body_witness :
  exists loaded ps,
    load sample_folder (lit "scan.ply") init = Ok (true, loaded)
    /\ (forall fuel,
          ceil_div (Z.of_nat (length sample_records)) 2 < Z.of_nat fuel ->
          iterate fuel (snd (connect_hardware loaded)) (GenCreated 2 0)
          = Some (ps, Returned None, started (snd (connect_hardware loaded))))
    /\ Z.of_nat (length ps) = ceil_div (Z.of_nat (length sample_records)) 2
    /\ concat (map raw_bytes ps) = concat sample_records.
Proof.
  apply (stream_reproduces_binary_body LittleEndian ascii_int int_literal_float
           exact_arithmetic sample_folder (lit "scan.ply") init sample_ply
           (written_info 3) sample_records 2 0).
  - exact exact_arithmetic_rounding.
  - reflexivity.
  - reflexivity.
  - vm_compute. reflexivity.
  - reflexivity.
  - reflexivity.
  - unfold sample_records, sample_vertices, plain_record. cbn [map].
    repeat apply Forall_cons; try apply Forall_nil;
      (split; [vm_compute; reflexivity|]);
      (split; [vm_compute; reflexivity|]);
      (split; vm_compute; reflexivity).
  - vm_compute. discriminate.
  - lia.
  - unfold sleep_limit. lia.
Defined.

Lemma header_needs_end_header_witness :
  (forall self',
      load more_folder (lit "headless.ply") init = Ok (true, self') ->
      Exists is_end_header (lines headless_ply))
  /\ load more_folder (lit "headless.ply") init = Hang.
Proof.
  destruct (header_needs_end_header LittleEndian ascii_int int_literal_float
              more_folder (lit "headless.ply") init headless_ply eq_refl) as [H1 H2].
  split; [exact H1|]. apply H2.
  - vm_compute. reflexivity.
  - match goal with
    | |- Forall _ ?l => let l' := eval vm_compute in l in change l with l'
    end.
    apply Forall_cons; [|apply Forall_nil].
    eexists. split; [vm_compute; reflexivity|]. split; [vm_compute; reflexivity|].
    intros inf. eexists. reflexivity.
Defined.

Lemma loaded_count_is_bounded_witness :
  (length sample_points <= Z.to_nat (num_points (written_info 3)))%nat
  /\ (format_type (written_info 3) = lit "ascii" ->
      length sample_points = Z.to_nat (num_points (written_info 3)))
  /\ (num_points (written_info 3) <= 0 -> sample_points = []).
Proof.
  apply (loaded_count_is_bounded LittleEndian ascii_int int_literal_float
           sample_folder (lit "scan.ply") init sample_loaded sample_points (written_info 3)).
  - vm_compute. reflexivity.
  - reflexivity.
  - reflexivity.
Defined.

Lemma load_ply_real_is_a_prefix_witness :
  (forall pts cols inf,
      load_ply_real LittleEndian ascii_int int_literal_float
                    sample_folder (lit "scan.ply") 2
      = Ok (Some (pts, cols, inf)) ->
      (length pts <= Z.to_nat 2)%nat
      /\ (length pts <= Z.to_nat (num_points inf))%nat)
  /\ (forall fs filename self self',
      fs filename = Some sample_ply ->
      load fs filename self = Ok (true, self') ->
      exists pts cols inf,
        points self' = Some pts /\ colors self' = Some cols /\ info self' = Some inf
        /\ load_ply_real LittleEndian ascii_int int_literal_float
                         sample_folder (lit "scan.ply") 2
           = Ok (Some (firstn (Z.to_nat 2) pts, firstn (Z.to_nat 2) cols, inf))).
Proof.
  apply (load_ply_real_is_a_prefix LittleEndian ascii_int int_literal_float
           sample_folder (lit "scan.ply") sample_ply 2).
  reflexivity.
Defined.

Lemma unified_viewer_draws_file_colors_witness :
  exists pts cols inf,
    viewer_load_ply_file LittleEndian ascii_int int_literal_float
                         sample_folder (lit "scan.ply")
    = Ok (DisplayPoints pts (Some cols) inf)
    /\ exists cols',
         load_ply_real LittleEndian ascii_int int_literal_float
                       sample_folder (lit "scan.ply") 50000
         = Ok (Some (pts, cols', inf))
         /\ Some cols = Some cols'
         /\ length cols' = length pts
         /\ 0 < Z.of_nat (length pts) <= 50000.
Proof.
  eexists _, _, _. split; [vm_compute; reflexivity|].
  apply (unified_viewer_draws_file_colors LittleEndian ascii_int int_literal_float
           sample_folder (lit "scan.ply") (DisplayPoints _ _ _)).
  vm_compute. reflexivity.
Defined.

Lemma viewer_keeps_latest_points_witness :
  let v' := add_points sample_viewer (Some sample_points) None in
  all_points v' = last_items 4 (sample_points ++ sample_points)
  /\ Z.of_nat (length (all_points v')) <= 4
  /\ length (all_colors v') = length (all_points v')
  /\ max_points_display v' = 4.
Proof.
  apply (viewer_keeps_latest_points sample_viewer sample_points None).
  - reflexivity.
  - vm_compute. discriminate.
  - reflexivity.
  - exact I.
Defined.

Lemma viewer_limit_not_positive_witness :
  all_points (add_points unlimited_viewer (Some sample_points) None)
  = sample_points ++ sample_points.
Proof.
  apply (proj1 (viewer_limit_not_positive unlimited_viewer sample_points None)).
  reflexivity.
Defined.

Lemma viewer_shows_whole_stream_witness :
  exists ps,
    (forall fuel,
        ceil_div (Z.of_nat (length sample_points)) 2 < Z.of_nat fuel ->
        run_thread fuel sample_connected 2 0
        = Some (status_update StatusStarting
                :: flat_map packet_signals ps ++ [status_update StatusComplete],
                started sample_connected))
    /\ Z.of_nat (length ps) = ceil_div (Z.of_nat (length sample_points)) 2
    /\ all_points (deliver viewer_init (status_update StatusStarting
                                        :: flat_map packet_signals ps
                                        ++ [status_update StatusComplete]))
       = last_items (max_points_display viewer_init) sample_points
    /\ (Z.of_nat (length sample_points) <= max_points_display viewer_init ->
        all_points (deliver viewer_init (status_update StatusStarting
                                          :: flat_map packet_signals ps
                                          ++ [status_update StatusComplete]))
        = sample_points).
Proof.
  apply (viewer_shows_whole_stream exact_arithmetic sample_connected sample_points 2 0
           (match points_to_bytes sample_points (Some sample_colors) with
            | Ok whole => whole
            | _ => []
            end) viewer_init).
  - exact exact_arithmetic_rounding.
  - reflexivity.
  - reflexivity.
  - lia.
  - unfold sleep_limit. lia.
  - vm_compute. reflexivity.
  - reflexivity.
  - reflexivity.
Defined.

Lemma file_stream_reassembles_witness :
  exists signals,
    stream_file sample_folder (Some (lit "scan.ply")) 64 = Some signals
    /\ concat (chunks_of signals) = sample_ply
    /\ Z.of_nat (length (chunks_of signals)) = ceil_div (Z.of_nat (length sample_ply)) 64
    /\ Forall (fun c => 0 < Z.of_nat (length c) <= 64) (chunks_of signals)
    /\ Forall (fun c => Z.of_nat (length c) = 64) (removelast (chunks_of signals))
    /\ last signals (file_status_update FileNotFound) = file_status_update FileComplete
    /\ (forall e, ~ In (file_status_update (FileError e)) signals).
Proof.
  apply (file_stream_reassembles exact_arithmetic small_machine sample_folder
           115%N (lit "can.ply") sample_ply 64).
  - reflexivity.
  - unfold ssize_max. lia.
  - reflexivity.
Defined.

Lemma file_stream_progress_witness :
  exists signals,
    stream_file sample_folder (Some (lit "scan.ply")) 64 = Some signals
    /\ Sorted Z.le (progress_values signals)
    /\ Forall (fun n => n <= 100) (progress_values signals)
    /\ (sample_ply <> [] -> last (progress_values signals) 0 = 100).
Proof.
  apply (file_stream_progress exact_arithmetic small_machine sample_folder
           115%N (lit "can.ply") sample_ply 64).
  - exact exact_arithmetic_rounding.
  - reflexivity.
  - unfold ssize_max. lia.
  - reflexivity.
Defined.

Lemma file_stream_edge_cases_witness :
  stream_file sample_folder (Some (lit "missing.ply")) 1024
  = Some [file_status_update FileNotFound]
  /\ stream_file sample_folder (Some (lit "scan.ply")) 0
     = Some [file_status_update FileComplete]
  /\ stream_file sample_folder (Some (lit "scan.ply")) (-2)
     = Some [file_status_update (FileError ValueError)]
  /\ stream_file sample_folder (Some (lit "scan.ply")) 9223372036854775808
     = Some [file_status_update (FileError OverflowError)]
  /\ stream_file sample_folder (Some (lit "scan.ply")) 1099511627776
     = Some [file_status_update (FileError MemoryError)].
Proof.
  destruct (file_stream_edge_cases exact_arithmetic small_machine sample_folder 1024)
    as (_ & _ & Hmissing & _).
  destruct (file_stream_edge_cases exact_arithmetic small_machine sample_folder 0)
    as (_ & _ & _ & _ & Hzero).
  destruct (file_stream_edge_cases exact_arithmetic small_machine sample_folder (-2))
    as (_ & _ & _ & _ & Hneg).
  destruct (file_stream_edge_cases exact_arithmetic small_machine sample_folder
              9223372036854775808)
    as (_ & _ & _ & _ & Hbig).
  destruct (file_stream_edge_cases exact_arithmetic small_machine sample_folder
              1099511627776)
    as (_ & _ & _ & _ & Hmem).
  split; [apply Hmissing; reflexivity|]. split; [|split; [|split]].
  - refine (proj1 (Hzero 115%N (lit "can.ply") x70 (tl sample_ply) _) eq_refl).
    vm_compute. reflexivity.
  - refine (proj1 (proj2 (Hneg 115%N (lit "can.ply") x70 (tl sample_ply) _)) _).
    + vm_compute. reflexivity.
    + unfold ssize_min. lia.
  - refine (proj1 (proj2 (proj2 (Hbig 115%N (lit "can.ply") x70 (tl sample_ply) _))) _).
    + vm_compute. reflexivity.
    + right. unfold ssize_max. lia.
  - refine (proj1 (proj2 (proj2 (proj2
              (Hmem 115%N (lit "can.ply") x70 (tl sample_ply) _)))) MemoryError _ _).
    + vm_compute. reflexivity.
    + unfold ssize_max. lia.
    + reflexivity.
Defined.

Lemma packets_are_consecutive_slices_witness :
  exists ps e self',
    iterate 5 sample_connected (GenCreated 2 0) = Some (ps, e, self')
    /\ (forall k p,
          nth_error ps k = Some p ->
          packet_points p = slice sample_points (Z.of_nat k * 2) (Z.of_nat k * 2 + 2)
          /\ 0 < Z.of_nat (length (packet_points p)) <= 2)
    /\ Forall (fun p => Z.of_nat (length (packet_points p)) = 2) (removelast ps).
Proof.
  eexists _, _, _. split; [vm_compute; reflexivity|].
  eapply (packets_are_consecutive_slices exact_arithmetic 5 sample_connected
            sample_points 2 0).
  - reflexivity.
  - lia.
  - vm_compute. reflexivity.
Defined.

Lemma short_ascii_body_fails_witness :
  load more_folder (lit "short.ply") sample_loaded = Ok (false, sample_loaded).
Proof.
  apply (short_ascii_body_fails LittleEndian ascii_int int_literal_float
           more_folder (lit "short.ply") sample_loaded short_ascii_ply
           {| num_points := 2; num_faces := 0; has_color := false;
              format_type := lit "ascii"; properties := [] |}
           (blit "1 2 3" ++ [NL])).
  - reflexivity.
  - vm_compute. reflexivity.
  - reflexivity.
  - vm_compute. reflexivity.
Defined.

Lemma thread_always_ends_witness :
  exists fuel signals self',
    run_thread fuel sample_connected 2 0 = Some (signals, self')
    /\ hd_error signals = Some (status_update StatusStarting)
    /\ last signals (status_update StatusStarting) = status_update StatusComplete.
Proof.
  destruct (thread_always_ends exact_arithmetic sample_connected 2 0)
    as (fuel & signals & self' & Hrun & _ & Hconnected).
  exists fuel, signals, self'. split; [exact Hrun|].
  apply Hconnected. reflexivity.
Defined.
